(** * lazy-todo: the view/state core, embedded and verified

    A shallow embedding of the Go packages [model], [storage] and [ui]
    of lazy-todo (list view with grouping, kanban view, task form,
    application state machine, YAML repository), followed by the theorems
    about them.

    Conventions of the embedding.
    - Go [int] is [Z]; every integer below is a slice length or an index
      bounded by one, so 64-bit wrap-around never occurs and is not
      written out.
    - A Go [string] that holds text (YAML scalars, text-input values,
      labels) is the list of its code points ([rune]s).  On UTF-8 text
      [==], [+], [strings.Contains] and [strings.Split(s, ",")] agree with
      their byte-level definitions, and [strings.ToLower],
      [strings.TrimSpace] are defined by Go rune by rune.
    - An index expression [s[i]] that Go rejects at run time (a panic) is
      [None] in the [option] monad.
    - A [for] loop whose trip count is bounded by a measure runs on fuel
      equal to that measure; the loop's unfolding equation or its
      specification, proved below, shows the fuel is never exhausted. *)

From Stdlib Require Import ZArith String Ascii.
From stdpp Require Import base option list gmap.

Local Open Scope Z_scope.

(** ** Go strings and slices *)

Definition rune := Z.
Abbreviation gostring := (list Z).

(** A string literal made of ASCII characters. *)
Definition str (s : string) : gostring :=
  (λ a, Z.of_N (N_of_ascii a)) <$> list_ascii_of_string s.

(** [len(s)] *)
Definition len {A} (s : list A) : Z := Z.of_nat (length s).

(** [s[i]]; [None] is the run-time panic "index out of range". *)
Definition at_index {A} (s : list A) (i : Z) : option A :=
  if i <? 0 then None else s !! Z.to_nat i.

(** [s[i] = x] on a slice that has index [i]. *)
Definition set_index {A} (s : list A) (i : Z) (x : A) : option (list A) :=
  if (0 <=? i) && (i <? len s) then Some (<[Z.to_nat i := x]> s) else None.

(** The pairs [(i, x)] a [for i, x := range s] loop visits. *)
Definition indexed {A} (s : list A) : list (Z * A) :=
  imap (λ i x, (Z.of_nat i, x)) s.

Module strings.

(** [strings.HasPrefix] *)
Fixpoint HasPrefix (s prefix : gostring) : bool :=
  match prefix, s with
  | [], _ => true
  | _ :: _, [] => false
  | p :: prefix', c :: s' => (c =? p) && HasPrefix s' prefix'
  end.

(** [strings.Contains]: [substr] occurs in [s]. *)
Fixpoint Contains (s substr : gostring) : bool :=
  HasPrefix s substr ||
  match s with
  | [] => false
  | _ :: s' => Contains s' substr
  end.

(** [substr] occurs in [s] as a run of consecutive runes. *)
Definition substring (substr s : gostring) : Prop :=
  ∃ before after, s = before ++ substr ++ after.

(** [strings.Split(s, sep)] for a separator of one rune: the pieces
    between the separators, one more than there are separators. *)
Fixpoint Split (s : gostring) (sep : rune) : list gostring :=
  match s with
  | [] => [[]]
  | c :: s' =>
      if c =? sep then [] :: Split s' sep
      else match Split s' sep with
           | piece :: pieces => (c :: piece) :: pieces
           | [] => [[c]]
           end
  end.

(** [unicode.IsSpace]: the Unicode White_Space property. *)
Definition IsSpace (r : rune) : bool :=
  ((9 <=? r) && (r <=? 13)) || (r =? 32) || (r =? 133) || (r =? 160)
  || (r =? 5760) || ((8192 <=? r) && (r <=? 8202))
  || (r =? 8232) || (r =? 8233) || (r =? 8239) || (r =? 8287)
  || (r =? 12288).

Fixpoint TrimLeftSpace (s : gostring) : gostring :=
  match s with
  | [] => []
  | c :: s' => if IsSpace c then TrimLeftSpace s' else s
  end.

(** [strings.TrimSpace]: leading and trailing white space removed. *)
Definition TrimSpace (s : gostring) : gostring :=
  reverse (TrimLeftSpace (reverse (TrimLeftSpace s))).

(** [strings.ToLower] maps [unicode.ToLower] over the runes; the
    Unicode case table is a parameter. *)
Definition ToLower (unicode_ToLower : rune → rune) (s : gostring)
  : gostring := unicode_ToLower <$> s.

(** [strings.Join] *)
Fixpoint Join (elems : list gostring) (sep : gostring) : gostring :=
  match elems with
  | [] => []
  | [e] => e
  | e :: rest => e ++ sep ++ Join rest sep
  end.

End strings.

(** The case table restricted to ASCII, on which it agrees with Go's; it
    instantiates the parameter when a definition is run on an example. *)
Definition ascii_ToLower (r : rune) : rune :=
  if (65 <=? r) && (r <=? 90) then r + 32 else r.

(** ** package model *)

Module model.

(** [type Priority string], [type Status string]: any string is a
    value of these types; four constants each are the known ones. *)
Abbreviation Priority := (list Z) (only parsing).
Abbreviation Status := (list Z) (only parsing).

Definition PriorityLow : Priority := str "low".
Definition PriorityMedium : Priority := str "medium".
Definition PriorityHigh : Priority := str "high".
Definition PriorityCritical : Priority := str "critical".

Definition StatusTodo : Status := str "todo".
Definition StatusInProgress : Status := str "in_progress".
Definition StatusBlocked : Status := str "blocked".
Definition StatusDone : Status := str "done".

Inductive GroupBy :=
  GroupByNone | GroupByStatus | GroupByPriority | GroupByTag.

#[global] Instance GroupBy_eq_dec : EqDecision GroupBy.
Proof. solve_decision. Defined.

Definition GroupBy_Next (g : GroupBy) : GroupBy :=
  match g with
  | GroupByNone => GroupByStatus
  | GroupByStatus => GroupByPriority
  | GroupByPriority => GroupByTag
  | GroupByTag => GroupByNone
  end.

(** [time.Time], as an instant on some clock. *)
Definition Time := Z.

Record Task := mkTask {
  ID : gostring;
  Title : gostring;
  Description : gostring;
  Priority_ : Priority;
  Status_ : Status;
  Tags : list gostring;
  CreatedAt : Time;
  UpdatedAt : Time;
}.

#[global] Instance Task_eq_dec : EqDecision Task.
Proof. solve_decision. Defined.

Definition with_Status (t : Task) (s : Status) : Task :=
  mkTask (ID t) (Title t) (Description t) (Priority_ t) s (Tags t)
         (CreatedAt t) (UpdatedAt t).
Definition with_Priority (t : Task) (p : Priority) : Task :=
  mkTask (ID t) (Title t) (Description t) p (Status_ t) (Tags t)
         (CreatedAt t) (UpdatedAt t).
Definition with_Tags (t : Task) (tags : list gostring) : Task :=
  mkTask (ID t) (Title t) (Description t) (Priority_ t) (Status_ t) tags
         (CreatedAt t) (UpdatedAt t).
Definition with_UpdatedAt (t : Task) (now : Time) : Task :=
  mkTask (ID t) (Title t) (Description t) (Priority_ t) (Status_ t)
         (Tags t) (CreatedAt t) now.

(** [NewTask]; the fresh UUID and the clock reading are inputs. *)
Definition NewTask (uuid : gostring) (now : Time) (title : gostring)
  : Task :=
  mkTask uuid title [] PriorityMedium StatusTodo [] now now.

Definition AllPriorities : list Priority :=
  [PriorityLow; PriorityMedium; PriorityHigh; PriorityCritical].

Definition AllStatuses : list Status :=
  [StatusTodo; StatusInProgress; StatusBlocked; StatusDone].

(** [Priority.Label]: Basse, Moyenne, Haute, Critique. *)
Definition Priority_Label (p : Priority) : gostring :=
  if decide (p = PriorityLow) then str "Basse"
  else if decide (p = PriorityMedium) then str "Moyenne"
  else if decide (p = PriorityHigh) then str "Haute"
  else if decide (p = PriorityCritical) then str "Critique"
  else p.

(** [Status.Label]: the French labels, U+00C0 " faire", "En cours",
    "Bloqu" U+00E9, "Termin" U+00E9. *)
Definition Status_Label (s : Status) : gostring :=
  if decide (s = StatusTodo) then 192 :: str " faire"
  else if decide (s = StatusInProgress) then str "En cours"
  else if decide (s = StatusBlocked) then str "Bloqu" ++ [233]
  else if decide (s = StatusDone) then str "Termin" ++ [233]
  else s.

(** [Status.Index] *)
Definition Status_Index (s : Status) : Z :=
  if decide (s = StatusTodo) then 0
  else if decide (s = StatusInProgress) then 1
  else if decide (s = StatusBlocked) then 2
  else if decide (s = StatusDone) then 3
  else 0.

Definition StatusFromIndex (i : Z) : Status :=
  let statuses := AllStatuses in
  if (0 <=? i) && (i <? len statuses)
  then default StatusTodo (at_index statuses i)
  else StatusTodo.

(** [Priority.Next] *)
Definition Priority_Next (p : Priority) : Priority :=
  if decide (p = PriorityLow) then PriorityMedium
  else if decide (p = PriorityMedium) then PriorityHigh
  else if decide (p = PriorityHigh) then PriorityCritical
  else if decide (p = PriorityCritical) then PriorityLow
  else PriorityMedium.

(** [Priority.Index] *)
Definition Priority_Index (p : Priority) : Z :=
  if decide (p = PriorityLow) then 0
  else if decide (p = PriorityMedium) then 1
  else if decide (p = PriorityHigh) then 2
  else if decide (p = PriorityCritical) then 3
  else 1.

End model.

(** ** package ui: the header-skipping cursor

    [ListView] and [KanbanView] carry the same cursor code, over
    [l.items] / [l.cursor] and over [col.items] / [col.cursor].  The loops
    and the three bodies are written once, over any item type with an
    [isHeader] flag. *)

Module Cursor.
Section loops.
Context {Item : Type} (isHeader : Item → bool).
Variable items : list Item.

(** [for c < len(items) && items[c].isHeader { c++ }] *)
Fixpoint forward_loop (fuel : nat) (c : Z) : option Z :=
  if c <? len items then
    it ← at_index items c;
    if isHeader it then
      match fuel with
      | O => None
      | S fuel' => forward_loop fuel' (c + 1)
      end
    else Some c
  else Some c.

Definition skip_forward (c : Z) : option Z :=
  forward_loop (Z.to_nat (len items - c)) c.

(** [for c > 0 && items[c].isHeader { c-- }] *)
Fixpoint upward_loop (fuel : nat) (c : Z) : option Z :=
  if 0 <? c then
    it ← at_index items c;
    if isHeader it then
      match fuel with
      | O => None
      | S fuel' => upward_loop fuel' (c - 1)
      end
    else Some c
  else Some c.

Definition skip_upward (c : Z) : option Z :=
  upward_loop (Z.to_nat c) c.

(** [for c = len(items) - 1; c >= 0; c-- { if !items[c].isHeader { break } }] *)
Fixpoint backward_loop (fuel : nat) (c : Z) : option Z :=
  if 0 <=? c then
    it ← at_index items c;
    if negb (isHeader it) then Some c
    else
      match fuel with
      | O => None
      | S fuel' => backward_loop fuel' (c - 1)
      end
  else Some c.

Definition last_task (_ : unit) : option Z :=
  backward_loop (Z.to_nat (len items)) (len items - 1).

(** The body of [adjustCursor] and of [adjustColumnCursor]. *)
Definition adjust (cursor : Z) : option Z :=
  if len items =? 0 then Some 0
  else
    let c := if cursor >=? len items then len items - 1 else cursor in
    c ← skip_forward c;
    c ← (if c >=? len items then last_task () else Some c);
    Some (if c <? 0 then 0 else c).

(** The body of [MoveUp]. *)
Definition move_up (cursor : Z) : option Z :=
  if 0 <? cursor then
    c ← skip_upward (cursor - 1);
    if (0 <=? c) && (c <? len items) then
      it ← at_index items c;
      if isHeader it then skip_forward c else Some c
    else Some c
  else Some cursor.

(** The body of [MoveDown]. *)
Definition move_down (cursor : Z) : option Z :=
  if cursor <? len items - 1 then
    c ← skip_forward (cursor + 1);
    if c >=? len items then last_task () else Some c
  else Some cursor.

(** The cursor is in bounds and on a Task-Reference item. *)
Definition on_task (c : Z) : Prop :=
  ∃ it, at_index items c = Some it ∧ isHeader it = false.

(** The position is in bounds and holds a Header. *)
Definition on_header (c : Z) : Prop :=
  ∃ it, at_index items c = Some it ∧ isHeader it = true.

(** The sequence has a Task-Reference item. *)
Definition has_task : Prop := ∃ it, it ∈ items ∧ isHeader it = false.

End loops.
End Cursor.

(** ** package ui: [itoa] (kanban.go) *)

(** [for i > 0 { result = append([]byte{byte('0' + i%10)}, result...); i /= 10 }] *)
Fixpoint itoa_loop (fuel : nat) (i : Z) (result : gostring) : gostring :=
  if 0 <? i then
    match fuel with
    | O => result
    | S fuel' => itoa_loop fuel' (i ÷ 10) ((48 + Z.rem i 10) :: result)
    end
  else result.

Definition itoa (i : Z) : gostring :=
  if i =? 0 then str "0"
  else if i <? 0 then str "-" ++ itoa_loop (Z.to_nat (- i)) (- i) []
  else itoa_loop (Z.to_nat i) i [].

(** [for _, x := range xs { body }] over a state, where the body may
    panic. *)
Fixpoint range_loop {S A} (body : S → A → option S) (s : S) (xs : list A)
  : option S :=
  match xs with
  | [] => Some s
  | x :: xs' => s' ← body s x; range_loop body s' xs'
  end.

(** The number a string of decimal digits denotes, most significant
    digit first. *)
Definition decimal_value (digits : gostring) : Z :=
  foldl (λ value d, 10 * value + (d - 48)) 0 digits.

(** ** package ui: the scroll window of [Render]

    [ListView.Render] and [KanbanView.renderColumn] choose the rows to
    draw with the same code: a scroll offset computed from the cursor and
    the number of rows that fit, then a loop over the item indices.  What
    a row looks like is left out; the window is the list of indices the
    loop visits. *)

Module Scroll.

(** [scrollOffset := 0; if cursor >= visible { scrollOffset = cursor - visible + 1 }] *)
Definition offset (cursor visible : Z) : Z :=
  if cursor >=? visible then cursor - visible + 1 else 0.

(** [for i := scrollOffset; i < n && i < scrollOffset+visible; i++] *)
Fixpoint rows_loop (fuel : nat) (n scrollOffset visible i : Z)
    (rows : list Z) : list Z :=
  if (i <? n) && (i <? scrollOffset + visible) then
    match fuel with
    | O => rows
    | S fuel' => rows_loop fuel' n scrollOffset visible (i + 1) (rows ++ [i])
    end
  else rows.

(** The indices drawn for [n] items. *)
Definition rows (n cursor visible : Z) : list Z :=
  let scrollOffset := offset cursor visible in
  rows_loop (Z.to_nat (n - scrollOffset)) n scrollOffset visible
            scrollOffset [].

End Scroll.

(** ** package ui: grouping

    [ListView.organizeItems] and [KanbanView.organizeColumnItems] share
    the grouping code: a map from group key to task indices, the keys in
    first-seen order, the keys re-ordered by the enum for status and
    priority, and the items built group by group.  It is written once,
    over the key function, the header and the task item of the view. *)

Module Grouping.
Section grouping.
Context {Item : Type}.
Variable header : gostring → list Z → Item.
Variable taskItem : Z → Item.

(** One turn of the grouping loop:
    [task := tasks[idx]; key := ...;
     if _, exists := groups[key]; !exists { groupOrder = append(groupOrder, key) };
     groups[key] = append(groups[key], idx)] *)
Definition group_step (tasks : list model.Task)
    (key_of : model.Task → gostring)
    (st : gmap (list Z) (list Z) * list gostring) (idx : Z)
  : option (gmap (list Z) (list Z) * list gostring) :=
  let '(groups, groupOrder) := st in
  task ← at_index tasks idx;
  let key := key_of task in
  let groupOrder :=
    match groups !! key with
    | None => groupOrder ++ [key]
    | Some _ => groupOrder
    end in
  Some (<[key := default [] (groups !! key) ++ [idx]]> groups, groupOrder).

(** [orderedKeys]: the labels of the enum, in its order, that are keys of
    [groups]. *)
Definition orderedKeys (groups : gmap (list Z) (list Z))
    (labels : list gostring) : list gostring :=
  foldl (λ orderedKeys label,
           match groups !! label with
           | Some _ => orderedKeys ++ [label]
           | None => orderedKeys
           end)
        [] labels.

(** The last loop: per group a header, then the group's tasks. *)
Definition build_items (groups : gmap (list Z) (list Z))
    (groupOrder : list gostring) : list Item :=
  foldl (λ items groupKey,
           let taskIndices := default [] (groups !! groupKey) in
           let items := items ++ [header groupKey taskIndices] in
           foldl (λ items idx, items ++ [taskItem idx]) items taskIndices)
        [] groupOrder.

End grouping.

(** The distinct keys of [ks] in the order of their first occurrence. *)
Fixpoint first_occurrences (ks : list gostring) : list gostring :=
  match ks with
  | [] => []
  | k :: ks' => k :: filter (λ k', k' ≠ k) (first_occurrences ks')
  end.

(** The key of the task at index [idx] ([""] outside the slice). *)
Definition key_at (tasks : list model.Task)
    (key_of : model.Task → gostring) (idx : Z) : gostring :=
  from_option key_of [] (at_index tasks idx).

(** The members of group [k]: the indices of [idxs] whose task has key
    [k], in the order of [idxs]. *)
Definition members (tasks : list model.Task)
    (key_of : model.Task → gostring) (idxs : list Z) (k : gostring)
  : list Z :=
  filter (λ idx, key_at tasks key_of idx = k) idxs.

End Grouping.

(** ** package ui: the list view *)

Module ListView.

Record ListItem := mkItem {
  isHeader : bool;
  headerText : gostring;
  taskIndex : Z;
}.

#[global] Instance ListItem_eq_dec : EqDecision ListItem.
Proof. solve_decision. Defined.

(** [ListItem{taskIndex: idx}] and [ListItem{isHeader: true, headerText: t}] *)
Definition TaskRef (idx : Z) : ListItem := mkItem false [] idx.
Definition Header (text : gostring) : ListItem := mkItem true text 0.

Record t := mk {
  tasks : list model.Task;
  cursor : Z;
  width : Z;
  height : Z;
  filter : gostring;
  filtered : list Z;
  groupBy : model.GroupBy;
  items : list ListItem;
}.

Definition set_cursor (l : t) (c : Z) : t :=
  mk (tasks l) c (width l) (height l) (filter l) (filtered l) (groupBy l)
     (items l).
Definition set_items (l : t) (its : list ListItem) : t :=
  mk (tasks l) (cursor l) (width l) (height l) (filter l) (filtered l)
     (groupBy l) its.
Definition set_filtered (l : t) (f : list Z) : t :=
  mk (tasks l) (cursor l) (width l) (height l) (filter l) f (groupBy l)
     (items l).
Definition set_filter (l : t) (f : gostring) : t :=
  mk (tasks l) (cursor l) (width l) (height l) f (filtered l) (groupBy l)
     (items l).
Definition set_tasks (l : t) (ts : list model.Task) : t :=
  mk ts (cursor l) (width l) (height l) (filter l) (filtered l) (groupBy l)
     (items l).
Definition set_groupBy (l : t) (g : model.GroupBy) : t :=
  mk (tasks l) (cursor l) (width l) (height l) (filter l) (filtered l) g
     (items l).

Definition NewListView : t :=
  mk [] 0 0 0 [] [] model.GroupByNone [].

Definition SetSize (l : t) (w h : Z) : t :=
  mk (tasks l) (cursor l) w h (filter l) (filtered l) (groupBy l) (items l).

(** The cursor of the view is on a Task-Reference item; the items of the
    view have one. *)
Definition on_task (l : t) : Prop :=
  Cursor.on_task isHeader (items l) (cursor l).
Definition has_task (l : t) : Prop := Cursor.has_task isHeader (items l).

Definition adjustCursor (l : t) : option t :=
  c ← Cursor.adjust isHeader (items l) (cursor l);
  Some (set_cursor l c).

Definition MoveUp (l : t) : option t :=
  c ← Cursor.move_up isHeader (items l) (cursor l);
  Some (set_cursor l c).

Definition MoveDown (l : t) : option t :=
  c ← Cursor.move_down isHeader (items l) (cursor l);
  Some (set_cursor l c).


Section organizer.
Context (unicode_ToLower : rune → rune).

(** [matchesFilter]; [l.filter] is already lower-cased by [SetFilter]. *)
Definition matchesFilter (l : t) (task : model.Task) : bool :=
  if decide (filter l = []) then true
  else if strings.Contains
            (strings.ToLower unicode_ToLower (model.Title task)) (filter l)
  then true
  else if strings.Contains
            (strings.ToLower unicode_ToLower (model.Description task))
            (filter l)
  then true
  else existsb
         (λ tag, strings.Contains (strings.ToLower unicode_ToLower tag)
                                  (filter l))
         (model.Tags task).

(** The filter predicate in the words of the specification: the filter
    is empty, or the case-folded filter is a substring of the case-folded
    title, description or of some case-folded tag. *)
Definition passes (filter : gostring) (task : model.Task) : Prop :=
  filter = [] ∨
  strings.substring (strings.ToLower unicode_ToLower filter)
    (strings.ToLower unicode_ToLower (model.Title task)) ∨
  strings.substring (strings.ToLower unicode_ToLower filter)
    (strings.ToLower unicode_ToLower (model.Description task)) ∨
  ∃ tag, tag ∈ model.Tags task ∧
         strings.substring (strings.ToLower unicode_ToLower filter)
           (strings.ToLower unicode_ToLower tag).

Definition applyFilter (l : t) : t :=
  set_filtered l
    (foldl (λ filtered '(i, task),
              if matchesFilter l task then filtered ++ [i] else filtered)
           [] (indexed (tasks l))).

(** The [switch l.groupBy] that computes the group key of a task. *)
Definition group_key (g : model.GroupBy) (task : model.Task) : gostring :=
  match g with
  | model.GroupByStatus => model.Status_Label (model.Status_ task)
  | model.GroupByPriority => model.Priority_Label (model.Priority_ task)
  | model.GroupByTag =>
      match model.Tags task with
      | tag :: _ => tag
      | [] => str "Sans tag"
      end
  | model.GroupByNone => []
  end.

(** [groupKey + " (" + itoa(len(taskIndices)) + ")"] *)
Definition header (groupKey : gostring) (taskIndices : list Z) : ListItem :=
  Header (groupKey ++ str " (" ++ itoa (len taskIndices) ++ str ")").

Definition organizeItems (l : t) : option t :=
  if decide (groupBy l = model.GroupByNone) then
    Some (set_items l
            (foldl (λ items idx, items ++ [TaskRef idx]) [] (filtered l)))
  else
    '(groups, groupOrder) ←
      range_loop (Grouping.group_step (tasks l) (group_key (groupBy l)))
                 (∅, []) (filtered l);
    let groupOrder :=
      if decide (groupBy l = model.GroupByStatus) then
        Grouping.orderedKeys groups
          (model.Status_Label <$> model.AllStatuses)
      else if decide (groupBy l = model.GroupByPriority) then
        Grouping.orderedKeys groups
          (model.Priority_Label <$> model.AllPriorities)
      else groupOrder in
    Some (set_items l (Grouping.build_items header TaskRef groups groupOrder)).

Definition SetTasks (l : t) (tasks : list model.Task) : option t :=
  let l := set_tasks l tasks in
  let l := applyFilter l in
  l ← organizeItems l;
  adjustCursor l.

Definition SetGroupBy (l : t) (g : model.GroupBy) : option t :=
  let l := set_groupBy l g in
  l ← organizeItems l;
  adjustCursor l.

Definition CycleGroupBy (l : t) : option t :=
  let l := set_groupBy l (model.GroupBy_Next (groupBy l)) in
  l ← organizeItems l;
  adjustCursor l.

Definition SetFilter (l : t) (filter : gostring) : option t :=
  let l := set_filter l (strings.ToLower unicode_ToLower filter) in
  let l := applyFilter l in
  l ← organizeItems l;
  let l := set_cursor l 0 in
  adjustCursor l.

End organizer.

(** The task indices the items refer to, in display order. *)
Definition task_refs (its : list ListItem) : list Z :=
  taskIndex <$> base.filter (λ it, isHeader it = false) its.

(** The group keys of the tasks that passed the filter, in collection
    order. *)
Definition group_keys (l : t) : list gostring :=
  Grouping.key_at (tasks l) (group_key (groupBy l)) <$> filtered l.

(** The order of the groups in the words of the specification: the
    labels of the enum, in its order, restricted to the groups that have a
    member, for status and priority; first-occurrence order for tags. *)
Definition group_order (l : t) : list gostring :=
  match groupBy l with
  | model.GroupByStatus =>
      base.filter (λ k, k ∈ group_keys l)
                  (model.Status_Label <$> model.AllStatuses)
  | model.GroupByPriority =>
      base.filter (λ k, k ∈ group_keys l)
                  (model.Priority_Label <$> model.AllPriorities)
  | _ => Grouping.first_occurrences (group_keys l)
  end.

(** The members of group [k], in collection order. *)
Definition group_members (l : t) (k : gostring) : list Z :=
  Grouping.members (tasks l) (group_key (groupBy l)) (filtered l) k.

(** The group of the task is displayed: always without grouping and by
    tag; by status or priority, when the label is one of the enum's. *)
Definition group_shown (g : model.GroupBy) (task : model.Task) : Prop :=
  match g with
  | model.GroupByStatus =>
      model.Status_Label (model.Status_ task)
        ∈ model.Status_Label <$> model.AllStatuses
  | model.GroupByPriority =>
      model.Priority_Label (model.Priority_ task)
        ∈ model.Priority_Label <$> model.AllPriorities
  | _ => True
  end.

(** A group as it is displayed: its header, then its members. *)
Definition group_block (l : t) (k : gostring) : list ListItem :=
  header k (group_members l k) :: (TaskRef <$> group_members l k).

(** [Count] and [TotalCount] *)
Definition Count (l : t) : Z := len (filtered l).
Definition TotalCount (l : t) : Z := len (tasks l).

(** The item indices [Render] draws: none when there is no item (the
    empty message is shown), else the scroll window over
    [visibleHeight := l.height - 2] rows. *)
Definition rendered_rows (l : t) : list Z :=
  if len (items l) =? 0 then []
  else Scroll.rows (len (items l)) (cursor l) (height l - 2).

(** The state the operations of the view leave: the filtered indices
    are indices of [l.tasks], the Task-Reference items refer to filtered
    tasks, and the cursor is on a Task-Reference item, or at 0 when there
    is no item. *)
Definition reachable (l : t) : Prop :=
  Forall (λ idx, is_Some (at_index (tasks l) idx)) (filtered l) ∧
  (∀ idx, idx ∈ task_refs (items l) → idx ∈ filtered l) ∧
  (on_task l ∨ (items l = [] ∧ cursor l = 0)).

(** [SelectedIndex]: the task's index in [l.tasks], or -1. *)
Definition SelectedIndex (l : t) : Z :=
  if len (items l) =? 0 then -1
  else if (0 <=? cursor l) && (cursor l <? len (items l)) then
    match at_index (items l) (cursor l) with
    | Some item => if isHeader item then -1 else taskIndex item
    | None => -1
    end
  else -1.

(** [SelectedTask]: [Some None] is [nil]; [Some (Some (i, task))] is the
    pointer [&l.tasks[i]] with the task it points to; [None] is the panic
    of an index outside [l.tasks]. *)
Definition SelectedTask (l : t) : option (option (Z * model.Task)) :=
  if len (items l) =? 0 then Some None
  else if (0 <=? cursor l) && (cursor l <? len (items l)) then
    match at_index (items l) (cursor l) with
    | Some item =>
        if isHeader item then Some None
        else task ← at_index (tasks l) (taskIndex item);
             Some (Some (taskIndex item, task))
    | None => Some None
    end
  else Some None.

End ListView.

(** ** package ui: the kanban view *)

Module KanbanView.

Record KanbanItem := mkItem {
  isHeader : bool;
  headerText : gostring;
  taskIndex : Z;
}.

#[global] Instance KanbanItem_eq_dec : EqDecision KanbanItem.
Proof. solve_decision. Defined.

Definition TaskRef (idx : Z) : KanbanItem := mkItem false [] idx.
Definition Header (text : gostring) : KanbanItem := mkItem true text 0.

Record KanbanColumn := mkCol {
  status : model.Status;
  col_tasks : list Z;
  items : list KanbanItem;
  cursor : Z;
}.

#[global] Instance KanbanColumn_eq_dec : EqDecision KanbanColumn.
Proof. solve_decision. Defined.

(** [[4]KanbanColumn] *)
Record Columns := mkCols {
  col0 : KanbanColumn;
  col1 : KanbanColumn;
  col2 : KanbanColumn;
  col3 : KanbanColumn;
}.

(** [columns[i]]; [None] is the panic of an index outside 0..3. *)
Definition get_col (cols : Columns) (i : Z) : option KanbanColumn :=
  if i =? 0 then Some (col0 cols)
  else if i =? 1 then Some (col1 cols)
  else if i =? 2 then Some (col2 cols)
  else if i =? 3 then Some (col3 cols)
  else None.

(** [columns[i] = c] *)
Definition set_col (cols : Columns) (i : Z) (c : KanbanColumn)
  : option Columns :=
  if i =? 0 then Some (mkCols c (col1 cols) (col2 cols) (col3 cols))
  else if i =? 1 then Some (mkCols (col0 cols) c (col2 cols) (col3 cols))
  else if i =? 2 then Some (mkCols (col0 cols) (col1 cols) c (col3 cols))
  else if i =? 3 then Some (mkCols (col0 cols) (col1 cols) (col2 cols) c)
  else None.

Record t := mk {
  tasks : list model.Task;
  columns : Columns;
  activeCol : Z;
  width : Z;
  height : Z;
  columnWidth : Z;
  groupBy : model.GroupBy;
}.

Definition set_columns (k : t) (cols : Columns) : t :=
  mk (tasks k) cols (activeCol k) (width k) (height k) (columnWidth k)
     (groupBy k).
Definition set_tasks (k : t) (ts : list model.Task) : t :=
  mk ts (columns k) (activeCol k) (width k) (height k) (columnWidth k)
     (groupBy k).
Definition set_activeCol (k : t) (a : Z) : t :=
  mk (tasks k) (columns k) a (width k) (height k) (columnWidth k)
     (groupBy k).
Definition set_groupBy (k : t) (g : model.GroupBy) : t :=
  mk (tasks k) (columns k) (activeCol k) (width k) (height k)
     (columnWidth k) g.

Definition NewKanbanView : t :=
  mk [] (mkCols (mkCol model.StatusTodo [] [] 0)
                (mkCol model.StatusInProgress [] [] 0)
                (mkCol model.StatusBlocked [] [] 0)
                (mkCol model.StatusDone [] [] 0))
     0 0 0 0 model.GroupByNone.

(** The cursor of the column is on a Task-Reference item; the items of
    the column have one. *)
Definition col_on_task (col : KanbanColumn) : Prop :=
  Cursor.on_task isHeader (items col) (cursor col).
Definition col_has_task (col : KanbanColumn) : Prop :=
  Cursor.has_task isHeader (items col).

(** [for i := range k.columns { body(i) }] *)
Definition each_column (body : t → Z → option t) (k : t) : option t :=
  range_loop body k [0; 1; 2; 3].

(** A method that works on [col := &k.columns[colIdx]]. *)
Definition on_column (f : KanbanColumn → option KanbanColumn) (k : t)
    (colIdx : Z) : option t :=
  col ← get_col (columns k) colIdx;
  col ← f col;
  cols ← set_col (columns k) colIdx col;
  Some (set_columns k cols).

(** The body of [adjustColumnCursor], on [col = &k.columns[colIdx]]. *)
Definition adjust_column (col : KanbanColumn) : option KanbanColumn :=
  c ← Cursor.adjust isHeader (items col) (cursor col);
  Some (mkCol (status col) (col_tasks col) (items col) c).

Definition adjustColumnCursor (k : t) (colIdx : Z) : option t :=
  on_column adjust_column k colIdx.

Definition adjustCursors (k : t) : option t :=
  each_column adjustColumnCursor k.

(** The [switch k.groupBy] of [organizeColumnItems]. *)
Definition group_key (g : model.GroupBy) (task : model.Task) : gostring :=
  match g with
  | model.GroupByPriority => model.Priority_Label (model.Priority_ task)
  | model.GroupByTag =>
      match model.Tags task with
      | tag :: _ => tag
      | [] => str "Sans tag"
      end
  | _ => []
  end.

(** A kanban group header carries the key alone. *)
Definition header (groupKey : gostring) (_ : list Z) : KanbanItem :=
  Header groupKey.

(** The body of [organizeColumnItems], on [col = &k.columns[colIdx]]. *)
Definition organize_column (tasks : list model.Task) (g : model.GroupBy)
    (col : KanbanColumn) : option KanbanColumn :=
  if decide (g = model.GroupByNone ∨ g = model.GroupByStatus) then
    Some (mkCol (status col) (col_tasks col)
            (foldl (λ items idx, items ++ [TaskRef idx]) [] (col_tasks col))
            (cursor col))
  else
    '(groups, groupOrder) ←
      range_loop (Grouping.group_step tasks (group_key g)) (∅, [])
                 (col_tasks col);
    let groupOrder :=
      if decide (g = model.GroupByPriority) then
        Grouping.orderedKeys groups
          (model.Priority_Label <$> model.AllPriorities)
      else groupOrder in
    Some (mkCol (status col) (col_tasks col)
            (Grouping.build_items header TaskRef groups groupOrder)
            (cursor col)).

Definition organizeColumnItems (k : t) (colIdx : Z) : option t :=
  on_column (organize_column (tasks k) (groupBy k)) k colIdx.

Definition organizeItems (k : t) : option t :=
  each_column organizeColumnItems k.

(** [k.columns[colIdx].tasks = append(k.columns[colIdx].tasks, i)] *)
Definition append_task (cols : Columns) (colIdx i : Z) : option Columns :=
  col ← get_col cols colIdx;
  set_col cols colIdx
    (mkCol (status col) (col_tasks col ++ [i]) (items col) (cursor col)).

(** [k.columns[i].tasks = []int{}] *)
Definition reset_column (col : KanbanColumn) : option KanbanColumn :=
  Some (mkCol (status col) [] (items col) (cursor col)).

(** One turn of the distribution loop of [organizeTasks]. *)
Definition distribute_step (cols : Columns) (it : Z * model.Task)
  : option Columns :=
  let '(i, task) := it in
  let colIdx := model.Status_Index (model.Status_ task) in
  if (0 <=? colIdx) && (colIdx <? 4)
  then append_task cols colIdx i
  else Some cols.

Definition organizeTasks (k : t) : option t :=
  k ← each_column (on_column reset_column) k;
  cols ← range_loop distribute_step (columns k) (indexed (tasks k));
  Some (set_columns k cols).

Definition SetTasks (k : t) (tasks : list model.Task) : option t :=
  let k := set_tasks k tasks in
  k ← organizeTasks k;
  k ← organizeItems k;
  adjustCursors k.

Definition SetGroupBy (k : t) (g : model.GroupBy) : option t :=
  let k := set_groupBy k g in
  k ← organizeItems k;
  adjustCursors k.

Definition CycleGroupBy (k : t) : option t :=
  let k := set_groupBy k (model.GroupBy_Next (groupBy k)) in
  k ← organizeItems k;
  adjustCursors k.

(** The task indices the items of a view refer to, in display order. *)
Definition task_refs (its : list KanbanItem) : list Z :=
  taskIndex <$> filter (λ it, isHeader it = false) its.

(** [col] with its task list replaced. *)
Definition with_col_tasks (col : KanbanColumn) (ts : list Z)
  : KanbanColumn :=
  mkCol (status col) ts (items col) (cursor col).

(** No column cursor is negative. *)
Definition cursors_nonneg (k : t) : Prop :=
  ∀ c col, get_col (columns k) c = Some col → 0 ≤ cursor col.

(** The indices of the tasks whose [Status.Index()] is [c], in
    collection order. *)
Definition column_indices (tasks : list model.Task) (c : Z) : list Z :=
  (filter (λ it : Z * model.Task,
             model.Status_Index (model.Status_ it.2) = c)
          (indexed tasks)).*1.

Definition MoveUp (k : t) : option t :=
  on_column
    (λ col, c ← Cursor.move_up isHeader (items col) (cursor col);
            Some (mkCol (status col) (col_tasks col) (items col) c))
    k (activeCol k).

Definition MoveDown (k : t) : option t :=
  on_column
    (λ col, c ← Cursor.move_down isHeader (items col) (cursor col);
            Some (mkCol (status col) (col_tasks col) (items col) c))
    k (activeCol k).

Definition MoveLeft (k : t) : t :=
  if 0 <? activeCol k then set_activeCol k (activeCol k - 1) else k.

Definition MoveRight (k : t) : t :=
  if activeCol k <? 3 then set_activeCol k (activeCol k + 1) else k.

(** [SelectedTask]: [Some None] is [nil]; [Some (Some (i, task))] is the
    pointer [&k.tasks[i]] with the task it points to; [None] is a
    panic. *)
Definition SelectedTask (k : t) : option (option (Z * model.Task)) :=
  col ← get_col (columns k) (activeCol k);
  if len (items col) =? 0 then Some None
  else if (0 <=? cursor col) && (cursor col <? len (items col)) then
    match at_index (items col) (cursor col) with
    | Some item =>
        if isHeader item then Some None
        else task ← at_index (tasks k) (taskIndex item);
             Some (Some (taskIndex item, task))
    | None => Some None
    end
  else Some None.

Definition SelectedIndex (k : t) : option Z :=
  col ← get_col (columns k) (activeCol k);
  if len (items col) =? 0 then Some (-1)
  else if (0 <=? cursor col) && (cursor col <? len (items col)) then
    match at_index (items col) (cursor col) with
    | Some item => Some (if isHeader item then -1 else taskIndex item)
    | None => Some (-1)
    end
  else Some (-1).

(** [task.Status = newStatus] through the pointer [task = &k.tasks[i]]:
    the element of the shared task slice is overwritten in place. *)
Definition write_status (k : t) (i : Z) (task : model.Task)
    (newStatus : model.Status) : option (t * model.Task) :=
  let task := model.with_Status task newStatus in
  ts ← set_index (tasks k) i task;
  Some (set_tasks k ts, task).

(** [MoveTaskLeft]: the view after the call, and the returned pointer
    ([None] inside is [nil]) with the task it points to. *)
Definition MoveTaskLeft (k : t) : option (t * option model.Task) :=
  if activeCol k =? 0 then Some (k, None)
  else
    sel ← SelectedTask k;
    match sel with
    | None => Some (k, None)
    | Some (i, task) =>
        let newStatus := model.StatusFromIndex (activeCol k - 1) in
        '(k, task) ← write_status k i task newStatus;
        Some (k, Some task)
    end.

Definition MoveTaskRight (k : t) : option (t * option model.Task) :=
  if activeCol k >=? 3 then Some (k, None)
  else
    sel ← SelectedTask k;
    match sel with
    | None => Some (k, None)
    | Some (i, task) =>
        let newStatus := model.StatusFromIndex (activeCol k + 1) in
        '(k, task) ← write_status k i task newStatus;
        Some (k, Some task)
    end.

(** [renderColumn]: [visibleItems := (k.height - 6) / 3], at least 1. *)
Definition visibleItems (k : t) : Z :=
  let visibleItems := (height k - 6) ÷ 3 in
  if visibleItems <? 1 then 1 else visibleItems.

(** The item indices [renderColumn] draws for a column. *)
Definition rendered_rows (k : t) (col : KanbanColumn) : list Z :=
  Scroll.rows (len (items col)) (cursor col) (visibleItems k).

(** The state the operations of the view leave in a column: the cursor
    is on a Task-Reference item, or at 0 when the column has no item; the
    Task-Reference items refer to tasks of the column. *)
Definition column_reachable (col : KanbanColumn) : Prop :=
  (col_on_task col ∨ (items col = [] ∧ cursor col = 0)) ∧
  ∀ idx, idx ∈ task_refs (items col) → idx ∈ col_tasks col.

(** The state the operations of the view leave: the active column is
    one of the four, the column task lists hold indices of [k.tasks], and
    every column is as above. *)
Definition reachable (k : t) : Prop :=
  0 ≤ activeCol k < 4 ∧
  ∀ c col, get_col (columns k) c = Some col →
    Forall (λ idx, is_Some (at_index (tasks k) idx)) (col_tasks col) ∧
    column_reachable col.

(** [SetSize]; Go's [/] truncates toward zero. *)
Definition SetSize (k : t) (w h : Z) : t :=
  let columnWidth := (w - 12) ÷ 4 in
  mk (tasks k) (columns k) (activeCol k) w h
     (if columnWidth <? 20 then 20 else columnWidth) (groupBy k).

Definition SetActiveColumn (k : t) (col : Z) : t :=
  if (0 <=? col) && (col <? 4) then set_activeCol k col else k.

Definition ActiveColumn (k : t) : Z := activeCol k.

End KanbanView.

(** ** The Bubble Tea interface: messages, commands, text inputs *)

Module tea.

(** The messages [App.Update] receives.  A [KeyMsg] is given by its
    [String()]. *)
Inductive Msg :=
| WindowSizeMsg (Width Height : Z)
| errMsg (error : gostring)
| tasksLoadedMsg (tasks : list model.Task)
| tasksSavedMsg
| editorClosedMsg (err : option gostring)
| KeyMsg (key : string)
| otherMsg (tag : nat).

(** The commands the application hands to the runtime: the closures of
    [loadTasks], [addTask], [updateTask], [deleteSelectedTask],
    [openEditor], [tea.Quit], and the commands of the text inputs. *)
Inductive Cmd :=
| loadTasks
| addTask (task : model.Task)
| updateTask (task : model.Task)
| deleteTask (id : gostring)
| openEditor
| Quit
| inputCmd (tag : nat).

End tea.

Module textinput.

(** [textinput.Model], as far as the application reads it. *)
Record Model := mk {
  value : gostring;
  focus : bool;
}.

Definition Value (m : Model) : gostring := value m.
Definition Focus (m : Model) : Model := mk (value m) true.
Definition Blur (m : Model) : Model := mk (value m) false.

End textinput.

Module keys.

(** [key.Matches(msg, binding)] for the bindings of [DefaultKeyMap]. *)
Definition Matches (msg : string) (binding : list string) : bool :=
  existsb (String.eqb msg) binding.

Definition Up := ["k"; "up"]%string.
Definition Down := ["j"; "down"]%string.
Definition Left := ["h"; "left"]%string.
Definition Right := ["l"; "right"]%string.
Definition Add := ["a"]%string.
Definition Edit := ["e"]%string.
Definition Delete := ["d"; "delete"]%string.
Definition Enter := ["enter"]%string.
Definition Priority := ["p"]%string.
Definition Tag := ["t"]%string.
Definition MoveLeft := ["H"; "shift+left"]%string.
Definition MoveRight := ["L"; "shift+right"]%string.
Definition StatusTodo := ["1"]%string.
Definition StatusInProgress := ["2"]%string.
Definition StatusBlocked := ["3"]%string.
Definition StatusDone := ["4"]%string.
Definition ToggleView := ["tab"]%string.
Definition Search := ["/"]%string.
Definition OpenEditor := ["o"]%string.
Definition Help := ["?"]%string.
Definition Refresh := ["r"]%string.
Definition Quit := ["q"; "ctrl+c"]%string.

End keys.

(** ** package ui: the task form *)

Module TaskForm.

Inductive FormField :=
| FieldTitle | FieldDescription | FieldTags | FieldPriority | FieldStatus
| FieldSubmit | FieldCancel.

#[global] Instance FormField_eq_dec : EqDecision FormField.
Proof. solve_decision. Defined.

(** [f.task] points at the task being edited; nothing writes through
    that pointer while the form is open, so the form holds the pointee. *)
Record t := mk {
  task : option model.Task;
  isNew : bool;
  focusedField : FormField;
  titleInput : textinput.Model;
  descInput : textinput.Model;
  tagsInput : textinput.Model;
  priorityIdx : Z;
  statusIdx : Z;
  width : Z;
  height : Z;
}.

Definition NewTaskForm : t :=
  mk None false FieldTitle (textinput.mk [] true) (textinput.mk [] false)
     (textinput.mk [] false) 1 0 0 0.

(** [for i, x := range xs { if x == y { idx = i; break } }] *)
Fixpoint index_of (xs : list gostring) (y : gostring) (i : Z) (idx : Z) : Z :=
  match xs with
  | [] => idx
  | x :: xs' => if decide (x = y) then i else index_of xs' y (i + 1) idx
  end.

Section form.
Context (textinput_SetValue : gostring → textinput.Model → textinput.Model).
(** [textinput.Model.Update]: the new input and the tag of the command,
    if any, the input asks the runtime to run. *)
Context (textinput_Update :
           tea.Msg → textinput.Model → textinput.Model * option nat).

Definition SetTask (f : t) (edited : option model.Task) : t :=
  let f :=
    match edited with
    | None =>
        mk None true (focusedField f)
           (textinput_SetValue [] (titleInput f))
           (textinput_SetValue [] (descInput f))
           (textinput_SetValue [] (tagsInput f))
           1 0 (width f) (height f)
    | Some e =>
        mk (Some e) false (focusedField f)
           (textinput_SetValue (model.Title e) (titleInput f))
           (textinput_SetValue (model.Description e) (descInput f))
           (textinput_SetValue (strings.Join (model.Tags e) (str ", "))
                               (tagsInput f))
           (index_of model.AllPriorities (model.Priority_ e) 0
                     (priorityIdx f))
           (index_of model.AllStatuses (model.Status_ e) 0 (statusIdx f))
           (width f) (height f)
    end in
  mk (task f) (isNew f) FieldTitle
     (textinput.Focus (titleInput f)) (textinput.Blur (descInput f))
     (textinput.Blur (tagsInput f))
     (priorityIdx f) (statusIdx f) (width f) (height f).

Definition SetSize (f : t) (w h : Z) : t :=
  mk (task f) (isNew f) (focusedField f) (titleInput f) (descInput f)
     (tagsInput f) (priorityIdx f) (statusIdx f) w h.

(** [f.focusedField++] with the wrap past [FieldCancel]. *)
Definition next_field (x : FormField) : FormField :=
  match x with
  | FieldTitle => FieldDescription
  | FieldDescription => FieldTags
  | FieldTags => FieldPriority
  | FieldPriority => FieldStatus
  | FieldStatus => FieldSubmit
  | FieldSubmit => FieldCancel
  | FieldCancel => FieldTitle
  end.

Definition prev_field (x : FormField) : FormField :=
  match x with
  | FieldTitle => FieldCancel
  | FieldDescription => FieldTitle
  | FieldTags => FieldDescription
  | FieldPriority => FieldTags
  | FieldStatus => FieldPriority
  | FieldSubmit => FieldStatus
  | FieldCancel => FieldSubmit
  end.

(** Blur the three inputs, move the focus to [x], focus its input. *)
Definition focus_on (f : t) (x : FormField) : t :=
  let focus_if (y : FormField) (m : textinput.Model) :=
    if decide (x = y) then textinput.Focus (textinput.Blur m)
    else textinput.Blur m in
  mk (task f) (isNew f) x
     (focus_if FieldTitle (titleInput f))
     (focus_if FieldDescription (descInput f))
     (focus_if FieldTags (tagsInput f))
     (priorityIdx f) (statusIdx f) (width f) (height f).

Definition nextField (f : t) : t := focus_on f (next_field (focusedField f)).
Definition prevField (f : t) : t := focus_on f (prev_field (focusedField f)).

Definition set_priorityIdx (f : t) (i : Z) : t :=
  mk (task f) (isNew f) (focusedField f) (titleInput f) (descInput f)
     (tagsInput f) i (statusIdx f) (width f) (height f).
Definition set_statusIdx (f : t) (i : Z) : t :=
  mk (task f) (isNew f) (focusedField f) (titleInput f) (descInput f)
     (tagsInput f) (priorityIdx f) i (width f) (height f).

Definition Update (f : t) (msg : tea.Msg) : t * option tea.Cmd :=
  let text_inputs :=
    match focusedField f with
    | FieldTitle =>
        let '(m, cmd) := textinput_Update msg (titleInput f) in
        (mk (task f) (isNew f) (focusedField f) m (descInput f)
            (tagsInput f) (priorityIdx f) (statusIdx f) (width f)
            (height f), tea.inputCmd <$> cmd)
    | FieldDescription =>
        let '(m, cmd) := textinput_Update msg (descInput f) in
        (mk (task f) (isNew f) (focusedField f) (titleInput f) m
            (tagsInput f) (priorityIdx f) (statusIdx f) (width f)
            (height f), tea.inputCmd <$> cmd)
    | FieldTags =>
        let '(m, cmd) := textinput_Update msg (tagsInput f) in
        (mk (task f) (isNew f) (focusedField f) (titleInput f)
            (descInput f) m (priorityIdx f) (statusIdx f) (width f)
            (height f), tea.inputCmd <$> cmd)
    | _ => (f, None)
    end in
  match msg with
  | tea.KeyMsg key =>
      if String.eqb key "tab" || String.eqb key "down" then
        (nextField f, None)
      else if String.eqb key "shift+tab" || String.eqb key "up" then
        (prevField f, None)
      else if String.eqb key "left" then
        (if decide (focusedField f = FieldPriority) then
           if 0 <? priorityIdx f
           then set_priorityIdx f (priorityIdx f - 1) else f
         else if decide (focusedField f = FieldStatus) then
           if 0 <? statusIdx f
           then set_statusIdx f (statusIdx f - 1) else f
         else f, None)
      else if String.eqb key "right" then
        (if decide (focusedField f = FieldPriority) then
           if priorityIdx f <? len model.AllPriorities - 1
           then set_priorityIdx f (priorityIdx f + 1) else f
         else if decide (focusedField f = FieldStatus) then
           if statusIdx f <? len model.AllStatuses - 1
           then set_statusIdx f (statusIdx f + 1) else f
         else f, None)
      else text_inputs
  | _ => text_inputs
  end.

End form.

(** The tag loop of [GetTask]:
    [for _, t := range tags { t = strings.TrimSpace(t); if t != "" { task.Tags = append(task.Tags, t) } }] *)
Definition parse_tags (tagStr : gostring) : list gostring :=
  if decide (tagStr = []) then []
  else
    foldl (λ tags t,
             let t := strings.TrimSpace t in
             if decide (t = []) then tags else tags ++ [t])
          [] (strings.Split tagStr 44).

(** [GetTask]; the UUID and the clock reading [model.NewTask] draws are
    inputs.  [None] is the panic of a selector index outside 0..3. *)
Definition GetTask (uuid : gostring) (now : model.Time) (f : t)
  : option model.Task :=
  let task :=
    match task f with
    | Some task => task
    | None => model.NewTask uuid now (textinput.Value (titleInput f))
    end in
  priority ← at_index model.AllPriorities (priorityIdx f);
  status ← at_index model.AllStatuses (statusIdx f);
  Some (model.mkTask (model.ID task)
          (textinput.Value (titleInput f))
          (textinput.Value (descInput f))
          priority status
          (parse_tags (textinput.Value (tagsInput f)))
          (model.CreatedAt task) (model.UpdatedAt task)).

Definition IsValid (f : t) : bool :=
  bool_decide (strings.TrimSpace (textinput.Value (titleInput f)) ≠ []).

Definition IsFocusedOnSubmit (f : t) : bool :=
  bool_decide (focusedField f = FieldSubmit).

Definition IsFocusedOnCancel (f : t) : bool :=
  bool_decide (focusedField f = FieldCancel).

(** The two selectors point into their lists. *)
Definition selectors_in_range (f : t) : Prop :=
  0 ≤ priorityIdx f < 4 ∧ 0 ≤ statusIdx f < 4.

(** Exactly the text input of the focused field has the focus. *)
Definition focus_consistent (f : t) : Prop :=
  textinput.focus (titleInput f) = bool_decide (focusedField f = FieldTitle) ∧
  textinput.focus (descInput f)
    = bool_decide (focusedField f = FieldDescription) ∧
  textinput.focus (tagsInput f) = bool_decide (focusedField f = FieldTags).

End TaskForm.

(** ** package storage

    The YAML file is seen through what [Load] makes of it; marshalling is
    taken to be the identity on the task records. *)

Module Storage.

Inductive File :=
| NotExist
| ReadError (e : gostring)
| Malformed (e : gostring)
| Document (tasks : list model.Task).

Inductive Result (A : Type) :=
| Ok (a : A)
| Err (e : gostring).
Arguments Ok {A} a.
Arguments Err {A} e.

Definition Load (file : File) : Result (list model.Task) :=
  match file with
  | NotExist => Ok []
  | ReadError e => Err e
  | Malformed e => Err e
  | Document tasks => Ok tasks
  end.

(** [Save]; [os_error] is the error, if any, with which the operating
    system refuses the write. *)
Definition Save (os_error : option gostring) (tasks : list model.Task)
    (file : File) : option gostring * File :=
  match os_error with
  | Some e => (Some e, file)
  | None => (None, Document tasks)
  end.

Definition AddTask (os_error : option gostring) (task : model.Task)
    (file : File) : Result (list model.Task) * File :=
  match Load file with
  | Err e => (Err e, file)
  | Ok tasks =>
      let tasks := tasks ++ [task] in
      match Save os_error tasks file with
      | (Some e, file) => (Err e, file)
      | (None, file) => (Ok tasks, file)
      end
  end.

(** [for i, t := range tasks { if t.ID == task.ID { tasks[i] = task; break } }] *)
Fixpoint replace_first (tasks : list model.Task) (task : model.Task)
  : list model.Task :=
  match tasks with
  | [] => []
  | t :: tasks' =>
      if decide (model.ID t = model.ID task) then task :: tasks'
      else t :: replace_first tasks' task
  end.

(** [UpdateTask]; [now] is the reading of [time.Now()]. *)
Definition UpdateTask (now : model.Time) (os_error : option gostring)
    (task : model.Task) (file : File)
  : Result (list model.Task) * File :=
  match Load file with
  | Err e => (Err e, file)
  | Ok tasks =>
      let task := model.with_UpdatedAt task now in
      let tasks := replace_first tasks task in
      match Save os_error tasks file with
      | (Some e, file) => (Err e, file)
      | (None, file) => (Ok tasks, file)
      end
  end.

Definition DeleteTask (os_error : option gostring) (id : gostring)
    (file : File) : Result (list model.Task) * File :=
  match Load file with
  | Err e => (Err e, file)
  | Ok tasks =>
      let newTasks :=
        foldl (λ newTasks t,
                 if decide (model.ID t ≠ id) then newTasks ++ [t]
                 else newTasks)
              [] tasks in
      match Save os_error newTasks file with
      | (Some e, file) => (Err e, file)
      | (None, file) => (Ok newTasks, file)
      end
  end.

End Storage.

(** ** package ui: the application state machine

    Rendering, styles, the help panel and the message clock are left
    out.  [a.tasks], [a.listView.tasks] and [a.kanbanView.tasks] are one
    slice in Go: a write through a pointer into it is made in all three
    fields. *)

Module App.

Inductive ViewMode := ViewList | ViewKanban.

Inductive AppState :=
| StateNormal | StateForm | StateHelp | StateSearch | StateConfirmDelete
| StateTagInput.

#[global] Instance ViewMode_eq_dec : EqDecision ViewMode.
Proof. solve_decision. Defined.
#[global] Instance AppState_eq_dec : EqDecision AppState.
Proof. solve_decision. Defined.

Record t := mk {
  tasks : list model.Task;
  viewMode : ViewMode;
  state : AppState;
  listView : ListView.t;
  kanbanView : KanbanView.t;
  taskForm : TaskForm.t;
  searchInput : textinput.Model;
  tagInput : textinput.Model;
  width : Z;
  height : Z;
  err : option gostring;
  message : gostring;
}.

Definition NewApp : t :=
  mk [] ViewList StateNormal ListView.NewListView KanbanView.NewKanbanView
     TaskForm.NewTaskForm (textinput.mk [] false) (textinput.mk [] false)
     0 0 None [].

Definition set_state (a : t) (s : AppState) : t :=
  mk (tasks a) (viewMode a) s (listView a) (kanbanView a) (taskForm a)
     (searchInput a) (tagInput a) (width a) (height a) (err a) (message a).
Definition set_viewMode (a : t) (v : ViewMode) : t :=
  mk (tasks a) v (state a) (listView a) (kanbanView a) (taskForm a)
     (searchInput a) (tagInput a) (width a) (height a) (err a) (message a).
Definition set_listView (a : t) (l : ListView.t) : t :=
  mk (tasks a) (viewMode a) (state a) l (kanbanView a) (taskForm a)
     (searchInput a) (tagInput a) (width a) (height a) (err a) (message a).
Definition set_kanbanView (a : t) (k : KanbanView.t) : t :=
  mk (tasks a) (viewMode a) (state a) (listView a) k (taskForm a)
     (searchInput a) (tagInput a) (width a) (height a) (err a) (message a).
Definition set_taskForm (a : t) (f : TaskForm.t) : t :=
  mk (tasks a) (viewMode a) (state a) (listView a) (kanbanView a) f
     (searchInput a) (tagInput a) (width a) (height a) (err a) (message a).
Definition set_searchInput (a : t) (m : textinput.Model) : t :=
  mk (tasks a) (viewMode a) (state a) (listView a) (kanbanView a)
     (taskForm a) m (tagInput a) (width a) (height a) (err a) (message a).
Definition set_tagInput (a : t) (m : textinput.Model) : t :=
  mk (tasks a) (viewMode a) (state a) (listView a) (kanbanView a)
     (taskForm a) (searchInput a) m (width a) (height a) (err a) (message a).
Definition set_tasks (a : t) (ts : list model.Task) : t :=
  mk ts (viewMode a) (state a) (listView a) (kanbanView a) (taskForm a)
     (searchInput a) (tagInput a) (width a) (height a) (err a) (message a).
Definition set_err (a : t) (e : option gostring) : t :=
  mk (tasks a) (viewMode a) (state a) (listView a) (kanbanView a)
     (taskForm a) (searchInput a) (tagInput a) (width a) (height a) e
     (message a).

(** [setMessage] *)
Definition setMessage (a : t) (msg : gostring) : t :=
  mk (tasks a) (viewMode a) (state a) (listView a) (kanbanView a)
     (taskForm a) (searchInput a) (tagInput a) (width a) (height a) (err a)
     msg.

(** The three fields that hold the shared task slice. *)
Definition share_tasks (a : t) (ts : list model.Task) : t :=
  mk ts (viewMode a) (state a) (ListView.set_tasks (listView a) ts)
     (KanbanView.set_tasks (kanbanView a) ts) (taskForm a) (searchInput a)
     (tagInput a) (width a) (height a) (err a) (message a).

Definition selectedTask (a : t) : option (option (Z * model.Task)) :=
  if decide (viewMode a = ViewList)
  then ListView.SelectedTask (listView a)
  else KanbanView.SelectedTask (kanbanView a).

(** [*task = task'] for the pointer [task = &tasks[i]] that
    [selectedTask] returned. *)
Definition write_task (a : t) (i : Z) (task' : model.Task) : option t :=
  ts ← set_index
         (if decide (viewMode a = ViewList)
          then ListView.tasks (listView a)
          else KanbanView.tasks (kanbanView a))
         i task';
  Some (share_tasks a ts).

Definition moveUp (a : t) : option t :=
  if decide (viewMode a = ViewList)
  then l ← ListView.MoveUp (listView a); Some (set_listView a l)
  else k ← KanbanView.MoveUp (kanbanView a); Some (set_kanbanView a k).

Definition moveDown (a : t) : option t :=
  if decide (viewMode a = ViewList)
  then l ← ListView.MoveDown (listView a); Some (set_listView a l)
  else k ← KanbanView.MoveDown (kanbanView a); Some (set_kanbanView a k).

Definition updateSizes (a : t) : t :=
  let contentHeight := height a - 4 in
  let a := set_listView a
             (ListView.SetSize (listView a) (width a) contentHeight) in
  let a := set_kanbanView a
             (KanbanView.SetSize (kanbanView a) (width a) contentHeight) in
  set_taskForm a (TaskForm.SetSize (taskForm a) (width a) (height a)).

(** The application and both views hold the same task slice. *)
Definition synced (a : t) : Prop :=
  ListView.tasks (listView a) = tasks a ∧
  KanbanView.tasks (kanbanView a) = tasks a.

(** The state the messages leave the application in: one task slice,
    both views in a state their operations leave, the selectors of the
    form inside their lists. *)
Definition reachable (a : t) : Prop :=
  synced a ∧ ListView.reachable (listView a) ∧
  KanbanView.reachable (kanbanView a) ∧
  TaskForm.selectors_in_range (taskForm a).

Section handlers.
Context (unicode_ToLower : rune → rune).
Context (textinput_SetValue : gostring → textinput.Model → textinput.Model).
(** [textinput.Model.Update]: the new input and the tag of the command,
    if any, the input asks the runtime to run. *)
Context (textinput_Update :
           tea.Msg → textinput.Model → textinput.Model * option nat).
(** What [uuid.New()] and [time.Now()] return during the call. *)
Context (uuid : gostring) (now : model.Time).

Definition refreshViews (a : t) : option t :=
  l ← ListView.SetTasks unicode_ToLower (listView a) (tasks a);
  let a := set_listView a l in
  k ← KanbanView.SetTasks (kanbanView a) (tasks a);
  Some (set_kanbanView a k).

(** [setTaskStatus] *)
Definition setTaskStatus (a : t) (status : model.Status)
  : option (t * option tea.Cmd) :=
  sel ← selectedTask a;
  match sel with
  | None => Some (a, None)
  | Some (i, task) =>
      let task := model.with_Status task status in
      a ← write_task a i task;
      Some (a, Some (tea.updateTask task))
  end.

(** [deleteSelectedTask] *)
Definition deleteSelectedTask (a : t) : option (option tea.Cmd) :=
  sel ← selectedTask a;
  match sel with
  | None => Some None
  | Some (_, task) => Some (Some (tea.deleteTask (model.ID task)))
  end.

Definition handleNormalKeys (a : t) (key : string)
  : option (t * option tea.Cmd) :=
  if keys.Matches key keys.Up then
    a ← moveUp a; Some (a, None)
  else if keys.Matches key keys.Down then
    a ← moveDown a; Some (a, None)
  else if keys.Matches key keys.Left then
    Some (if decide (viewMode a = ViewKanban)
          then set_kanbanView a (KanbanView.MoveLeft (kanbanView a))
          else a, None)
  else if keys.Matches key keys.Right then
    Some (if decide (viewMode a = ViewKanban)
          then set_kanbanView a (KanbanView.MoveRight (kanbanView a))
          else a, None)
  else if keys.Matches key keys.MoveLeft then
    if decide (viewMode a = ViewKanban) then
      '(k, moved) ← KanbanView.MoveTaskLeft (kanbanView a);
      match moved with
      | Some task =>
          Some (share_tasks (set_kanbanView a k) (KanbanView.tasks k),
                Some (tea.updateTask task))
      | None => Some (a, None)
      end
    else Some (a, None)
  else if keys.Matches key keys.MoveRight then
    if decide (viewMode a = ViewKanban) then
      '(k, moved) ← KanbanView.MoveTaskRight (kanbanView a);
      match moved with
      | Some task =>
          Some (share_tasks (set_kanbanView a k) (KanbanView.tasks k),
                Some (tea.updateTask task))
      | None => Some (a, None)
      end
    else Some (a, None)
  else if keys.Matches key keys.Add then
    let f := TaskForm.SetTask textinput_SetValue (taskForm a) None in
    let f := TaskForm.SetSize f (width a) (height a) in
    Some (set_state (set_taskForm a f) StateForm, None)
  else if keys.Matches key keys.Edit || keys.Matches key keys.Enter then
    sel ← selectedTask a;
    match sel with
    | Some (_, task) =>
        let f := TaskForm.SetTask textinput_SetValue (taskForm a)
                                  (Some task) in
        let f := TaskForm.SetSize f (width a) (height a) in
        Some (set_state (set_taskForm a f) StateForm, None)
    | None => Some (a, None)
    end
  else if keys.Matches key keys.Delete then
    sel ← selectedTask a;
    match sel with
    | Some _ => Some (set_state a StateConfirmDelete, None)
    | None => Some (a, None)
    end
  else if keys.Matches key keys.Priority then
    sel ← selectedTask a;
    match sel with
    | Some (i, task) =>
        let task :=
          model.with_Priority task
            (model.Priority_Next (model.Priority_ task)) in
        a ← write_task a i task;
        Some (a, Some (tea.updateTask task))
    | None => Some (a, None)
    end
  else if keys.Matches key keys.Tag then
    sel ← selectedTask a;
    match sel with
    | Some _ =>
        let m := textinput.Focus (textinput_SetValue [] (tagInput a)) in
        Some (set_state (set_tagInput a m) StateTagInput, None)
    | None => Some (a, None)
    end
  else if keys.Matches key keys.StatusTodo then
    setTaskStatus a model.StatusTodo
  else if keys.Matches key keys.StatusInProgress then
    setTaskStatus a model.StatusInProgress
  else if keys.Matches key keys.StatusBlocked then
    setTaskStatus a model.StatusBlocked
  else if keys.Matches key keys.StatusDone then
    setTaskStatus a model.StatusDone
  else if keys.Matches key keys.ToggleView then
    if decide (viewMode a = ViewList) then
      let a := set_viewMode a ViewKanban in
      sel ← ListView.SelectedTask (listView a);
      match sel with
      | Some (_, task) =>
          Some (set_kanbanView a
                  (KanbanView.SetActiveColumn (kanbanView a)
                     (model.Status_Index (model.Status_ task))), None)
      | None => Some (a, None)
      end
    else Some (set_viewMode a ViewList, None)
  else if keys.Matches key keys.Search then
    let m := textinput.Focus (textinput_SetValue [] (searchInput a)) in
    Some (set_state (set_searchInput a m) StateSearch, None)
  else if keys.Matches key keys.Help then
    Some (set_state a StateHelp, None)
  else if keys.Matches key keys.Refresh then
    Some (a, Some tea.loadTasks)
  else if keys.Matches key keys.OpenEditor then
    Some (a, Some tea.openEditor)
  else Some (a, None).

Definition handleFormKeys (a : t) (key : string)
  : option (t * option tea.Cmd) :=
  let to_form :=
    let '(f, cmd) :=
      TaskForm.Update textinput_Update (taskForm a) (tea.KeyMsg key) in
    Some (set_taskForm a f, cmd) in
  if String.eqb key "esc" then Some (set_state a StateNormal, None)
  else if String.eqb key "enter" then
    if TaskForm.IsFocusedOnSubmit (taskForm a) then
      if TaskForm.IsValid (taskForm a) then
        task ← TaskForm.GetTask uuid now (taskForm a);
        let a := set_state a StateNormal in
        if TaskForm.isNew (taskForm a)
        then Some (a, Some (tea.addTask task))
        else Some (a, Some (tea.updateTask task))
      else to_form
    else if TaskForm.IsFocusedOnCancel (taskForm a) then
      Some (set_state a StateNormal, None)
    else to_form
  else to_form.

Definition handleHelpKeys (a : t) (key : string)
  : option (t * option tea.Cmd) :=
  if keys.Matches key keys.Help || String.eqb key "esc"
     || String.eqb key "q"
  then Some (set_state a StateNormal, None)
  else Some (a, None).

Definition handleSearchKeys (a : t) (key : string)
  : option (t * option tea.Cmd) :=
  if String.eqb key "esc" then
    let a := set_searchInput a (textinput_SetValue [] (searchInput a)) in
    l ← ListView.SetFilter unicode_ToLower (listView a) [];
    Some (set_state (set_listView a l) StateNormal, None)
  else if String.eqb key "enter" then
    Some (set_state a StateNormal, None)
  else
    let '(m, cmd) := textinput_Update (tea.KeyMsg key) (searchInput a) in
    let a := set_searchInput a m in
    l ← ListView.SetFilter unicode_ToLower (listView a)
          (textinput.Value (searchInput a));
    Some (set_listView a l, tea.inputCmd <$> cmd).

Definition handleDeleteConfirmKeys (a : t) (key : string)
  : option (t * option tea.Cmd) :=
  if String.eqb key "y" || String.eqb key "Y" then
    let a := set_state a StateNormal in
    cmd ← deleteSelectedTask a;
    Some (a, cmd)
  else if String.eqb key "n" || String.eqb key "N" || String.eqb key "esc"
  then Some (set_state a StateNormal, None)
  else Some (a, None).

(** The toggle of [handleTagInputKeys]: drop every occurrence of [tag];
    append it when there was none. *)
Definition toggle_tag (tags : list gostring) (tag : gostring)
  : list gostring :=
  let '(found, newTags) :=
    foldl (λ '(found, newTags) t,
             if decide (t = tag) then (true, newTags)
             else (found, newTags ++ [t]))
          (false, []) tags in
  if negb found then newTags ++ [tag] else newTags.

Definition handleTagInputKeys (a : t) (key : string)
  : option (t * option tea.Cmd) :=
  if String.eqb key "esc" then Some (set_state a StateNormal, None)
  else if String.eqb key "enter" then
    let tag := strings.TrimSpace (textinput.Value (tagInput a)) in
    if decide (tag ≠ []) then
      sel ← selectedTask a;
      match sel with
      | Some (i, task) =>
          let task :=
            model.with_Tags task (toggle_tag (model.Tags task) tag) in
          a ← write_task a i task;
          Some (set_state a StateNormal, Some (tea.updateTask task))
      | None => Some (set_state a StateNormal, None)
      end
    else Some (set_state a StateNormal, None)
  else
    let '(m, cmd) := textinput_Update (tea.KeyMsg key) (tagInput a) in
    Some (set_tagInput a m, tea.inputCmd <$> cmd).

Definition handleKeyPress (a : t) (key : string)
  : option (t * option tea.Cmd) :=
  if keys.Matches key keys.Quit && bool_decide (state a = StateNormal)
  then Some (a, Some tea.Quit)
  else
    match state a with
    | StateForm => handleFormKeys a key
    | StateHelp => handleHelpKeys a key
    | StateSearch => handleSearchKeys a key
    | StateConfirmDelete => handleDeleteConfirmKeys a key
    | StateTagInput => handleTagInputKeys a key
    | StateNormal => handleNormalKeys a key
    end.

Definition Update (a : t) (msg : tea.Msg) : option (t * option tea.Cmd) :=
  match msg with
  | tea.WindowSizeMsg w h =>
      let a := mk (tasks a) (viewMode a) (state a) (listView a)
                  (kanbanView a) (taskForm a) (searchInput a) (tagInput a)
                  w h (err a) (message a) in
      Some (updateSizes a, None)
  | tea.errMsg e =>
      Some (setMessage (set_err a (Some e)) (str "Erreur: " ++ e), None)
  | tea.tasksLoadedMsg ts =>
      a ← refreshViews (set_tasks a ts); Some (a, None)
  | tea.tasksSavedMsg =>
      Some (setMessage a
              (str "T" ++ [226] ++ str "ches sauvegard" ++ [233] ++ str "es"),
            None)
  | tea.editorClosedMsg e =>
      Some (match e with
            | Some _ =>
                setMessage a
                  (str "Erreur lors de l'ouverture de l'" ++ [233] ++
                   str "diteur")
            | None => a
            end, Some tea.loadTasks)
  | tea.KeyMsg key => handleKeyPress a key
  | tea.otherMsg _ =>
      match state a with
      | StateForm =>
          let '(f, cmd) :=
            TaskForm.Update textinput_Update (taskForm a) msg in
          Some (set_taskForm a f, cmd)
      | StateSearch =>
          let '(m, cmd) := textinput_Update msg (searchInput a) in
          let a := set_searchInput a m in
          l ← ListView.SetFilter unicode_ToLower (listView a)
                (textinput.Value (searchInput a));
          Some (set_listView a l, tea.inputCmd <$> cmd)
      | StateTagInput =>
          let '(m, cmd) := textinput_Update msg (tagInput a) in
          Some (set_tagInput a m, tea.inputCmd <$> cmd)
      | _ => Some (a, None)
      end
  end.

End handlers.

(** The task slice [selectedTask] points into. *)
Definition shown_tasks (a : t) : list model.Task :=
  if decide (viewMode a = ViewList)
  then ListView.tasks (listView a)
  else KanbanView.tasks (kanbanView a).

(** [task] is the selected task with some of its status, priority and
    tags replaced; [a'] is [a] in the normal state after [task] was
    written through the pointer [selectedTask] returned. *)
Definition amended (a a' : t) (task : model.Task) : Prop :=
  ∃ i old, selectedTask a = Some (Some (i, old)) ∧
    model.ID task = model.ID old ∧
    model.Title task = model.Title old ∧
    model.Description task = model.Description old ∧
    model.CreatedAt task = model.CreatedAt old ∧
    model.UpdatedAt task = model.UpdatedAt old ∧
    a' = share_tasks (set_state a StateNormal)
           (<[Z.to_nat i := task]> (shown_tasks a)).

(** [task] is what Enter on the Submit control of the valid form
    commits; [a'] is [a] back in the normal state. *)
Definition submitted (uuid : gostring) (now : model.Time) (a a' : t)
    (key : string) (task : model.Task) : Prop :=
  key = "enter"%string ∧
  TaskForm.IsFocusedOnSubmit (taskForm a) = true ∧
  TaskForm.IsValid (taskForm a) = true ∧
  TaskForm.GetTask uuid now (taskForm a) = Some task ∧
  a' = set_state a StateNormal.

(** The message a command produces when the runtime runs it, and the
    file it leaves: the closures of [loadTasks], [addTask], [updateTask],
    [deleteSelectedTask] and [openEditor].  [now] is the reading of
    [time.Now()], [os_error] the error, if any, with which the operating
    system refuses a write, [editor] what the editor process does to the
    file and the error it exits with.  [tea.Quit] and the commands of the
    text inputs belong to the runtime: [None]. *)
Definition run_cmd (now : model.Time) (os_error : option gostring)
    (editor : Storage.File → option gostring * Storage.File)
    (cmd : tea.Cmd) (file : Storage.File)
  : option (tea.Msg * Storage.File) :=
  let loaded (r : Storage.Result (list model.Task)) : tea.Msg :=
    match r with
    | Storage.Err e => tea.errMsg e
    | Storage.Ok tasks => tea.tasksLoadedMsg tasks
    end in
  match cmd with
  | tea.loadTasks => Some (loaded (Storage.Load file), file)
  | tea.addTask task =>
      let '(r, file) := Storage.AddTask os_error task file in
      Some (loaded r, file)
  | tea.updateTask task =>
      let '(r, file) := Storage.UpdateTask now os_error task file in
      Some (loaded r, file)
  | tea.deleteTask id =>
      let '(r, file) := Storage.DeleteTask os_error id file in
      Some (loaded r, file)
  | tea.openEditor =>
      let '(err, file) := editor file in
      Some (tea.editorClosedMsg err, file)
  | tea.Quit | tea.inputCmd _ => None
  end.

End App.

(** ** The kanban columns as the specification words them *)

(** The column contents in the words of the specification: the indices
    of the tasks whose status is the column's and that pass the filter, in
    collection order. *)
Definition spec_column_indices (unicode_ToLower : rune → rune)
    (filter : gostring) (tasks : list model.Task) (c : Z) : list Z :=
  (base.filter
     (λ it : Z * model.Task,
        model.Status_ it.2 = model.StatusFromIndex c ∧
        ListView.matchesFilter unicode_ToLower
          (ListView.set_filter ListView.NewListView
             (strings.ToLower unicode_ToLower filter)) it.2 = true)
     (indexed tasks)).*1.

(** ** Tags as the form stores them *)

(** The string is empty or starts with a rune that is no white space. *)
Definition head_nonspace (s : gostring) : Prop :=
  match s with
  | [] => True
  | c :: _ => strings.IsSpace c = false
  end.

(** A tag as the form stores it: not empty, without white space at
    either end, without a comma. *)
Definition form_tag (tag : gostring) : Prop :=
  tag ≠ [] ∧ strings.TrimSpace tag = tag ∧ 44 ∉ tag.

(** ** Sample data, on which the definitions are run *)

Module Sample.

Definition task (id title : string) (status priority : gostring)
    (tags : list gostring) : model.Task :=
  model.mkTask (str id) (str title) [] priority status tags 0 0.

(** A task whose status is none of the four known ones, as a hand-edited
    YAML file can hold. *)
Definition archived : model.Task :=
  task "t1" "report" (str "archived") model.PriorityMedium [].

Definition three_tasks : list model.Task :=
  [task "a" "write" model.StatusTodo model.PriorityLow [str "doc"];
   task "b" "review" model.StatusTodo model.PriorityHigh [];
   task "c" "ship" model.StatusDone model.PriorityLow [str "doc"]].

(** A text input that stores what it is given and ignores messages. *)
Definition SetValue (v : gostring) (m : textinput.Model)
  : textinput.Model := textinput.mk v (textinput.focus m).
Definition Update (_ : tea.Msg) (m : textinput.Model)
  : textinput.Model * option nat := (m, None).

(** The create form with the given title and tags field, focus on the
    Submit control. *)
Definition form (title tags : string) : TaskForm.t :=
  TaskForm.mk None true TaskForm.FieldSubmit
    (textinput.mk (str title) false) (textinput.mk [] false)
    (textinput.mk (str tags) false) 1 0 80 24.

(** The application showing that form. *)
Definition app_with_form (title tags : string) : App.t :=
  App.set_taskForm (App.set_state App.NewApp App.StateForm)
                   (form title tags).

(** The application after it has loaded [three_tasks]. *)
Definition loaded : App.t :=
  default App.NewApp
    (App.refreshViews ascii_ToLower
       (App.set_tasks App.NewApp three_tasks)).

(** An edit of task "b" of [three_tasks]. *)
Definition edited : model.Task :=
  task "b" "review twice" model.StatusDone model.PriorityHigh [].

(** The three tasks and one of unknown status. *)
Definition mixed_tasks : list model.Task := three_tasks ++ [archived].

(** [Header, Task, Header, Task, Header]: a list view resting on the
    first task. *)
Definition striped : ListView.t :=
  ListView.mk three_tasks 1 0 0 [] [0; 2] model.GroupByTag
    [ListView.Header (str "x (1)"); ListView.TaskRef 0;
     ListView.Header (str "y (1)"); ListView.TaskRef 2;
     ListView.Header (str "z (0)")].

(** A kanban board grouped by tag whose second column is active and
    shows [Header, Task, Task, Header], the cursor on the first task. *)
Definition board : KanbanView.t :=
  KanbanView.mk three_tasks
    (KanbanView.mkCols
       (KanbanView.mkCol model.StatusTodo [] [] 0)
       (KanbanView.mkCol model.StatusInProgress [0; 1]
          [KanbanView.Header (str "doc"); KanbanView.TaskRef 0;
           KanbanView.TaskRef 1; KanbanView.Header (str "Sans tag")]
          1)
       (KanbanView.mkCol model.StatusBlocked [] [] 0)
       (KanbanView.mkCol model.StatusDone [2] [KanbanView.TaskRef 2] 0))
    1 0 0 0 model.GroupByTag.

End Sample.

(** ** [itoa] *)

Section itoa_facts.

(** Any fuel not less than the number suffices. *)
Lemma itoa_loop_fuel n m i result :
  (Z.to_nat i ≤ n)%nat → (Z.to_nat i ≤ m)%nat →
  itoa_loop n i result = itoa_loop m i result.
Proof.
  revert m i result. induction n as [|n IH]; intros m i result Hn Hm.
  - destruct m; simpl; destruct (Z.ltb_spec 0 i); try done; lia.
  - simpl. destruct (Z.ltb_spec 0 i) as [Hi|Hi].
    + destruct m as [|m]; [lia |]. simpl.
      destruct (Z.ltb_spec 0 i); [|lia].
      assert (i ÷ 10 < i) by (apply Z.quot_lt; lia).
      assert (0 ≤ i ÷ 10) by (apply Z.quot_pos; lia).
      apply IH; lia.
    + destruct m; simpl; destruct (Z.ltb_spec 0 i); try done; lia.
Qed.

(** The unfolding equation of the digit loop of [itoa]. *)
Lemma itoa_loop_eq i result :
  itoa_loop (Z.to_nat i) i result =
  if 0 <? i
  then itoa_loop (Z.to_nat (i ÷ 10)) (i ÷ 10) ((48 + Z.rem i 10) :: result)
  else result.
Proof.
  destruct (Z.ltb_spec 0 i) as [Hi|Hi].
  - destruct (Z.to_nat i) as [|n] eqn:Hn; [lia |]. simpl.
    destruct (Z.ltb_spec 0 i); [|lia].
    assert (i ÷ 10 < i) by (apply Z.quot_lt; lia).
    assert (0 ≤ i ÷ 10) by (apply Z.quot_pos; lia).
    apply itoa_loop_fuel; lia.
  - destruct (Z.to_nat i); simpl; by destruct (Z.ltb_spec 0 i); try lia.
Qed.

Example itoa_0 : itoa 0 = str "0".
Proof. reflexivity. Qed.

Example itoa_2 : itoa 2 = str "2".
Proof. reflexivity. Qed.

Example itoa_120 : itoa 120 = str "120".
Proof. reflexivity. Qed.

End itoa_facts.
(** * Part II: theorems *)

(** ** Slices *)

Section slice_facts.
Context {A : Type}.
Implicit Types (s : list A) (i : Z).

Lemma len_nonneg s : 0 ≤ len s.
Proof. unfold len. lia. Qed.

Lemma len_nil : len (@nil A) = 0.
Proof. reflexivity. Qed.

Lemma len_app s1 s2 : len (s1 ++ s2) = len s1 + len s2.
Proof. unfold len. rewrite length_app. lia. Qed.

Lemma len_zero_nil s : len s = 0 → s = [].
Proof. unfold len. destruct s; [done | simpl; lia]. Qed.

Lemma at_index_Some s i x :
  at_index s i = Some x ↔ 0 ≤ i ∧ s !! Z.to_nat i = Some x.
Proof.
  unfold at_index. destruct (Z.ltb_spec i 0); split.
  - done.
  - intros [? _]. lia.
  - done.
  - by intros [_ ?].
Qed.

Lemma at_index_in_range s i x : at_index s i = Some x → 0 ≤ i < len s.
Proof.
  intros [Hi Hx]%at_index_Some. apply lookup_lt_Some in Hx.
  unfold len. lia.
Qed.

Lemma at_index_is_Some s i : 0 ≤ i < len s → is_Some (at_index s i).
Proof.
  intros [Hi Hlt]. unfold at_index, len in *.
  destruct (Z.ltb_spec i 0); [lia |].
  apply lookup_lt_is_Some. lia.
Qed.

Lemma at_index_elem_of s i x : at_index s i = Some x → x ∈ s.
Proof. intros [_ Hx]%at_index_Some. by eapply list_elem_of_lookup_2. Qed.

Lemma elem_of_at_index s x : x ∈ s → ∃ i, at_index s i = Some x.
Proof.
  intros [n Hn]%list_elem_of_lookup. exists (Z.of_nat n).
  apply at_index_Some. split; [lia |]. by rewrite Nat2Z.id.
Qed.

End slice_facts.

(** ** The cursor loops *)

Section cursor_facts.
Context {Item : Type} (isHeader : Item → bool) (items : list Item).

Local Abbreviation skip_forward := (Cursor.skip_forward isHeader items).
Local Abbreviation skip_upward := (Cursor.skip_upward isHeader items).
Local Abbreviation last_task := (Cursor.last_task isHeader items).
Local Abbreviation on_task := (Cursor.on_task isHeader items).
Local Abbreviation has_task := (Cursor.has_task isHeader items).
Local Abbreviation on_header := (Cursor.on_header isHeader items).

Lemma on_task_in_range c : on_task c → 0 ≤ c < len items.
Proof. intros (it & Hit & _). by eapply at_index_in_range. Qed.

Lemma on_header_not_task c : on_header c → ¬ on_task c.
Proof. intros (it & Hit & Hh) (it' & Hit' & Ht). congruence. Qed.

Lemma task_or_header c :
  0 ≤ c < len items → on_task c ∨ on_header c.
Proof.
  intros [it Hit]%at_index_is_Some.
  destruct (isHeader it) eqn:Hh; [right | left]; by exists it.
Qed.

Lemma has_task_on_task : has_task ↔ ∃ c, on_task c.
Proof.
  split.
  - intros (it & [c Hc]%elem_of_at_index & Hh). exists c, it. done.
  - intros (c & it & Hit & Hh). exists it. split; [|done].
    by eapply at_index_elem_of.
Qed.

(** *** Unfolding equations: the fuel is the loop's measure *)

Lemma skip_forward_eq c :
  skip_forward c =
  if c <? len items then
    it ← at_index items c;
    if isHeader it then skip_forward (c + 1) else Some c
  else Some c.
Proof.
  unfold Cursor.skip_forward.
  destruct (Z.to_nat (len items - c)) as [|n] eqn:Hn; simpl.
  - destruct (Z.ltb_spec c (len items)); [lia | done].
  - destruct (Z.ltb_spec c (len items)); [|done].
    replace (Z.to_nat (len items - (c + 1))) with n by lia. done.
Qed.

Lemma skip_upward_eq c :
  skip_upward c =
  if 0 <? c then
    it ← at_index items c;
    if isHeader it then skip_upward (c - 1) else Some c
  else Some c.
Proof.
  unfold Cursor.skip_upward.
  destruct (Z.to_nat c) as [|n] eqn:Hn; simpl.
  - destruct (Z.ltb_spec 0 c); [lia | done].
  - destruct (Z.ltb_spec 0 c); [|done].
    replace (Z.to_nat (c - 1)) with n by lia. done.
Qed.

(** *** What each loop computes *)

Lemma skip_forward_spec c :
  0 ≤ c ≤ len items →
  ∃ c', skip_forward c = Some c' ∧ c ≤ c' ≤ len items ∧
        (∀ j, c ≤ j < c' → on_header j) ∧
        (c' < len items → on_task c').
Proof.
  remember (Z.to_nat (len items - c)) as n eqn:Hn.
  revert c Hn. induction n as [|n IH]; intros c Hn Hc;
    rewrite skip_forward_eq.
  - destruct (Z.ltb_spec c (len items)); [lia |].
    exists c. split; [done |]. split; [lia |]. split; intros; lia.
  - destruct (Z.ltb_spec c (len items)); [|lia].
    destruct (at_index_is_Some items c) as [it Hit]; [lia |].
    rewrite Hit. simpl. destruct (isHeader it) eqn:Hh.
    + destruct (IH (c + 1)) as (c' & Hc' & Hle & Hhdr & Htask); [lia.. |].
      exists c'. split; [done |]. split; [lia |]. split; [|done].
      intros j Hj. destruct (decide (j = c)) as [->|].
      * by exists it.
      * apply Hhdr. lia.
    + exists c. split; [done |]. split; [lia |]. split; [intros; lia |].
      intros _. by exists it.
Qed.

Lemma skip_upward_spec c :
  0 ≤ c < len items →
  ∃ c', skip_upward c = Some c' ∧ 0 ≤ c' ≤ c ∧
        (∀ j, c' < j ≤ c → on_header j) ∧
        (0 < c' → on_task c').
Proof.
  remember (Z.to_nat c) as n eqn:Hn.
  revert c Hn. induction n as [|n IH]; intros c Hn Hc;
    rewrite skip_upward_eq.
  - destruct (Z.ltb_spec 0 c); [lia |].
    exists c. split; [done |]. split; [lia |]. split; intros; lia.
  - destruct (Z.ltb_spec 0 c); [|lia].
    destruct (at_index_is_Some items c) as [it Hit]; [lia |].
    rewrite Hit. simpl. destruct (isHeader it) eqn:Hh.
    + destruct (IH (c - 1)) as (c' & Hc' & Hle & Hhdr & Htask); [lia.. |].
      exists c'. split; [done |]. split; [lia |]. split; [|done].
      intros j Hj. destruct (decide (j = c)) as [->|].
      * by exists it.
      * apply Hhdr. lia.
    + exists c. split; [done |]. split; [lia |]. split; [intros; lia |].
      intros _. by exists it.
Qed.

Lemma backward_loop_spec n c :
  (Z.to_nat (c + 1) ≤ n)%nat → -1 ≤ c < len items →
  ∃ c', Cursor.backward_loop isHeader items n c = Some c' ∧ -1 ≤ c' ≤ c ∧
        (∀ j, c' < j ≤ c → on_header j) ∧
        (0 ≤ c' → on_task c').
Proof.
  revert c. induction n as [|n IH]; intros c Hn Hc.
  - simpl. destruct (Z.leb_spec 0 c); [lia |].
    exists c. split; [done |]. split; [lia |]. split; intros; lia.
  - simpl. destruct (Z.leb_spec 0 c).
    + destruct (at_index_is_Some items c) as [it Hit]; [lia |].
      rewrite Hit. simpl. destruct (isHeader it) eqn:Hh; simpl.
      * destruct (IH (c - 1)) as (c' & Hc' & Hle & Hhdr & Htask); [lia.. |].
        exists c'. split; [done |]. split; [lia |]. split; [|done].
        intros j Hj. destruct (decide (j = c)) as [->|].
        -- by exists it.
        -- apply Hhdr. lia.
      * exists c. split; [done |]. split; [lia |]. split; [intros; lia |].
        intros _. by exists it.
    + exists c. split; [done |]. split; [lia |]. split; intros; lia.
Qed.

Lemma last_task_spec :
  ∃ c', last_task () = Some c' ∧ -1 ≤ c' < len items ∧
        (∀ j, c' < j < len items → on_header j) ∧
        (0 ≤ c' → on_task c').
Proof.
  pose proof (len_nonneg items).
  destruct (backward_loop_spec (Z.to_nat (len items)) (len items - 1))
    as (c' & Hc' & Hle & Hhdr & Htask); [lia.. |].
  exists c'. split; [done |]. split; [lia |]. split; [|done].
  intros j Hj. apply Hhdr. lia.
Qed.

(** *** The three cursor operations *)

Lemma adjust_nil cursor : Cursor.adjust isHeader (@nil Item) cursor = Some 0.
Proof. reflexivity. Qed.

Lemma adjust_spec cursor :
  0 ≤ cursor →
  ∃ c', Cursor.adjust isHeader items cursor = Some c' ∧
        0 ≤ c' ∧ (items = [] → c' = 0) ∧ (has_task → on_task c').
Proof.
  intros Hc. unfold Cursor.adjust. pose proof (len_nonneg items) as Hlen.
  destruct (Z.eqb_spec (len items) 0) as [H0|H0].
  { exists 0. split; [done |]. split; [done |]. split; [done |].
    intros (c & Hon%on_task_in_range)%has_task_on_task. lia. }
  set (c0 := if cursor >=? len items then len items - 1 else cursor).
  assert (0 ≤ c0 < len items) as Hc0.
  { unfold c0. destruct (Z.geb_spec cursor (len items)); lia. }
  destruct (skip_forward_spec c0) as (c1 & -> & Hle1 & Hhdr1 & Htask1);
    [lia |]. simpl.
  destruct (Z.geb_spec c1 (len items)) as [Hge|Hlt].
  - destruct last_task_spec as (c2 & -> & Hle2 & Hhdr2 & Htask2). simpl.
    destruct (Z.ltb_spec c2 0) as [Hneg|Hpos].
    + exists 0. split; [done |]. split; [done |]. split; [done |].
      intros (c & Hon)%has_task_on_task. exfalso.
      pose proof (on_task_in_range _ Hon).
      eapply on_header_not_task; [|exact Hon]. apply Hhdr2. lia.
    + exists c2. split; [done |]. split; [done |].
      split; [by intros -> |]. intros _. by apply Htask2.
  - simpl. destruct (Z.ltb_spec c1 0); [lia |].
    exists c1. split; [done |]. split; [lia |].
    split; [by intros -> |]. intros _. apply Htask1. lia.
Qed.

(** [MoveUp] from a task lands on the nearest task above, or stays when
    there is none. *)
Lemma move_up_spec cursor :
  on_task cursor →
  ∃ c', Cursor.move_up isHeader items cursor = Some c' ∧ on_task c' ∧
        ((c' < cursor ∧ ∀ j, c' < j < cursor → ¬ on_task j) ∨
         (c' = cursor ∧ ∀ j, j < cursor → ¬ on_task j)).
Proof.
  intros Hon. pose proof (on_task_in_range _ Hon) as Hr.
  unfold Cursor.move_up.
  destruct (Z.ltb_spec 0 cursor) as [Hpos|Hzero].
  - destruct (skip_upward_spec (cursor - 1))
      as (c1 & -> & Hle1 & Hhdr1 & Htask1); [lia |]. simpl.
    destruct (Z.leb_spec 0 c1); [|lia].
    destruct (Z.ltb_spec c1 (len items)); [|lia]. simpl.
    destruct (at_index_is_Some items c1) as [it Hit]; [lia |].
    rewrite Hit. simpl. destruct (isHeader it) eqn:Hh.
    + assert (c1 = 0) as ->.
      { destruct (decide (0 < c1)) as [Hc1|]; [|lia].
        destruct (Htask1 Hc1) as (it' & Hit' & Hh'). congruence. }
      destruct (skip_forward_spec 0) as (c2 & -> & Hle2 & Hhdr2 & Htask2);
        [lia |].
      assert (c2 ≤ cursor) as Hc2.
      { destruct (decide (c2 ≤ cursor)); [done |]. exfalso.
        eapply on_header_not_task; [|exact Hon]. apply Hhdr2. lia. }
      exists c2. split; [done |]. split; [apply Htask2; lia |].
      destruct (decide (c2 = cursor)) as [->|].
      * right. split; [done |]. intros j Hj Honj.
        pose proof (on_task_in_range _ Honj).
        eapply on_header_not_task; [|exact Honj]. apply Hhdr2. lia.
      * left. split; [lia |]. intros j Hj.
        apply on_header_not_task. apply Hhdr1. lia.
    + exists c1. split; [done |]. split; [by exists it |].
      left. split; [lia |]. intros j Hj.
      apply on_header_not_task. apply Hhdr1. lia.
  - exists cursor. split; [done |]. split; [done |]. right.
    split; [done |]. intros j Hj Honj%on_task_in_range. lia.
Qed.

(** [MoveDown] from a task lands on the nearest task below, or stays when
    there is none. *)
Lemma move_down_spec cursor :
  on_task cursor →
  ∃ c', Cursor.move_down isHeader items cursor = Some c' ∧ on_task c' ∧
        ((cursor < c' ∧ ∀ j, cursor < j < c' → ¬ on_task j) ∨
         (c' = cursor ∧ ∀ j, cursor < j → ¬ on_task j)).
Proof.
  intros Hon. pose proof (on_task_in_range _ Hon) as Hr.
  unfold Cursor.move_down.
  destruct (Z.ltb_spec cursor (len items - 1)) as [Hlt|Hlast].
  - destruct (skip_forward_spec (cursor + 1))
      as (c1 & -> & Hle1 & Hhdr1 & Htask1); [lia |]. simpl.
    destruct (Z.geb_spec c1 (len items)) as [Hge|Hin].
    + destruct last_task_spec as (c2 & -> & Hle2 & Hhdr2 & Htask2).
      assert (c2 = cursor) as ->.
      { destruct (decide (c2 < cursor)).
        - exfalso. eapply on_header_not_task; [|exact Hon].
          apply Hhdr2. lia.
        - destruct (decide (cursor < c2)); [|lia]. exfalso.
          eapply on_header_not_task; [|apply Htask2; lia].
          apply Hhdr1. lia. }
      exists cursor. split; [done |]. split; [done |]. right.
      split; [done |]. intros j Hj Honj.
      pose proof (on_task_in_range _ Honj).
      eapply on_header_not_task; [|exact Honj]. apply Hhdr1. lia.
    + exists c1. split; [done |]. split; [apply Htask1; lia |]. left.
      split; [lia |]. intros j Hj.
      apply on_header_not_task. apply Hhdr1. lia.
  - exists cursor. split; [done |]. split; [done |]. right.
    split; [done |]. intros j Hj Honj%on_task_in_range. lia.
Qed.

End cursor_facts.

(** ** The columns of the kanban view *)

Section column_facts.
Import KanbanView.

Lemma get_col_is_Some cols i : 0 ≤ i < 4 → is_Some (get_col cols i).
Proof.
  intros Hi. assert (i = 0 ∨ i = 1 ∨ i = 2 ∨ i = 3) as Hc by lia.
  destruct Hc as [-> | [-> | [-> | ->]]]; by eexists.
Qed.

Lemma get_col_in_range cols i col : get_col cols i = Some col → 0 ≤ i < 4.
Proof.
  unfold get_col. repeat case_match; try done; intros _; lia.
Qed.

Lemma set_col_is_Some cols i c : 0 ≤ i < 4 → is_Some (set_col cols i c).
Proof.
  intros Hi. assert (i = 0 ∨ i = 1 ∨ i = 2 ∨ i = 3) as Hc by lia.
  destruct Hc as [-> | [-> | [-> | ->]]]; by eexists.
Qed.

Lemma get_set_col cols cols' i j c :
  set_col cols i c = Some cols' →
  get_col cols' j = if decide (j = i) then Some c else get_col cols j.
Proof.
  unfold set_col, get_col. intros Hset.
  destruct (Z.eqb_spec i 0) as [->|?]; [|
  destruct (Z.eqb_spec i 1) as [->|?]; [|
  destruct (Z.eqb_spec i 2) as [->|?]; [|
  destruct (Z.eqb_spec i 3) as [->|?]; [|done]]]];
  injection Hset as <-; simpl;
  case_decide; subst; simpl; try done;
  repeat (case_match; try done); lia.
Qed.

Lemma set_col_same cols i col :
  get_col cols i = Some col → set_col cols i col = Some cols.
Proof.
  unfold set_col, get_col. destruct cols.
  repeat case_match; try done; intros [= <-]; done.
Qed.

(** A column method changes the column it is applied to, and no other. *)
Lemma on_column_spec f k i col col' :
  get_col (columns k) i = Some col → f col = Some col' →
  ∃ k', on_column f k i = Some k' ∧
        tasks k' = tasks k ∧ activeCol k' = activeCol k ∧
        groupBy k' = groupBy k ∧
        ∀ j, get_col (columns k') j =
             if decide (j = i) then Some col' else get_col (columns k) j.
Proof.
  intros Hget Hf. unfold on_column. rewrite Hget. simpl. rewrite Hf. simpl.
  destruct (set_col_is_Some (columns k) i col') as [cols' Hset].
  { by eapply get_col_in_range. }
  rewrite Hset. simpl. eexists. split; [done |]. repeat split.
  intros j. by eapply get_set_col.
Qed.

Lemma on_column_id f k i col :
  get_col (columns k) i = Some col → f col = Some col →
  on_column f k i = Some k.
Proof.
  intros Hget Hf. unfold on_column. rewrite Hget. simpl. rewrite Hf. simpl.
  rewrite (set_col_same _ _ _ Hget). simpl. by destruct k.
Qed.

End column_facts.

(** ** C1: the cursor invariant *)

(** C1. Cursor invariant.  For every item sequence: the re-clamp
    ([ListView.adjustCursor], [KanbanView.adjustColumnCursor]) run from any
    non-negative position (so from any in-bounds one) returns, keeps the
    items, leaves the cursor at 0 when the sequence is empty and on a
    Task-Reference item, in bounds, when the sequence has one; [MoveUp] and
    [MoveDown], of the list and of the active kanban column, run from a
    position on a Task-Reference item return, keep the items and leave
    the cursor on a Task-Reference item. *)
Theorem C1_cursor_invariant :
  (∀ l : ListView.t,
     ListView.items l = [] ∨ 0 ≤ ListView.cursor l →
     ∃ l', ListView.adjustCursor l = Some l' ∧
           ListView.items l' = ListView.items l ∧
           (ListView.items l = [] → ListView.cursor l' = 0) ∧
           (ListView.has_task l → ListView.on_task l')) ∧
  (∀ l : ListView.t,
     ListView.on_task l →
     (∃ l', ListView.MoveUp l = Some l' ∧
            ListView.items l' = ListView.items l ∧ ListView.on_task l') ∧
     (∃ l', ListView.MoveDown l = Some l' ∧
            ListView.items l' = ListView.items l ∧ ListView.on_task l')) ∧
  (∀ (k : KanbanView.t) (colIdx : Z) (col : KanbanView.KanbanColumn),
     KanbanView.get_col (KanbanView.columns k) colIdx = Some col →
     KanbanView.items col = [] ∨ 0 ≤ KanbanView.cursor col →
     ∃ k' col',
       KanbanView.adjustColumnCursor k colIdx = Some k' ∧
       KanbanView.get_col (KanbanView.columns k') colIdx = Some col' ∧
       KanbanView.items col' = KanbanView.items col ∧
       (KanbanView.items col = [] → KanbanView.cursor col' = 0) ∧
       (KanbanView.col_has_task col → KanbanView.col_on_task col')) ∧
  (∀ (k : KanbanView.t) (col : KanbanView.KanbanColumn),
     KanbanView.get_col (KanbanView.columns k) (KanbanView.activeCol k)
       = Some col →
     KanbanView.col_on_task col →
     (∃ k' col',
        KanbanView.MoveUp k = Some k' ∧
        KanbanView.get_col (KanbanView.columns k') (KanbanView.activeCol k)
          = Some col' ∧
        KanbanView.items col' = KanbanView.items col ∧
        KanbanView.col_on_task col') ∧
     (∃ k' col',
        KanbanView.MoveDown k = Some k' ∧
        KanbanView.get_col (KanbanView.columns k') (KanbanView.activeCol k)
          = Some col' ∧
        KanbanView.items col' = KanbanView.items col ∧
        KanbanView.col_on_task col')).
Proof.
  split; [|split; [|split]].
  - intros l Hl. unfold ListView.adjustCursor.
    destruct Hl as [Hnil | Hc].
    + rewrite Hnil. simpl. eexists. split; [done |]. simpl.
      split; [done |]. split; [done |].
      intros (it & Hit & _). rewrite Hnil in Hit. by apply elem_of_nil in Hit.
    + destruct (adjust_spec ListView.isHeader (ListView.items l) _ Hc)
        as (c' & -> & _ & Hnil & Htask).
      simpl. eexists. split; [done |]. simpl. done.
  - intros l Hon. split.
    + destruct (move_up_spec _ _ _ Hon) as (c' & Hc' & Hon' & _).
      unfold ListView.MoveUp. rewrite Hc'. simpl. by eexists.
    + destruct (move_down_spec _ _ _ Hon) as (c' & Hc' & Hon' & _).
      unfold ListView.MoveDown. rewrite Hc'. simpl. by eexists.
  - intros k colIdx col Hget Hl.
    assert (∃ c', Cursor.adjust KanbanView.isHeader (KanbanView.items col)
                    (KanbanView.cursor col) = Some c' ∧
                  (KanbanView.items col = [] → c' = 0) ∧
                  (KanbanView.col_has_task col →
                   Cursor.on_task KanbanView.isHeader
                     (KanbanView.items col) c'))
      as (c' & Hc' & Hnil & Htask).
    { destruct Hl as [Hnil | Hc].
      - rewrite Hnil. exists 0. split; [done |]. split; [done |].
        intros (it & Hit & _). rewrite Hnil in Hit.
        by apply elem_of_nil in Hit.
      - destruct (adjust_spec KanbanView.isHeader (KanbanView.items col) _ Hc)
          as (c' & Hc' & _ & Hnil & Htask). by exists c'. }
    unfold KanbanView.adjustColumnCursor.
    edestruct on_column_spec as (k' & -> & _ & _ & _ & Hcols);
      [exact Hget
      | unfold KanbanView.adjust_column; rewrite Hc'; simpl; reflexivity |].
    eexists _, _. split; [done |]. rewrite Hcols.
    rewrite decide_True by done. done.
  - intros k col Hget Hon. split.
    + destruct (move_up_spec _ _ _ Hon) as (c' & Hc' & Hon' & _).
      unfold KanbanView.MoveUp.
      edestruct on_column_spec as (k' & -> & _ & _ & _ & Hcols);
        [exact Hget | simpl; rewrite Hc'; simpl; reflexivity |].
      eexists _, _. split; [done |]. rewrite Hcols.
      rewrite decide_True by done. done.
    + destruct (move_down_spec _ _ _ Hon) as (c' & Hc' & Hon' & _).
      unfold KanbanView.MoveDown.
      edestruct on_column_spec as (k' & -> & _ & _ & _ & Hcols);
        [exact Hget | simpl; rewrite Hc'; simpl; reflexivity |].
      eexists _, _. split; [done |]. rewrite Hcols.
      rewrite decide_True by done. done.
Qed.

(** ** C6: the boundary moves *)

Section boundary_facts.
Context {Item : Type} (isHeader : Item → bool) (items : list Item).

Lemma move_up_topmost cursor :
  Cursor.on_task isHeader items cursor →
  (∀ j, j < cursor → ¬ Cursor.on_task isHeader items j) →
  Cursor.move_up isHeader items cursor = Some cursor.
Proof.
  intros Hon Htop.
  destruct (move_up_spec isHeader items cursor Hon)
    as (c' & Hc' & Hon' & [[Hlt _] | [-> _]]); [|done].
  by destruct (Htop c' Hlt).
Qed.

Lemma move_down_bottommost cursor :
  Cursor.on_task isHeader items cursor →
  (∀ j, cursor < j → ¬ Cursor.on_task isHeader items j) →
  Cursor.move_down isHeader items cursor = Some cursor.
Proof.
  intros Hon Hbot.
  destruct (move_down_spec isHeader items cursor Hon)
    as (c' & Hc' & Hon' & [[Hlt _] | [-> _]]); [|done].
  by destruct (Hbot c' Hlt).
Qed.

End boundary_facts.

(** C6. Boundary no-ops.  [MoveUp] with the cursor on the topmost
    Task-Reference item (no Task-Reference item at a smaller position) and
    [MoveDown] with the cursor on the bottommost one (none at a larger
    position, whatever headers follow) return the view unchanged, in the
    list and in the active kanban column; [MoveLeft] with active column 0
    and [MoveRight] with active column 3 return the kanban view
    unchanged. *)
Theorem C6_boundary_noops :
  (∀ l : ListView.t,
     ListView.on_task l →
     ((∀ j, j < ListView.cursor l →
            ¬ Cursor.on_task ListView.isHeader (ListView.items l) j) →
      ListView.MoveUp l = Some l) ∧
     ((∀ j, ListView.cursor l < j →
            ¬ Cursor.on_task ListView.isHeader (ListView.items l) j) →
      ListView.MoveDown l = Some l)) ∧
  (∀ (k : KanbanView.t) (col : KanbanView.KanbanColumn),
     KanbanView.get_col (KanbanView.columns k) (KanbanView.activeCol k)
       = Some col →
     KanbanView.col_on_task col →
     ((∀ j, j < KanbanView.cursor col →
            ¬ Cursor.on_task KanbanView.isHeader (KanbanView.items col) j) →
      KanbanView.MoveUp k = Some k) ∧
     ((∀ j, KanbanView.cursor col < j →
            ¬ Cursor.on_task KanbanView.isHeader (KanbanView.items col) j) →
      KanbanView.MoveDown k = Some k)) ∧
  (∀ k : KanbanView.t,
     (KanbanView.activeCol k = 0 → KanbanView.MoveLeft k = k) ∧
     (KanbanView.activeCol k = 3 → KanbanView.MoveRight k = k)).
Proof.
  split; [|split].
  - intros l Hon. split; intros Hb.
    + unfold ListView.MoveUp. rewrite move_up_topmost by done.
      simpl. by destruct l.
    + unfold ListView.MoveDown. rewrite move_down_bottommost by done.
      simpl. by destruct l.
  - intros k col Hget Hon. split; intros Hb.
    + apply (on_column_id _ _ _ _ Hget). rewrite move_up_topmost by done.
      simpl. by destruct col.
    + apply (on_column_id _ _ _ _ Hget). rewrite move_down_bottommost by done.
      simpl. by destruct col.
  - intros k. split; intros Ha.
    + unfold KanbanView.MoveLeft. by rewrite Ha.
    + unfold KanbanView.MoveRight. by rewrite Ha.
Qed.

(** ** Loops *)

Section loop_facts.
Context {S A B : Type}.

Lemma range_loop_app (body : S → A → option S) s xs ys :
  range_loop body s (xs ++ ys) =
  range_loop body s xs ≫= λ s', range_loop body s' ys.
Proof.
  revert s. induction xs as [|x xs IH]; intros s; simpl; [done |].
  destruct (body s x) as [s'|]; simpl; [apply IH | done].
Qed.

Lemma foldl_snoc_fmap (f : A → B) (acc : list B) (xs : list A) :
  foldl (λ acc x, acc ++ [f x]) acc xs = acc ++ (f <$> xs).
Proof.
  revert acc. induction xs as [|x xs IH]; intros acc; simpl.
  - by rewrite app_nil_r.
  - rewrite IH. by rewrite <- app_assoc.
Qed.

Lemma foldl_app_bind (g : A → list B) (acc : list B) (xs : list A) :
  foldl (λ acc x, acc ++ g x) acc xs = acc ++ (xs ≫= g).
Proof.
  revert acc. induction xs as [|x xs IH]; intros acc; simpl.
  - by rewrite app_nil_r.
  - rewrite IH. by rewrite <- app_assoc.
Qed.

Lemma foldl_filter_snoc (p : A → bool) (f : A → B) (acc : list B)
    (xs : list A) :
  foldl (λ acc x, if p x then acc ++ [f x] else acc) acc xs =
  acc ++ (f <$> filter (λ x, p x = true) xs).
Proof.
  revert acc. induction xs as [|x xs IH]; intros acc; simpl.
  - by rewrite app_nil_r.
  - rewrite IH, filter_cons. destruct (p x) eqn:Hp.
    + rewrite decide_True by done. simpl. by rewrite <- app_assoc.
    + rewrite decide_False by congruence. done.
Qed.

End loop_facts.

(** ** Grouping *)

Section grouping_facts.
Context (tasks : list model.Task) (key_of : model.Task → gostring).

Local Abbreviation kf := (Grouping.key_at tasks key_of).
Local Abbreviation mem := (Grouping.members tasks key_of).

Lemma first_occurrences_snoc ks k :
  Grouping.first_occurrences (ks ++ [k]) =
  Grouping.first_occurrences ks ++ (if decide (k ∈ ks) then [] else [k]).
Proof.
  induction ks as [|k0 ks IH]; simpl; [done |].
  rewrite IH, filter_app, app_comm_cons. f_equal.
  destruct (decide (k = k0)) as [->|Hne].
  - rewrite (decide_True (P := k0 ∈ k0 :: ks)) by (by left).
    destruct (decide (k0 ∈ ks)); [done |].
    by rewrite filter_cons_False by (by intros []).
  - destruct (decide (k ∈ ks)) as [Hin|Hnin].
    + by rewrite decide_True by (by right).
    + rewrite decide_False by (by intros [?|?]%elem_of_cons).
      by rewrite filter_cons_True.
Qed.

Lemma elem_of_first_occurrences ks k :
  k ∈ Grouping.first_occurrences ks ↔ k ∈ ks.
Proof.
  induction ks as [|k0 ks IH]; simpl; [done |].
  rewrite !elem_of_cons, list_elem_of_filter, IH.
  destruct (decide (k = k0)); tauto.
Qed.

Lemma NoDup_first_occurrences ks : NoDup (Grouping.first_occurrences ks).
Proof.
  induction ks as [|k0 ks IH]; simpl; [constructor |].
  constructor.
  - rewrite list_elem_of_filter. by intros [? _].
  - by apply NoDup_filter.
Qed.

Lemma members_snoc idxs idx k :
  mem (idxs ++ [idx]) k =
  mem idxs k ++ (if decide (kf idx = k) then [idx] else []).
Proof.
  unfold Grouping.members. by rewrite filter_app.
Qed.

Lemma members_nil_iff idxs k : mem idxs k = [] ↔ k ∉ kf <$> idxs.
Proof.
  unfold Grouping.members. rewrite list_elem_of_fmap. split.
  - intros Hnil (idx & -> & Hin).
    by eapply (filter_nil_not_elem_of _ _ idx Hnil).
  - intros Hnot. induction idxs as [|idx idxs IH]; [done |].
    rewrite filter_cons_False.
    + apply IH. intros (i & ? & ?). apply Hnot. exists i. split; [done |].
      by right.
    + intros Hk. apply Hnot. exists idx. split; [done | by left].
Qed.

Lemma elem_of_members idxs k idx :
  idx ∈ mem idxs k ↔ idx ∈ idxs ∧ kf idx = k.
Proof. unfold Grouping.members. rewrite list_elem_of_filter. tauto. Qed.

(** The grouping loop returns; the map sends each key that occurs to its
    members, and the keys are listed in first-occurrence order. *)
Lemma group_loop_spec idxs :
  Forall (λ idx, is_Some (at_index tasks idx)) idxs →
  ∃ groups : gmap (list Z) (list Z),
    range_loop (Grouping.group_step tasks key_of) (∅, []) idxs =
      Some (groups, Grouping.first_occurrences (kf <$> idxs)) ∧
    ∀ k, groups !! k =
         if decide (mem idxs k = []) then None else Some (mem idxs k).
Proof.
  induction idxs as [|idx idxs IH] using rev_ind; intros Hvalid.
  - exists ∅. split; [done |]. intros k. by rewrite lookup_empty.
  - apply Forall_app in Hvalid as [Hvalid Hidx].
    apply Forall_singleton in Hidx as [task Htask].
    destruct (IH Hvalid) as (groups & Hloop & Hgroups).
    rewrite range_loop_app, Hloop. simpl. rewrite Htask. simpl.
    assert (key_of task = kf idx) as ->.
    { unfold Grouping.key_at. by rewrite Htask. }
    exists (<[kf idx := default [] (groups !! kf idx) ++ [idx]]> groups).
    split.
    + rewrite fmap_app. change (kf <$> [idx]) with [kf idx].
      rewrite first_occurrences_snoc, Hgroups.
      destruct (decide (mem idxs (kf idx) = [])) as [Hnil|Hcons].
      * rewrite decide_False; [done |]. by apply members_nil_iff.
      * rewrite decide_True; [by rewrite app_nil_r |].
        destruct (decide (kf idx ∈ kf <$> idxs)) as [|Hn]; [done |].
        by apply members_nil_iff in Hn.
    + intros k. rewrite members_snoc.
      destruct (decide (kf idx = k)) as [<-|Hne].
      * rewrite lookup_insert_eq. rewrite decide_False.
        2:{ intros Hnil. by apply app_eq_nil in Hnil as [_ ?]. }
        f_equal. f_equal. rewrite Hgroups. by case_decide.
      * rewrite lookup_insert_ne by done. rewrite app_nil_r. apply Hgroups.
Qed.

Lemma orderedKeys_spec (groups : gmap (list Z) (list Z)) labels :
  Grouping.orderedKeys groups labels =
  filter (λ k, is_Some (groups !! k)) labels.
Proof.
  unfold Grouping.orderedKeys.
  enough (∀ acc,
    foldl (λ orderedKeys label,
             match groups !! label with
             | Some _ => orderedKeys ++ [label]
             | None => orderedKeys
             end) acc labels =
    acc ++ filter (λ k, is_Some (groups !! k)) labels) as Hacc
    by apply (Hacc []).
  induction labels as [|k labels IH]; intros acc; simpl.
  - by rewrite app_nil_r.
  - rewrite IH, filter_cons. destruct (groups !! k) eqn:Hk.
    + rewrite decide_True by done. by rewrite <- app_assoc.
    + rewrite decide_False by (by intros [? ?]). done.
Qed.

Lemma build_items_spec {Item} (header : gostring → list Z → Item)
    (taskItem : Z → Item) (groups : gmap (list Z) (list Z)) order :
  Grouping.build_items header taskItem groups order =
  order ≫= λ k, header k (default [] (groups !! k)) ::
                (taskItem <$> default [] (groups !! k)).
Proof.
  unfold Grouping.build_items.
  enough (∀ acc,
    foldl (λ items groupKey,
             let taskIndices := default [] (groups !! groupKey) in
             let items := items ++ [header groupKey taskIndices] in
             foldl (λ items idx, items ++ [taskItem idx]) items taskIndices)
          acc order =
    acc ++ (order ≫= λ k, header k (default [] (groups !! k)) ::
                          (taskItem <$> default [] (groups !! k)))) as Hacc
    by apply (Hacc []).
  induction order as [|k order IH]; intros acc; simpl.
  - by rewrite app_nil_r.
  - rewrite foldl_snoc_fmap, IH. by rewrite <- !app_assoc.
Qed.

Lemma members_filter_ne idxs k k' :
  k' ≠ k → mem (filter (λ idx, ¬ kf idx = k) idxs) k' = mem idxs k'.
Proof.
  intros Hne. unfold Grouping.members.
  induction idxs as [|idx idxs IH]; [done |].
  rewrite !filter_cons.
  destruct (decide (kf idx = k)) as [Hk|Hk].
  - rewrite decide_False by (by intros ?).
    rewrite (decide_False (P := kf idx = k')) by congruence. done.
  - rewrite decide_True by done. rewrite filter_cons.
    case_decide; by rewrite IH.
Qed.

(** Groups listed without repetition and covering every key make a
    partition of the indices. *)
Lemma members_partition order idxs :
  NoDup order → (∀ idx, idx ∈ idxs → kf idx ∈ order) →
  order ≫= mem idxs ≡ₚ idxs.
Proof.
  intros Hnd. revert idxs.
  induction Hnd as [|k order Hk Hnd IH]; intros idxs Hcover.
  - destruct idxs as [|idx ?]; [done |].
    specialize (Hcover idx). rewrite elem_of_nil in Hcover.
    destruct Hcover. by left.
  - rewrite bind_cons.
    rewrite <- (filter_app_complement (λ idx, kf idx = k) idxs) at 3.
    apply Permutation_app; [done |].
    rewrite <- (IH (filter (λ idx, ¬ kf idx = k) idxs)).
    + apply reflexive_eq, Forall_bind_ext, Forall_forall.
      intros k' Hk'. symmetry. apply members_filter_ne. by intros ->.
    + intros idx [Hne Hin]%list_elem_of_filter.
      pose proof (Hcover idx Hin) as [?|?]%elem_of_cons; done.
Qed.

End grouping_facts.

(** ** Strings *)

Section string_facts.

Lemma HasPrefix_spec s p :
  strings.HasPrefix s p = true ↔ ∃ after, s = p ++ after.
Proof.
  revert s. induction p as [|a p IH]; intros s; simpl.
  - split; [by exists s | by destruct s].
  - destruct s as [|c s]; simpl.
    + split; [done | by intros [? ?]].
    + rewrite andb_true_iff, IH, Z.eqb_eq. split.
      * intros [-> [after ->]]. by exists after.
      * intros [after [= -> ->]]. split; [done | by exists after].
Qed.

Lemma Contains_unfold s substr :
  strings.Contains s substr =
  strings.HasPrefix s substr ||
  match s with
  | [] => false
  | _ :: s' => strings.Contains s' substr
  end.
Proof. by destruct s. Qed.

Lemma Contains_spec s substr :
  strings.Contains s substr = true ↔ strings.substring substr s.
Proof.
  unfold strings.substring.
  induction s as [|c s IH]; rewrite Contains_unfold.
  - rewrite orb_false_r, HasPrefix_spec. split.
    + intros [after ->]. by exists [], after.
    + intros (before & after & Heq). symmetry in Heq.
      apply app_eq_nil in Heq as [-> Heq]. exists after. done.
  - rewrite orb_true_iff, HasPrefix_spec, IH. split.
    + intros [[after ->] | (before & after & ->)].
      * by exists [], after.
      * by exists (c :: before), after.
    + intros ([|c' before] & after & Heq); simpl in Heq.
      * left. by exists after.
      * injection Heq as -> ->. right. by exists before, after.
Qed.

Lemma Contains_empty s : strings.Contains s [] = true.
Proof. apply Contains_spec. by exists [], s. Qed.

End string_facts.

(** ** The list view: filter and organizer *)

Section indexed_facts.
Context {A : Type}.

Lemma elem_of_indexed (s : list A) i x :
  (i, x) ∈ indexed s ↔ at_index s i = Some x.
Proof.
  unfold indexed. rewrite elem_of_lookup_imap, at_index_Some. split.
  - intros (n & y & [= -> ->] & Hy). split; [lia |]. by rewrite Nat2Z.id.
  - intros [Hi Hx]. exists (Z.to_nat i), x. split; [|done].
    f_equal. lia.
Qed.

Lemma fst_indexed (s : list A) :
  (indexed s).*1 = Z.of_nat <$> seq 0 (length s).
Proof.
  unfold indexed. rewrite fmap_imap. apply (imap_seq_0 s Z.of_nat).
Qed.

Lemma NoDup_fst_filter_indexed (P : Z * A → Prop)
    `{!∀ x, Decision (P x)} (s : list A) :
  NoDup (filter P (indexed s)).*1.
Proof.
  eapply sublist_NoDup; [|apply fmap_sublist, sublist_filter].
  rewrite fst_indexed. apply NoDup_fmap_2; [|apply NoDup_seq].
  intros ? ?. lia.
Qed.

End indexed_facts.

Section list_view_facts.
Context (unicode_ToLower : rune → rune).

Local Abbreviation matchesFilter := (ListView.matchesFilter unicode_ToLower).
Local Abbreviation applyFilter := (ListView.applyFilter unicode_ToLower).
Local Abbreviation passes := (ListView.passes unicode_ToLower).

(** [matchesFilter] under the filter that [SetFilter] stores decides the
    predicate of the specification. *)
Lemma matchesFilter_passes l flt task :
  matchesFilter
    (ListView.set_filter l (strings.ToLower unicode_ToLower flt)) task = true
  ↔ passes flt task.
Proof.
  unfold ListView.matchesFilter, ListView.passes. simpl.
  destruct flt as [|c flt]; simpl; [by split; [left |] |].
  repeat (rewrite <- Contains_spec).
  destruct (strings.Contains _ _) eqn:Ht; [by split; [right; left |] |].
  destruct (strings.Contains _ _) eqn:Hd in |- *;
    [by split; [right; right; left |] |].
  rewrite existsb_exists. split.
  - intros (tag & Hin%list_elem_of_In & Htag). right. right. right.
    exists tag. split; [done |]. by apply Contains_spec.
  - intros [? | [? | [? | (tag & Hin & Htag)]]]; try done.
    exists tag. split; [by apply list_elem_of_In |]. by apply Contains_spec.
Qed.

Lemma applyFilter_filtered l :
  ListView.filtered (applyFilter l) =
  (filter (λ it : Z * model.Task, matchesFilter l it.2 = true)
          (indexed (ListView.tasks l))).*1.
Proof.
  unfold ListView.applyFilter. simpl.
  enough (∀ (xs : list (Z * model.Task)) acc,
    foldl (λ filtered '(i, task),
             if matchesFilter l task then filtered ++ [i] else filtered)
          acc xs =
    acc ++ (filter (λ it : Z * model.Task, matchesFilter l it.2 = true) xs).*1)
    as Hacc by apply (Hacc _ []).
  induction xs as [|[i task] xs IH]; intros acc; simpl.
  - by rewrite app_nil_r.
  - rewrite IH, filter_cons. simpl. destruct (matchesFilter l task).
    + rewrite decide_True by done. simpl. by rewrite <- app_assoc.
    + rewrite decide_False by done. done.
Qed.

Lemma applyFilter_elem_of l i :
  i ∈ ListView.filtered (applyFilter l) ↔
  ∃ task, at_index (ListView.tasks l) i = Some task ∧
          matchesFilter l task = true.
Proof.
  rewrite applyFilter_filtered, list_elem_of_fmap. split.
  - intros ([i' task] & -> & [Hm Hin%elem_of_indexed]%list_elem_of_filter).
    by exists task.
  - intros (task & Hat & Hm). exists (i, task). split; [done |].
    apply list_elem_of_filter. split; [done |]. by apply elem_of_indexed.
Qed.

Lemma applyFilter_valid l :
  Forall (λ idx, is_Some (at_index (ListView.tasks l) idx))
         (ListView.filtered (applyFilter l)).
Proof.
  apply Forall_forall. intros i (task & Hat & _)%applyFilter_elem_of.
  by exists task.
Qed.

Lemma applyFilter_NoDup l : NoDup (ListView.filtered (applyFilter l)).
Proof. rewrite applyFilter_filtered. apply NoDup_fst_filter_indexed. Qed.

End list_view_facts.

Section organizer_facts.
Import ListView.

Lemma task_refs_app its1 its2 :
  task_refs (its1 ++ its2) = task_refs its1 ++ task_refs its2.
Proof. unfold task_refs. by rewrite filter_app, fmap_app. Qed.

Lemma task_refs_TaskRef idxs : task_refs (TaskRef <$> idxs) = idxs.
Proof.
  unfold task_refs. induction idxs as [|idx idxs IH]; [done |].
  rewrite fmap_cons, filter_cons_True by done.
  rewrite fmap_cons. by f_equal.
Qed.

Lemma task_refs_blocks l order :
  task_refs (order ≫= group_block l) = order ≫= group_members l.
Proof.
  induction order as [|k order IH]; [done |].
  rewrite !bind_cons, task_refs_app, IH. f_equal.
  unfold group_block. change (?x :: ?xs) with ([x] ++ xs).
  rewrite task_refs_app, task_refs_TaskRef. done.
Qed.

Lemma organizeItems_none l :
  groupBy l = model.GroupByNone →
  organizeItems l = Some (set_items l (TaskRef <$> filtered l)).
Proof.
  intros Hg. unfold organizeItems. rewrite decide_True by done.
  by rewrite foldl_snoc_fmap.
Qed.

(** With a grouping, the items are the groups in [group_order], each a
    header followed by its members. *)
Lemma organizeItems_grouped l :
  groupBy l ≠ model.GroupByNone →
  Forall (λ idx, is_Some (at_index (tasks l) idx)) (filtered l) →
  organizeItems l = Some (set_items l (group_order l ≫= group_block l)).
Proof.
  intros Hg Hvalid. unfold organizeItems. rewrite decide_False by done.
  destruct (group_loop_spec (tasks l) (group_key (groupBy l)) _ Hvalid)
    as (groups & -> & Hgroups). simpl.
  assert (∀ k, default [] (groups !! k) = group_members l k) as Hmem.
  { intros k. rewrite Hgroups. unfold group_members. by case_decide. }
  assert (∀ k, is_Some (groups !! k) ↔ k ∈ group_keys l) as Hdom.
  { intros k. rewrite Hgroups. unfold group_keys. case_decide as Hnil.
    - apply members_nil_iff in Hnil. split; [by intros [? ?] | done].
    - split; [|done]. intros _.
      destruct (decide (k ∈ Grouping.key_at (tasks l)
                              (group_key (groupBy l)) <$> filtered l))
        as [|Hn]; [done |]. by apply members_nil_iff in Hn. }
  do 2 f_equal. rewrite build_items_spec.
  etrans.
  { apply list_bind_ext; [|done]. intros k. rewrite Hmem.
    change (header k (group_members l k) ::
            (TaskRef <$> group_members l k)) with (group_block l k). done. }
  f_equal. unfold group_order. rewrite !orderedKeys_spec.
  unfold group_keys in *.
  destruct (groupBy l); try done; simpl; apply list_filter_iff, Hdom.
Qed.

(** Every task the items refer to passed the filter, in every grouping
    mode. *)
Lemma elem_of_blocks_filtered l order idx :
  idx ∈ order ≫= group_members l → idx ∈ filtered l.
Proof.
  intros (k & Hin & _)%list_elem_of_bind.
  by apply elem_of_members in Hin as [? _].
Qed.


(** The key of a filtered task whose group is displayed is in the group
    order. *)
Lemma shown_key_in_order l idx task :
  at_index (tasks l) idx = Some task → group_shown (groupBy l) task →
  idx ∈ filtered l →
  Grouping.key_at (tasks l) (group_key (groupBy l)) idx ∈ group_order l.
Proof.
  intros Hat Hshown Hin.
  assert (Grouping.key_at (tasks l) (group_key (groupBy l)) idx ∈
          group_keys l) as Hkey.
  { unfold group_keys. apply list_elem_of_fmap. by exists idx. }
  unfold group_order, group_keys, group_shown in *.
  unfold Grouping.key_at in Hkey |- * at 1. rewrite Hat in *. simpl in *.
  destruct (groupBy l); simpl in *.
  - by apply elem_of_first_occurrences.
  - by apply list_elem_of_filter.
  - by apply list_elem_of_filter.
  - by apply elem_of_first_occurrences.
Qed.

Lemma NoDup_status_labels :
  NoDup (model.Status_Label <$> model.AllStatuses).
Proof. apply (bool_decide_unpack _). by vm_compute. Qed.

Lemma NoDup_priority_labels :
  NoDup (model.Priority_Label <$> model.AllPriorities).
Proof. apply (bool_decide_unpack _). by vm_compute. Qed.

Lemma NoDup_group_order l : NoDup (group_order l).
Proof.
  unfold group_order. destruct (groupBy l);
    try apply NoDup_first_occurrences; apply NoDup_filter.
  - apply NoDup_status_labels.
  - apply NoDup_priority_labels.
Qed.

(** When every group key is in the group order, the groups partition the
    filtered tasks. *)
Lemma blocks_partition l :
  (∀ idx, idx ∈ filtered l →
          Grouping.key_at (tasks l) (group_key (groupBy l)) idx
            ∈ group_order l) →
  group_order l ≫= group_members l ≡ₚ filtered l.
Proof. apply members_partition, NoDup_group_order. Qed.

End organizer_facts.

(** ** C3: the filter; C2: the groups *)

Section set_filter_facts.
Context (unicode_ToLower : rune → rune).
Import ListView.

(** [organizeItems] returns on the output of [applyFilter]. *)
Lemma organizeItems_applyFilter l :
  organizeItems (applyFilter unicode_ToLower l) =
  Some (set_items (applyFilter unicode_ToLower l)
          (if decide (groupBy l = model.GroupByNone)
           then TaskRef <$> filtered (applyFilter unicode_ToLower l)
           else group_order (applyFilter unicode_ToLower l)
                  ≫= group_block (applyFilter unicode_ToLower l))).
Proof.
  case_decide as Hg.
  - by apply organizeItems_none.
  - apply organizeItems_grouped; [done |].
    apply (applyFilter_valid unicode_ToLower l).
Qed.

Lemma adjustCursor_total l :
  items l = [] ∨ 0 ≤ cursor l →
  ∃ c, adjustCursor l = Some (set_cursor l c) ∧
       (has_task l → Cursor.on_task isHeader (items l) c).
Proof.
  intros [Hnil | Hc]; unfold adjustCursor.
  - rewrite Hnil. simpl. exists 0. split; [done |].
    intros (it & Hit & _). rewrite Hnil in Hit. by apply elem_of_nil in Hit.
  - destruct (adjust_spec isHeader (items l) _ Hc)
      as (c' & -> & _ & _ & Htask).
    by exists c'.
Qed.

(** [SetFilter] returns: the filtered indices are those [applyFilter]
    computes under the lower-cased filter, the items those
    [organizeItems] builds from them. *)
Lemma ListView_SetFilter_spec l flt :
  let l1 := applyFilter unicode_ToLower
              (set_filter l (strings.ToLower unicode_ToLower flt)) in
  ∃ l', SetFilter unicode_ToLower l flt = Some l' ∧
        tasks l' = tasks l ∧ groupBy l' = groupBy l ∧
        filtered l' = filtered l1 ∧
        items l' = (if decide (groupBy l = model.GroupByNone)
                    then TaskRef <$> filtered l1
                    else group_order l1 ≫= group_block l1).
Proof.
  intros l1. unfold SetFilter. fold l1.
  unfold l1 at 1. rewrite organizeItems_applyFilter. simpl. fold l1.
  edestruct adjustCursor_total as (c & -> & _); [right; simpl; lia |].
  eexists. split; [done |]. done.
Qed.

Lemma ListView_SetTasks_spec l ts :
  0 ≤ cursor l →
  let l1 := applyFilter unicode_ToLower (set_tasks l ts) in
  ∃ l', SetTasks unicode_ToLower l ts = Some l' ∧
        tasks l' = ts ∧ groupBy l' = groupBy l ∧ filter l' = filter l ∧
        filtered l' = filtered l1 ∧
        items l' = (if decide (groupBy l = model.GroupByNone)
                    then TaskRef <$> filtered l1
                    else group_order l1 ≫= group_block l1).
Proof.
  intros Hc l1. unfold SetTasks. fold l1.
  unfold l1 at 1. rewrite organizeItems_applyFilter. simpl. fold l1.
  edestruct adjustCursor_total as (c & -> & _); [by right |].
  eexists. split; [done |]. done.
Qed.

(** The organized output names only tasks that passed the filter. *)
Lemma organized_refs_filtered l idx :
  idx ∈ task_refs
          (if decide (groupBy l = model.GroupByNone)
           then TaskRef <$> filtered l
           else group_order l ≫= group_block l) →
  idx ∈ filtered l.
Proof.
  case_decide.
  - by rewrite task_refs_TaskRef.
  - rewrite task_refs_blocks. apply elem_of_blocks_filtered.
Qed.


End set_filter_facts.


(** X28 ([ListView.organizeItems]): the groups partition the filtered
    tasks.  With a grouping,
    [organizeItems] on the output of [applyFilter] returns the groups in
    [group_order] (enum order restricted to the groups with a member for
    status and priority, first-occurrence order for tags), each a header
    labelled [key (count)] followed by its members; the tasks the items
    refer to are a permutation of the filtered indices, without
    duplicates, provided the group of every filtered task is displayed,
    which holds for every task by tag, and for the tasks whose status or
    priority is a known one by status or priority. *)
Theorem organizeItems_partition (unicode_ToLower : rune → rune)
    (l : ListView.t) :
  ListView.groupBy l ≠ model.GroupByNone →
  ∃ l2,
    ListView.organizeItems (ListView.applyFilter unicode_ToLower l)
      = Some l2 ∧
    ListView.filtered l2
      = ListView.filtered (ListView.applyFilter unicode_ToLower l) ∧
    ListView.items l2
      = ListView.group_order (ListView.applyFilter unicode_ToLower l)
          ≫= ListView.group_block (ListView.applyFilter unicode_ToLower l) ∧
    NoDup (ListView.group_order (ListView.applyFilter unicode_ToLower l)) ∧
    ((∀ idx task,
        idx ∈ ListView.filtered (ListView.applyFilter unicode_ToLower l) →
        at_index (ListView.tasks l) idx = Some task →
        ListView.group_shown (ListView.groupBy l) task) →
     ListView.task_refs (ListView.items l2) ≡ₚ ListView.filtered l2 ∧
     NoDup (ListView.task_refs (ListView.items l2))).
Proof.
  intros Hg. set (l1 := ListView.applyFilter unicode_ToLower l).
  eexists. split.
  { unfold l1. rewrite organizeItems_applyFilter.
    rewrite decide_False by done. reflexivity. }
  simpl. split; [done |]. split; [done |].
  split; [apply NoDup_group_order |].
  intros Hshown.
  assert (ListView.task_refs
            (ListView.group_order l1 ≫= ListView.group_block l1)
          ≡ₚ ListView.filtered l1) as Hperm.
  { rewrite task_refs_blocks. apply blocks_partition.
    intros idx Hin.
    destruct (proj1 (applyFilter_elem_of unicode_ToLower l idx) Hin)
      as (task & Hat & _).
    apply (shown_key_in_order l1 idx task); [done | | done].
    by eapply Hshown. }
  split; [done |].
  apply (NoDup_Permutation_proper _ _ Hperm), applyFilter_NoDup.
Qed.

(** A task by tag always has its group displayed. *)
Lemma group_shown_by_tag task : ListView.group_shown model.GroupByTag task.
Proof. done. Qed.

(** A task with a known status has its group displayed by status. *)
Lemma group_shown_known_status task :
  model.Status_ task ∈ model.AllStatuses →
  ListView.group_shown model.GroupByStatus task.
Proof.
  intros Hin. unfold ListView.group_shown.
  apply list_elem_of_fmap. by eexists.
Qed.

(** A task with a known priority has its group displayed by priority. *)
Lemma group_shown_known_priority task :
  model.Priority_ task ∈ model.AllPriorities →
  ListView.group_shown model.GroupByPriority task.
Proof.
  intros Hin. unfold ListView.group_shown.
  apply list_elem_of_fmap. by eexists.
Qed.

(** C2. The groups, at a task whose status is none of the four known
    ones.  The task passes the empty filter and is displayed without
    grouping; grouped by status the organized items are empty: the task
    is omitted, although [filtered] still holds it. *)
Theorem C2_unknown_status_omitted :
  ∃ l1 l2,
    ListView.SetTasks ascii_ToLower ListView.NewListView [Sample.archived]
      = Some l1 ∧
    ListView.filtered l1 = [0] ∧
    ListView.items l1 = [ListView.TaskRef 0] ∧
    ListView.SetGroupBy l1 model.GroupByStatus = Some l2 ∧
    ListView.filtered l2 = [0] ∧
    ListView.items l2 = [] ∧
    ListView.task_refs (ListView.items l2) = [].
Proof. eexists _, _. repeat split; vm_compute; reflexivity. Qed.

(** The scenario of the specification: three tasks with statuses to-do,
    to-do, done, grouped by status, give a header for the two to-do
    tasks, the two tasks, a header for the done task, and the task. *)
Example organize_by_status_scenario :
  ListView.items <$>
    ListView.SetTasks ascii_ToLower
      (ListView.set_groupBy ListView.NewListView model.GroupByStatus)
      Sample.three_tasks =
  Some [ListView.Header (192 :: str " faire (2)");
        ListView.TaskRef 0; ListView.TaskRef 1;
        ListView.Header (str "Termin" ++ [233] ++ str " (1)");
        ListView.TaskRef 2].
Proof. reflexivity. Qed.

(** ** The kanban view *)

Section kanban_facts.
Import KanbanView.

Lemma Status_Index_range s : 0 ≤ model.Status_Index s < 4.
Proof. unfold model.Status_Index. repeat case_decide; lia. Qed.

Lemma Status_Index_unknown s :
  s ∉ model.AllStatuses → model.Status_Index s = 0.
Proof.
  intros Hs. unfold model.Status_Index.
  repeat case_decide; try done; subst; exfalso; apply Hs;
    unfold model.AllStatuses; set_solver.
Qed.

(** A loop over the four columns that applies a column method [F], which
    may read the tasks and the grouping mode of the view. *)
Lemma each_column_spec
    (F : list model.Task → model.GroupBy → KanbanColumn →
         option KanbanColumn) k c0 c1 c2 c3 :
  F (tasks k) (groupBy k) (col0 (columns k)) = Some c0 →
  F (tasks k) (groupBy k) (col1 (columns k)) = Some c1 →
  F (tasks k) (groupBy k) (col2 (columns k)) = Some c2 →
  F (tasks k) (groupBy k) (col3 (columns k)) = Some c3 →
  each_column (λ k i, on_column (F (tasks k) (groupBy k)) k i) k =
  Some (set_columns k (mkCols c0 c1 c2 c3)).
Proof.
  destruct k as [ts [d0 d1 d2 d3] a w h cw g]. simpl.
  intros H0 H1 H2 H3. unfold each_column, on_column. simpl.
  rewrite H0. simpl. rewrite H1. simpl. rewrite H2. simpl.
  rewrite H3. simpl. done.
Qed.

Lemma elem_of_column_indices ts c i :
  i ∈ column_indices ts c ↔
  ∃ task, at_index ts i = Some task ∧
          model.Status_Index (model.Status_ task) = c.
Proof.
  unfold column_indices. rewrite list_elem_of_fmap. split.
  - intros ([i' task] & -> & [Hc Hin%elem_of_indexed]%list_elem_of_filter).
    by exists task.
  - intros (task & Hat & Hc). exists (i, task). split; [done |].
    apply list_elem_of_filter. split; [done |]. by apply elem_of_indexed.
Qed.

Lemma NoDup_column_indices ts c : NoDup (column_indices ts c).
Proof. apply NoDup_fst_filter_indexed. Qed.

Lemma column_indices_valid ts c :
  Forall (λ idx, is_Some (at_index ts idx)) (column_indices ts c).
Proof.
  apply Forall_forall. intros i (task & Hat & _)%elem_of_column_indices.
  by exists task.
Qed.

(** The distribution loop appends to each column the indices of the
    tasks whose [Status.Index()] is the column's. *)
Lemma distribute_spec (xs : list (Z * model.Task)) cols :
  let add col c :=
    with_col_tasks col
      (col_tasks col ++
       (filter (λ it : Z * model.Task,
                  model.Status_Index (model.Status_ it.2) = c) xs).*1) in
  range_loop distribute_step cols xs =
  Some (mkCols (add (col0 cols) 0) (add (col1 cols) 1)
               (add (col2 cols) 2) (add (col3 cols) 3)).
Proof.
  revert cols. induction xs as [|[i task] xs IH]; intros cols; simpl.
  - unfold with_col_tasks. rewrite !app_nil_r. by destruct cols as [[][][][]].
  - pose proof (Status_Index_range (model.Status_ task)) as Hr.
    assert (model.Status_Index (model.Status_ task) = 0 ∨
            model.Status_Index (model.Status_ task) = 1 ∨
            model.Status_Index (model.Status_ task) = 2 ∨
            model.Status_Index (model.Status_ task) = 3) as Hc by lia.
    rewrite !filter_cons. simpl.
    destruct Hc as [Hc | [Hc | [Hc | Hc]]]; rewrite Hc; simpl;
      rewrite IH; simpl; unfold with_col_tasks; simpl;
      by rewrite <- !app_assoc.
Qed.

Lemma organizeTasks_spec k :
  organizeTasks k =
  Some (set_columns k
          (mkCols
             (with_col_tasks (col0 (columns k)) (column_indices (tasks k) 0))
             (with_col_tasks (col1 (columns k)) (column_indices (tasks k) 1))
             (with_col_tasks (col2 (columns k)) (column_indices (tasks k) 2))
             (with_col_tasks (col3 (columns k))
                             (column_indices (tasks k) 3)))).
Proof.
  unfold organizeTasks.
  assert (each_column (on_column reset_column) k =
          Some (set_columns k
                  (mkCols (with_col_tasks (col0 (columns k)) [])
                          (with_col_tasks (col1 (columns k)) [])
                          (with_col_tasks (col2 (columns k)) [])
                          (with_col_tasks (col3 (columns k)) [])))) as ->.
  { exact (each_column_spec (λ _ _, reset_column) k _ _ _ _
             eq_refl eq_refl eq_refl eq_refl). }
  simpl. rewrite distribute_spec. simpl. done.
Qed.

(** [organize_column] returns when the column's indices are in the task
    slice; it keeps the column's status, tasks and cursor. *)
Lemma organize_column_total ts g col :
  Forall (λ idx, is_Some (at_index ts idx)) (col_tasks col) →
  ∃ its, organize_column ts g col =
         Some (mkCol (status col) (col_tasks col) its (cursor col)).
Proof.
  intros Hvalid. unfold organize_column. case_decide; [by eexists |].
  destruct (group_loop_spec ts (group_key g) _ Hvalid)
    as (groups & -> & _). simpl. by eexists.
Qed.

Lemma adjust_column_total col :
  items col = [] ∨ 0 ≤ cursor col →
  ∃ c, adjust_column col =
       Some (mkCol (status col) (col_tasks col) (items col) c).
Proof.
  intros [Hnil | Hc]; unfold adjust_column.
  - rewrite Hnil. simpl. by exists 0.
  - destruct (adjust_spec isHeader (items col) _ Hc) as (c' & -> & _).
    by exists c'.
Qed.

(** [SetTasks] returns when no column cursor is negative.  Column [c]
    receives the indices of the tasks whose [Status.Index()] is [c], in
    collection order; its items are those [organize_column] builds from
    them and its cursor the one [adjust_column] leaves. *)
Lemma KanbanView_SetTasks_spec k ts :
  cursors_nonneg k →
  ∃ k', SetTasks k ts = Some k' ∧
    tasks k' = ts ∧ activeCol k' = activeCol k ∧ groupBy k' = groupBy k ∧
    ∀ c col, get_col (columns k) c = Some col →
      ∃ organized col',
        get_col (columns k') c = Some col' ∧
        organize_column ts (groupBy k)
          (with_col_tasks col (column_indices ts c)) = Some organized ∧
        adjust_column organized = Some col' ∧
        status col' = status col ∧
        col_tasks col' = column_indices ts c.
Proof.
  intros Hcur. unfold SetTasks. rewrite organizeTasks_spec. simpl.
  destruct k as [ts0 [d0 d1 d2 d3] a w h cw g]. simpl.
  pose proof (Hcur 0 d0 eq_refl) as Hc0. pose proof (Hcur 1 d1 eq_refl) as Hc1.
  pose proof (Hcur 2 d2 eq_refl) as Hc2. pose proof (Hcur 3 d3 eq_refl) as Hc3.
  simpl in *.
  destruct (organize_column_total ts g
              (with_col_tasks d0 (column_indices ts 0))
              (column_indices_valid ts 0)) as (i0 & Ho0).
  destruct (organize_column_total ts g
              (with_col_tasks d1 (column_indices ts 1))
              (column_indices_valid ts 1)) as (i1 & Ho1).
  destruct (organize_column_total ts g
              (with_col_tasks d2 (column_indices ts 2))
              (column_indices_valid ts 2)) as (i2 & Ho2).
  destruct (organize_column_total ts g
              (with_col_tasks d3 (column_indices ts 3))
              (column_indices_valid ts 3)) as (i3 & Ho3).
  simpl in Ho0, Ho1, Ho2, Ho3.
  pose proof (each_column_spec organize_column
                (mk ts (mkCols (with_col_tasks d0 (column_indices ts 0))
                               (with_col_tasks d1 (column_indices ts 1))
                               (with_col_tasks d2 (column_indices ts 2))
                               (with_col_tasks d3 (column_indices ts 3)))
                    a w h cw g)
                _ _ _ _ Ho0 Ho1 Ho2 Ho3) as Horg.
  unfold organizeItems, organizeColumnItems. unfold set_columns, set_tasks.
  simpl. rewrite Horg. clear Horg. simpl.
  destruct (adjust_column_total
              (mkCol (status d0) (column_indices ts 0) i0 (cursor d0)))
    as (e0 & He0); [by right |].
  destruct (adjust_column_total
              (mkCol (status d1) (column_indices ts 1) i1 (cursor d1)))
    as (e1 & He1); [by right |].
  destruct (adjust_column_total
              (mkCol (status d2) (column_indices ts 2) i2 (cursor d2)))
    as (e2 & He2); [by right |].
  destruct (adjust_column_total
              (mkCol (status d3) (column_indices ts 3) i3 (cursor d3)))
    as (e3 & He3); [by right |].
  simpl in He0, He1, He2, He3.
  pose proof (each_column_spec (λ _ _, adjust_column)
                (mk ts (mkCols
                          (mkCol (status d0) (column_indices ts 0) i0
                                 (cursor d0))
                          (mkCol (status d1) (column_indices ts 1) i1
                                 (cursor d1))
                          (mkCol (status d2) (column_indices ts 2) i2
                                 (cursor d2))
                          (mkCol (status d3) (column_indices ts 3) i3
                                 (cursor d3)))
                    a w h cw g)
                _ _ _ _ He0 He1 He2 He3) as Hadj.
  unfold adjustCursors, adjustColumnCursor.
  unfold set_columns in *. simpl in *.
  eexists. split; [exact Hadj |]. simpl.
  split; [done |]. split; [done |]. split; [done |].
  intros c col Hget.
  assert (c = 0 ∨ c = 1 ∨ c = 2 ∨ c = 3) as Hc.
  { apply get_col_in_range in Hget. lia. }
  destruct Hc as [-> | [-> | [-> | ->]]]; injection Hget as <-;
    eexists _, _; (split; [reflexivity |]);
    (split; [eassumption |]); (split; [eassumption |]); done.
Qed.

End kanban_facts.

Lemma NewKanbanView_cursors_nonneg :
  KanbanView.cursors_nonneg KanbanView.NewKanbanView.
Proof.
  intros c col Hget. pose proof (get_col_in_range _ _ _ Hget).
  assert (c = 0 ∨ c = 1 ∨ c = 2 ∨ c = 3) as Hc by lia.
  destruct Hc as [-> | [-> | [-> | ->]]]; by injection Hget as <-.
Qed.

(** C4, as stated, fails: the kanban view has no filter.  With the filter
    "zzz" set in the list view (which then keeps no task), a refresh of
    both views fills the first kanban column with the two to-do tasks,
    where the claim has the empty list. *)
Lemma C4_kanban_ignores_filter :
  ∃ l a col,
    ListView.SetFilter ascii_ToLower ListView.NewListView (str "zzz")
      = Some l ∧
    App.refreshViews ascii_ToLower
      (App.set_tasks (App.set_listView App.NewApp l) Sample.three_tasks)
      = Some a ∧
    ListView.filter (App.listView a) = str "zzz" ∧
    ListView.filtered (App.listView a) = [] ∧
    KanbanView.get_col (KanbanView.columns (App.kanbanView a)) 0
      = Some col ∧
    KanbanView.col_tasks col = [0; 1] ∧
    spec_column_indices ascii_ToLower (str "zzz") Sample.three_tasks 0 = [] ∧
    KanbanView.col_tasks col ≠
      spec_column_indices ascii_ToLower (str "zzz") Sample.three_tasks 0.
Proof.
  eexists _, _, _. split; [vm_compute; reflexivity |].
  split; [vm_compute; reflexivity |].
  split; [vm_compute; reflexivity |].
  split; [vm_compute; reflexivity |].
  split; [vm_compute; reflexivity |].
  split; [vm_compute; reflexivity |].
  split; [vm_compute; reflexivity |].
  vm_compute. discriminate.
Qed.

(** C4, amended.  On every [KanbanView.SetTasks], from a view whose
    column cursors are not negative, the call returns and column [c]
    receives exactly the indices of the tasks whose [Status.Index()] is
    [c], in collection order, whatever filter the list view holds (the
    kanban view has none; a status outside the four known ones has index
    0); the column is then organized from these indices and its cursor
    re-clamped. *)
Theorem C4_kanban_columns (k : KanbanView.t) (ts : list model.Task) :
  KanbanView.cursors_nonneg k →
  ∃ k', KanbanView.SetTasks k ts = Some k' ∧
    KanbanView.tasks k' = ts ∧
    ∀ c col, KanbanView.get_col (KanbanView.columns k) c = Some col →
      ∃ organized col',
        KanbanView.get_col (KanbanView.columns k') c = Some col' ∧
        KanbanView.col_tasks col' = KanbanView.column_indices ts c ∧
        (∀ i, i ∈ KanbanView.col_tasks col' ↔
              ∃ task, at_index ts i = Some task ∧
                      model.Status_Index (model.Status_ task) = c) ∧
        KanbanView.organize_column ts (KanbanView.groupBy k)
          (KanbanView.with_col_tasks col (KanbanView.column_indices ts c))
          = Some organized ∧
        KanbanView.adjust_column organized = Some col'.
Proof.
  intros Hcur.
  destruct (KanbanView_SetTasks_spec k ts Hcur)
    as (k' & Hk' & Hts & _ & _ & Hcols).
  exists k'. split; [done |]. split; [done |].
  intros c col Hget.
  destruct (Hcols c col Hget)
    as (organized & col' & Hget' & Horg & Hadj & _ & Hcol).
  exists organized, col'. split; [done |]. split; [done |].
  split; [|done]. intros i. rewrite Hcol. apply elem_of_column_indices.
Qed.

Lemma C4_kanban_columns_witness :
  ∃ k', KanbanView.SetTasks KanbanView.NewKanbanView Sample.three_tasks
          = Some k' ∧
    KanbanView.tasks k' = Sample.three_tasks ∧
    ∀ c col,
      KanbanView.get_col (KanbanView.columns KanbanView.NewKanbanView) c
        = Some col →
      ∃ organized col',
        KanbanView.get_col (KanbanView.columns k') c = Some col' ∧
        KanbanView.col_tasks col'
          = KanbanView.column_indices Sample.three_tasks c ∧
        (∀ i, i ∈ KanbanView.col_tasks col' ↔
              ∃ task, at_index Sample.three_tasks i = Some task ∧
                      model.Status_Index (model.Status_ task) = c) ∧
        KanbanView.organize_column Sample.three_tasks
          (KanbanView.groupBy KanbanView.NewKanbanView)
          (KanbanView.with_col_tasks col
             (KanbanView.column_indices Sample.three_tasks c))
          = Some organized ∧
        KanbanView.adjust_column organized = Some col'.
Proof.
  apply (C4_kanban_columns KanbanView.NewKanbanView Sample.three_tasks).
  apply NewKanbanView_cursors_nonneg.
Defined.

(** C10. After [KanbanView.SetTasks] (which returns from any view whose
    column cursors are not negative) the four columns partition the task
    slice: the index of every task is in the column numbered by the
    [Status.Index()] of its status, in no other column, and there once.
    [Status.Index] is total with values in 0..3 and sends every status
    outside the four known ones to 0, the to-do column. *)
Theorem C10_columns_partition (k : KanbanView.t) (ts : list model.Task) :
  KanbanView.cursors_nonneg k →
  ∃ k', KanbanView.SetTasks k ts = Some k' ∧
    (∀ i task, at_index ts i = Some task →
       ∃ col,
         KanbanView.get_col (KanbanView.columns k')
           (model.Status_Index (model.Status_ task)) = Some col ∧
         i ∈ KanbanView.col_tasks col) ∧
    (∀ c col i,
       KanbanView.get_col (KanbanView.columns k') c = Some col →
       i ∈ KanbanView.col_tasks col →
       ∃ task, at_index ts i = Some task ∧
               model.Status_Index (model.Status_ task) = c) ∧
    (∀ c col,
       KanbanView.get_col (KanbanView.columns k') c = Some col →
       NoDup (KanbanView.col_tasks col)) ∧
    (∀ s, 0 ≤ model.Status_Index s < 4) ∧
    (∀ s, s ∉ model.AllStatuses → model.Status_Index s = 0).
Proof.
  intros Hcur.
  destruct (KanbanView_SetTasks_spec k ts Hcur)
    as (k' & Hk' & Hts & _ & _ & Hcols).
  assert (∀ c col',
            KanbanView.get_col (KanbanView.columns k') c = Some col' →
            KanbanView.col_tasks col' = KanbanView.column_indices ts c)
    as Hcol.
  { intros c col' Hget'.
    destruct (get_col_is_Some (KanbanView.columns k) c) as [col Hget].
    { by eapply get_col_in_range. }
    destruct (Hcols c col Hget) as (? & col'' & Hget'' & _ & _ & _ & Heq).
    congruence. }
  exists k'. split; [done |]. repeat split.
  - intros i task Hat.
    destruct (get_col_is_Some (KanbanView.columns k')
                (model.Status_Index (model.Status_ task))) as [col Hget].
    { apply Status_Index_range. }
    exists col. split; [done |]. rewrite (Hcol _ _ Hget).
    apply elem_of_column_indices. by exists task.
  - intros c col i Hget Hin. rewrite (Hcol _ _ Hget) in Hin.
    by apply elem_of_column_indices.
  - intros c col Hget. rewrite (Hcol _ _ Hget).
    apply NoDup_column_indices.
  - apply Status_Index_range.
  - apply Status_Index_range.
  - apply Status_Index_unknown.
Qed.

Lemma C10_columns_partition_witness :
  ∃ k', KanbanView.SetTasks KanbanView.NewKanbanView Sample.mixed_tasks
          = Some k' ∧
    (∀ i task, at_index Sample.mixed_tasks i = Some task →
       ∃ col,
         KanbanView.get_col (KanbanView.columns k')
           (model.Status_Index (model.Status_ task)) = Some col ∧
         i ∈ KanbanView.col_tasks col) ∧
    (∀ c col i,
       KanbanView.get_col (KanbanView.columns k') c = Some col →
       i ∈ KanbanView.col_tasks col →
       ∃ task, at_index Sample.mixed_tasks i = Some task ∧
               model.Status_Index (model.Status_ task) = c) ∧
    (∀ c col,
       KanbanView.get_col (KanbanView.columns k') c = Some col →
       NoDup (KanbanView.col_tasks col)) ∧
    (∀ s, 0 ≤ model.Status_Index s < 4) ∧
    (∀ s, s ∉ model.AllStatuses → model.Status_Index s = 0).
Proof.
  apply (C10_columns_partition KanbanView.NewKanbanView Sample.mixed_tasks).
  apply NewKanbanView_cursors_nonneg.
Defined.

(** ** C5: moving a task between columns *)

Section move_task_facts.
Import KanbanView.

Lemma SelectedTask_pointer k i task :
  SelectedTask k = Some (Some (i, task)) → at_index (tasks k) i = Some task.
Proof.
  unfold SelectedTask. destruct (get_col _ _) as [col|]; [simpl | done].
  repeat case_match; try done; simpl.
  destruct (at_index (tasks k) _) as [task'|] eqn:Hat; [simpl | done].
  intros [= <- <-]. done.
Qed.

Lemma write_status_spec k i task s :
  at_index (tasks k) i = Some task →
  write_status k i task s =
  Some (set_tasks k (<[Z.to_nat i := model.with_Status task s]> (tasks k)),
        model.with_Status task s).
Proof.
  intros Hat. pose proof (at_index_in_range _ _ _ Hat) as Hr.
  unfold write_status, set_index.
  destruct (Z.leb_spec 0 i); [|lia].
  destruct (Z.ltb_spec i (len (tasks k))); [|lia]. done.
Qed.

End move_task_facts.


(** ** White space *)

Section trim_facts.

Local Abbreviation spaces := (Forall (λ r, strings.IsSpace r = true)).

Lemma TrimLeftSpace_head s c rest :
  strings.TrimLeftSpace s = c :: rest → strings.IsSpace c = false.
Proof.
  induction s as [|c0 s IH]; simpl; [done |].
  destruct (strings.IsSpace c0) eqn:Hc0; [done |]. by intros [= <- _].
Qed.

Lemma TrimLeftSpace_nil_iff s : strings.TrimLeftSpace s = [] ↔ spaces s.
Proof.
  induction s as [|c s IH]; simpl; [by split |].
  rewrite Forall_cons. destruct (strings.IsSpace c); [|by split; [|intros []]].
  rewrite IH. tauto.
Qed.

Lemma TrimLeftSpace_spaces s :
  spaces (strings.TrimLeftSpace s) → strings.TrimLeftSpace s = [].
Proof.
  destruct (strings.TrimLeftSpace s) as [|c rest] eqn:Hs; [done |].
  apply TrimLeftSpace_head in Hs. intros [Hc _]%Forall_cons. congruence.
Qed.

(** [TrimSpace] returns the empty string exactly on the strings made of
    white space only (the empty one among them). *)
Lemma TrimSpace_nil_iff s : strings.TrimSpace s = [] ↔ spaces s.
Proof.
  unfold strings.TrimSpace. rewrite <- TrimLeftSpace_nil_iff. split.
  - intros Hr. apply (f_equal reverse) in Hr.
    rewrite reverse_involutive in Hr. change (reverse []) with (@nil Z) in Hr.
    apply TrimLeftSpace_nil_iff in Hr. rewrite Forall_reverse in Hr.
    by apply TrimLeftSpace_spaces.
  - by intros ->.
Qed.


End trim_facts.

(** ** C7: the form refuses an empty title *)

Lemma set_taskForm_same a : App.set_taskForm a (App.taskForm a) = a.
Proof. by destruct a. Qed.

(** C7. With the form open and the focus on the Submit control, when the
    title is empty or made of white space only, the confirm key leaves the
    application exactly as it was (so in the Form state, the form, the
    tasks and the message untouched) and returns no command. *)
Theorem C7_empty_title_blocks_submit
    (unicode_ToLower : rune → rune)
    (textinput_SetValue : gostring → textinput.Model → textinput.Model)
    (textinput_Update :
       tea.Msg → textinput.Model → textinput.Model * option nat)
    (uuid : gostring) (now : model.Time) (a : App.t) :
  App.state a = App.StateForm →
  TaskForm.focusedField (App.taskForm a) = TaskForm.FieldSubmit →
  Forall (λ r, strings.IsSpace r = true)
         (textinput.Value (TaskForm.titleInput (App.taskForm a))) →
  App.Update unicode_ToLower textinput_SetValue textinput_Update uuid now
             a (tea.KeyMsg "enter")
    = Some (a, None) ∧
  TaskForm.IsValid (App.taskForm a) = false.
Proof.
  intros Hstate Hfocus Htitle%TrimSpace_nil_iff.
  assert (TaskForm.IsValid (App.taskForm a) = false) as Hvalid.
  { unfold TaskForm.IsValid. rewrite Htitle. done. }
  split; [|done].
  unfold App.Update, App.handleKeyPress. rewrite Hstate. simpl.
  unfold App.handleFormKeys. simpl.
  unfold TaskForm.IsFocusedOnSubmit. rewrite Hfocus, Hvalid. simpl.
  by rewrite set_taskForm_same.
Qed.

Lemma C7_empty_title_blocks_submit_witness :
  App.Update ascii_ToLower Sample.SetValue Sample.Update (str "id") 0
             (Sample.app_with_form "   " "a") (tea.KeyMsg "enter")
    = Some (Sample.app_with_form "   " "a", None) ∧
  TaskForm.IsValid (App.taskForm (Sample.app_with_form "   " "a")) = false.
Proof.
  apply (C7_empty_title_blocks_submit ascii_ToLower Sample.SetValue
           Sample.Update (str "id") 0 (Sample.app_with_form "   " "a")).
  - reflexivity.
  - reflexivity.
  - vm_compute. repeat constructor.
Defined.

(** ** C8: what a commit stores *)

Section commit_facts.

(** The tags of the form: the trimmed pieces between the commas, the
    empty ones dropped, in order; duplicates are kept. *)
Lemma parse_tags_spec tagStr :
  TaskForm.parse_tags tagStr =
  if decide (tagStr = []) then []
  else filter (λ t, t ≠ []) (strings.TrimSpace <$> strings.Split tagStr 44).
Proof.
  unfold TaskForm.parse_tags. case_decide; [done |].
  enough (∀ pieces acc,
    foldl (λ tags t,
             let t := strings.TrimSpace t in
             if decide (t = []) then tags else tags ++ [t]) acc pieces =
    acc ++ filter (λ t, t ≠ []) (strings.TrimSpace <$> pieces)) as Hacc
    by apply (Hacc _ []).
  induction pieces as [|p pieces IH]; intros acc; simpl.
  - by rewrite app_nil_r.
  - rewrite IH, filter_cons.
    destruct (decide (strings.TrimSpace p = [])) as [Hp|Hp].
    + by rewrite decide_False by (by intros ?).
    + rewrite decide_True by done. by rewrite <- app_assoc.
Qed.

Lemma elem_of_parse_tags tagStr tag :
  tag ∈ TaskForm.parse_tags tagStr →
  tag ≠ [] ∧
  ∃ piece, piece ∈ strings.Split tagStr 44 ∧ tag = strings.TrimSpace piece.
Proof.
  rewrite parse_tags_spec. case_decide; [by intros ?%elem_of_nil |].
  intros [Hne (piece & -> & Hin)%list_elem_of_fmap]%list_elem_of_filter.
  split; [done |]. by exists piece.
Qed.





End commit_facts.

Section commit_handlers.
Context (textinput_Update :
           tea.Msg → textinput.Model → textinput.Model * option nat).

Lemma TaskForm_Update_cmd f msg f' cmd :
  TaskForm.Update textinput_Update f msg = (f', Some cmd) →
  ∃ n, cmd = tea.inputCmd n.
Proof.
  unfold TaskForm.Update.
  destruct msg; repeat case_match; try done;
    intros [= _ Hc];
    match goal with o : option nat |- _ => destruct o end;
    simpl in Hc; try done; injection Hc as <-; by eexists.
Qed.


End commit_handlers.



(** ** C9: the repository's update *)

Section storage_facts.
Import Storage.

Lemma length_replace_first tasks task :
  length (replace_first tasks task) = length tasks.
Proof.
  induction tasks as [|t tasks IH]; simpl; [done |].
  case_decide; simpl; by rewrite ?IH.
Qed.

Lemma replace_first_other tasks task j t :
  tasks !! j = Some t → model.ID t ≠ model.ID task →
  replace_first tasks task !! j = Some t.
Proof.
  revert j. induction tasks as [|t0 tasks IH]; intros j Hj Hne; [done |].
  simpl. destruct j as [|j]; simpl in Hj.
  - injection Hj as ->. by rewrite decide_False.
  - case_decide; simpl; [done |]. by apply IH.
Qed.

Lemma replace_first_split tasks task before t after :
  tasks = before ++ t :: after → model.ID t = model.ID task →
  (∀ x, x ∈ before → model.ID x ≠ model.ID task) →
  replace_first tasks task = before ++ task :: after.
Proof.
  intros -> Hid. induction before as [|x before IH]; intros Hbefore; simpl.
  - by rewrite decide_True.
  - rewrite decide_False by (apply Hbefore; by left).
    f_equal. apply IH. intros y Hy. apply Hbefore. by right.
Qed.

Lemma replace_first_absent tasks task :
  (∀ t, t ∈ tasks → model.ID t ≠ model.ID task) →
  replace_first tasks task = tasks.
Proof.
  induction tasks as [|t tasks IH]; intros Habs; simpl; [done |].
  rewrite decide_False by (apply Habs; by left).
  f_equal. apply IH. intros y Hy. apply Habs. by right.
Qed.

End storage_facts.

(** C9. [UpdateTask] on a readable store.  When the write succeeds the
    call returns, and saves, the loaded collection with the first task
    whose identifier is the argument's replaced by the argument, its
    update timestamp set to the clock reading; a failed write returns
    an error and no collection, so every collection returned is this
    one.  The collection keeps its length; every task with another
    identifier stays at its position unchanged; tasks before the
    replaced one and after it are unchanged; when no stored task has the
    identifier the collection is returned as loaded. *)
Theorem C9_update_task (now : model.Time) (task : model.Task)
    (file : Storage.File) (tasks : list model.Task) :
  Storage.Load file = Storage.Ok tasks →
  ∃ result,
    Storage.UpdateTask now None task file
      = (Storage.Ok result, Storage.Document result) ∧
    (∀ os_error r file',
       Storage.UpdateTask now os_error task file = (Storage.Ok r, file') →
       r = result) ∧
    length result = length tasks ∧
    (∀ j t, tasks !! j = Some t → model.ID t ≠ model.ID task →
            result !! j = Some t) ∧
    (∀ before t after,
       tasks = before ++ t :: after → model.ID t = model.ID task →
       (∀ x, x ∈ before → model.ID x ≠ model.ID task) →
       result = before ++ model.with_UpdatedAt task now :: after) ∧
    ((∀ t, t ∈ tasks → model.ID t ≠ model.ID task) → result = tasks) ∧
    model.UpdatedAt (model.with_UpdatedAt task now) = now ∧
    model.with_UpdatedAt task now
      = model.mkTask (model.ID task) (model.Title task)
          (model.Description task) (model.Priority_ task)
          (model.Status_ task) (model.Tags task) (model.CreatedAt task) now.
Proof.
  intros Hload.
  exists (Storage.replace_first tasks (model.with_UpdatedAt task now)).
  unfold Storage.UpdateTask. rewrite Hload. simpl.
  split; [done |]. split.
  { intros [e|] r file'; simpl; [done |]. by intros [= <- _]. }
  split; [apply length_replace_first |].
  split.
  { intros j t Hj Hne.
    exact (replace_first_other tasks (model.with_UpdatedAt task now) j t
             Hj Hne). }
  split.
  { intros before t after Heq Hid Hbefore.
    exact (replace_first_split tasks (model.with_UpdatedAt task now)
             before t after Heq Hid Hbefore). }
  split; [|done]. intros Habs.
  exact (replace_first_absent tasks (model.with_UpdatedAt task now) Habs).
Qed.

Lemma C9_update_task_witness :
  ∃ result,
    Storage.UpdateTask 7 None Sample.edited
      (Storage.Document Sample.three_tasks)
      = (Storage.Ok result, Storage.Document result) ∧
    length result = 3%nat ∧
    result !! 0%nat = Sample.three_tasks !! 0%nat ∧
    result !! 1%nat = Some (model.with_UpdatedAt Sample.edited 7) ∧
    result !! 2%nat = Sample.three_tasks !! 2%nat.
Proof.
  destruct (C9_update_task 7 Sample.edited
              (Storage.Document Sample.three_tasks) Sample.three_tasks
              eq_refl)
    as (result & Hupdate & _ & Hlen & Hother & Hsplit & _).
  exists result. split; [exact Hupdate |]. split; [exact Hlen |].
  split; [|split].
  - apply (Hother 0%nat); [reflexivity | by vm_compute].
  - rewrite (Hsplit [Sample.task "a" "write" model.StatusTodo
                       model.PriorityLow [str "doc"]]
               (Sample.task "b" "review" model.StatusTodo
                  model.PriorityHigh [])
               [Sample.task "c" "ship" model.StatusDone model.PriorityLow
                  [str "doc"]]); [reflexivity | reflexivity | reflexivity |].
    intros x ->%list_elem_of_singleton. by vm_compute.
  - apply (Hother 2%nat); [reflexivity | by vm_compute].
Defined.

(** ** The theorems on the sample data *)

Lemma C1_cursor_invariant_witness :
  (∃ l', ListView.adjustCursor (ListView.set_cursor Sample.striped 4)
           = Some l' ∧
         ListView.items l' = ListView.items Sample.striped ∧
         ListView.on_task l') ∧
  (∃ l', ListView.MoveUp (ListView.set_cursor Sample.striped 3) = Some l' ∧
         ListView.items l' = ListView.items Sample.striped ∧
         ListView.on_task l') ∧
  (∃ l', ListView.MoveDown Sample.striped = Some l' ∧
         ListView.items l' = ListView.items Sample.striped ∧
         ListView.on_task l') ∧
  (∃ k' col', KanbanView.adjustColumnCursor Sample.board 1 = Some k' ∧
              KanbanView.get_col (KanbanView.columns k') 1 = Some col' ∧
              KanbanView.col_on_task col') ∧
  (∃ k' col', KanbanView.MoveDown Sample.board = Some k' ∧
              KanbanView.get_col (KanbanView.columns k') 1 = Some col' ∧
              KanbanView.col_on_task col').
Proof.
  destruct C1_cursor_invariant as (Hadjust & Hmove & Hkadjust & Hkmove).
  assert (ListView.has_task Sample.striped) as Hhas.
  { exists (ListView.TaskRef 0). split; [|done]. right. by left. }
  assert (ListView.on_task Sample.striped) as Hon1.
  { by exists (ListView.TaskRef 0). }
  assert (ListView.on_task (ListView.set_cursor Sample.striped 3)) as Hon3.
  { by exists (ListView.TaskRef 2). }
  split; [|split; [|split; [|split]]].
  - destruct (Hadjust (ListView.set_cursor Sample.striped 4))
      as (l' & Hl' & Hitems & _ & Htask); [right; simpl; lia |].
    exists l'. split; [done |]. split; [done |]. by apply Htask.
  - destruct (Hmove _ Hon3) as [Hup _]. exact Hup.
  - destruct (Hmove _ Hon1) as [_ Hdown]. exact Hdown.
  - destruct (Hkadjust Sample.board 1 _ eq_refl)
      as (k' & col' & Hk' & Hget & _ & _ & Htask); [right; simpl; lia |].
    exists k', col'. split; [done |]. split; [done |]. apply Htask.
    exists (KanbanView.TaskRef 0). split; [|done]. right. by left.
  - destruct (Hkmove Sample.board _ eq_refl) as [_ Hdown].
    { by exists (KanbanView.TaskRef 0). }
    destruct Hdown as (k' & col' & Hk' & Hget & _ & Hon).
    by exists k', col'.
Defined.

Lemma C6_boundary_noops_witness :
  ListView.MoveUp Sample.striped = Some Sample.striped ∧
  ListView.MoveDown (ListView.set_cursor Sample.striped 3)
    = Some (ListView.set_cursor Sample.striped 3) ∧
  KanbanView.MoveUp Sample.board = Some Sample.board ∧
  KanbanView.MoveLeft (KanbanView.set_activeCol Sample.board 0)
    = KanbanView.set_activeCol Sample.board 0 ∧
  KanbanView.MoveRight (KanbanView.set_activeCol Sample.board 3)
    = KanbanView.set_activeCol Sample.board 3.
Proof.
  destruct C6_boundary_noops as (Hlist & Hkanban & Hcols).
  split; [|split; [|split; [|split]]].
  - apply (Hlist Sample.striped); [by exists (ListView.TaskRef 0) |].
    intros j Hj (it & Hat & Hh). pose proof (at_index_in_range _ _ _ Hat).
    assert (j = 0) as -> by (simpl in *; lia). by injection Hat as <-.
  - apply (Hlist (ListView.set_cursor Sample.striped 3));
      [by exists (ListView.TaskRef 2) |].
    intros j Hj (it & Hat & Hh). pose proof (at_index_in_range _ _ _ Hat) as Hr.
    assert (j = 4) as -> by (simpl in *; unfold len in Hr; simpl in Hr; lia).
    by injection Hat as <-.
  - apply (Hkanban Sample.board _ eq_refl);
      [by exists (KanbanView.TaskRef 0) |].
    intros j Hj (it & Hat & Hh). pose proof (at_index_in_range _ _ _ Hat).
    assert (j = 0) as -> by (simpl in *; lia). by injection Hat as <-.
  - by apply (Hcols (KanbanView.set_activeCol Sample.board 0)).
  - by apply (Hcols (KanbanView.set_activeCol Sample.board 3)).
Defined.




(** * Part III: further properties of the code *)

(** ** The scroll window of [Render] and [renderColumn] *)

Section scroll_facts.

Lemma offset_nonneg cursor visible : 0 ≤ Scroll.offset cursor visible.
Proof. unfold Scroll.offset. destruct (Z.geb_spec cursor visible); lia. Qed.

Lemma rows_loop_spec fuel n scrollOffset visible i acc :
  (Z.to_nat (n - i) ≤ fuel)%nat →
  Scroll.rows_loop fuel n scrollOffset visible i acc =
  acc ++ seqZ i (Z.min n (scrollOffset + visible) - i).
Proof.
  revert i acc. induction fuel as [|fuel IH]; intros i acc Hfuel; simpl.
  - destruct (Z.ltb_spec i n); [lia |]. simpl.
    rewrite seqZ_nil; [by rewrite app_nil_r | lia].
  - destruct (Z.ltb_spec i n); simpl.
    + destruct (Z.ltb_spec i (scrollOffset + visible)).
      * rewrite IH by lia. rewrite <- app_assoc. f_equal.
        rewrite (seqZ_cons i) by lia. simpl. do 2 f_equal; lia.
      * rewrite seqZ_nil; [by rewrite app_nil_r | lia].
    + rewrite seqZ_nil; [by rewrite app_nil_r | lia].
Qed.

(** The loop draws the consecutive indices from the scroll offset up to
    the end of the items or of the window, whichever comes first. *)
Lemma rows_spec n cursor visible :
  Scroll.rows n cursor visible =
  seqZ (Scroll.offset cursor visible)
       (Z.min n (Scroll.offset cursor visible + visible)
        - Scroll.offset cursor visible).
Proof. unfold Scroll.rows. by rewrite rows_loop_spec. Qed.

Lemma elem_of_rows n cursor visible i :
  i ∈ Scroll.rows n cursor visible ↔
  Scroll.offset cursor visible ≤ i ∧ i < n ∧
  i < Scroll.offset cursor visible + visible.
Proof. rewrite rows_spec, elem_of_seqZ. lia. Qed.

Lemma length_rows n cursor visible :
  0 ≤ visible → (length (Scroll.rows n cursor visible) ≤ Z.to_nat visible)%nat.
Proof. intros. rewrite rows_spec, length_seqZ. lia. Qed.

Lemma rows_cursor n cursor visible :
  0 ≤ cursor < n →
  cursor ∈ Scroll.rows n cursor visible ↔ 1 ≤ visible.
Proof.
  intros Hc. rewrite elem_of_rows. unfold Scroll.offset.
  destruct (Z.geb_spec cursor visible); lia.
Qed.

Lemma rows_last n cursor visible :
  0 ≤ cursor < n → 1 ≤ visible → visible ≤ cursor →
  last (Scroll.rows n cursor visible) = Some cursor.
Proof.
  intros Hc Hv Hge. rewrite rows_spec. unfold Scroll.offset.
  destruct (Z.geb_spec cursor visible); [|lia].
  replace (Z.min n (cursor - visible + 1 + visible) - (cursor - visible + 1))
    with ((visible - 1) + 1) by lia.
  rewrite seqZ_app by lia. rewrite (seqZ_cons _ 1) by lia.
  rewrite (seqZ_nil _ (Z.pred 1)) by lia. rewrite last_snoc. f_equal. lia.
Qed.

Lemma rows_top n cursor visible :
  cursor < visible →
  Scroll.rows n cursor visible = seqZ 0 (Z.min n visible).
Proof.
  intros Hlt. rewrite rows_spec. unfold Scroll.offset.
  destruct (Z.geb_spec cursor visible); [lia |]. f_equal. lia.
Qed.

End scroll_facts.

(** X1 ([ListView.Render]): the rows the list view draws are indices of
    [l.items], so the loop's [l.items[i]] never fails; they are
    consecutive, and at most [height - 2] of them.  With the cursor on an
    item, the cursor's row is drawn exactly when the view is at least
    three lines high; the window starts at the first item while the
    cursor fits in it, and afterwards ends on the cursor's row. *)
Theorem ListView_Render_window (l : ListView.t) :
  let n := len (ListView.items l) in
  let visibleHeight := ListView.height l - 2 in
  (∀ i, i ∈ ListView.rendered_rows l → 0 ≤ i < n) ∧
  (∃ first count, ListView.rendered_rows l = seqZ first count) ∧
  (length (ListView.rendered_rows l) ≤ Z.to_nat visibleHeight)%nat ∧
  (0 ≤ ListView.cursor l < n →
   (ListView.cursor l ∈ ListView.rendered_rows l ↔ 1 ≤ visibleHeight) ∧
   (ListView.cursor l < visibleHeight →
    ListView.rendered_rows l = seqZ 0 (Z.min n visibleHeight)) ∧
   (1 ≤ visibleHeight ≤ ListView.cursor l →
    last (ListView.rendered_rows l) = Some (ListView.cursor l))).
Proof.
  intros n visibleHeight. unfold ListView.rendered_rows. fold n.
  fold visibleHeight.
  destruct (Z.eqb_spec n 0) as [H0|H0].
  { split; [by intros i ?%elem_of_nil |].
    split; [by exists 0, 0 |]. split; [simpl; lia |]. lia. }
  split.
  { intros i (Hlo & Hhi & _)%elem_of_rows.
    pose proof (offset_nonneg (ListView.cursor l) visibleHeight). lia. }
  split; [rewrite rows_spec; by eexists _, _ |].
  split.
  { rewrite rows_spec, length_seqZ.
    pose proof (offset_nonneg (ListView.cursor l) visibleHeight). lia. }
  intros Hc. split; [by apply rows_cursor |].
  split; [by apply rows_top |].
  intros [Hv Hge]. by apply rows_last.
Qed.

(** X2 ([KanbanView.renderColumn]): a kanban column always has room for
    at least one item, so with the column cursor on an item the cursor's
    row is always among the rows drawn; the rows are consecutive indices
    of [col.items], at most [visibleItems] of them, and once the cursor
    has left the first window it is the last row drawn. *)
Theorem KanbanView_renderColumn_window (k : KanbanView.t)
    (col : KanbanView.KanbanColumn) :
  let n := len (KanbanView.items col) in
  1 ≤ KanbanView.visibleItems k ∧
  (∀ i, i ∈ KanbanView.rendered_rows k col → 0 ≤ i < n) ∧
  (∃ first count, KanbanView.rendered_rows k col = seqZ first count) ∧
  (length (KanbanView.rendered_rows k col)
     ≤ Z.to_nat (KanbanView.visibleItems k))%nat ∧
  (0 ≤ KanbanView.cursor col < n →
   KanbanView.cursor col ∈ KanbanView.rendered_rows k col ∧
   (KanbanView.visibleItems k ≤ KanbanView.cursor col →
    last (KanbanView.rendered_rows k col) = Some (KanbanView.cursor col))).
Proof.
  intros n. unfold KanbanView.rendered_rows. fold n.
  assert (1 ≤ KanbanView.visibleItems k) as Hv.
  { unfold KanbanView.visibleItems.
    destruct (Z.ltb_spec ((KanbanView.height k - 6) ÷ 3) 1); lia. }
  split; [done |]. split.
  { intros i (Hlo & Hhi & _)%elem_of_rows.
    pose proof (offset_nonneg (KanbanView.cursor col)
                  (KanbanView.visibleItems k)). lia. }
  split; [rewrite rows_spec; by eexists _, _ |].
  split; [apply length_rows; lia |].
  intros Hc. split; [by apply rows_cursor |].
  intros Hge. by apply rows_last.
Qed.

(** ** [itoa] writes the decimal numeral *)

Section itoa_decimal_facts.

Lemma decimal_value_snoc ds d :
  decimal_value (ds ++ [d]) = 10 * decimal_value ds + (d - 48).
Proof. unfold decimal_value. by rewrite foldl_app. Qed.

(** The digit loop prepends the numeral of [i] to [result]. *)
Lemma itoa_loop_digits i result :
  0 ≤ i →
  ∃ ds, itoa_loop (Z.to_nat i) i result = ds ++ result ∧
        decimal_value ds = i ∧
        Forall (λ d, 48 ≤ d ≤ 57) ds ∧
        (i = 0 → ds = []) ∧
        (0 < i → ∃ d ds', ds = d :: ds' ∧ d ≠ 48).
Proof.
  intros Hi. revert result.
  induction (Z.lt_wf 0 i) as [i _ IH]. intros result.
  rewrite itoa_loop_eq. destruct (Z.ltb_spec 0 i) as [Hpos|Hzero].
  - assert (i ÷ 10 < i) by (apply Z.quot_lt; lia).
    assert (0 ≤ i ÷ 10) by (apply Z.quot_pos; lia).
    assert (0 ≤ Z.rem i 10 < 10) by (apply Z.rem_bound_pos; lia).
    pose proof (Z.quot_rem' i 10) as Hqr.
    destruct (IH (i ÷ 10) ltac:(lia) ltac:(lia)
                 ((48 + Z.rem i 10) :: result))
      as (ds & -> & Hval & Hdigits & Hnil & Hhead).
    exists (ds ++ [48 + Z.rem i 10]).
    split; [by rewrite <- app_assoc |].
    split; [rewrite decimal_value_snoc; lia |].
    split.
    { apply Forall_app. split; [done |]. apply Forall_singleton. lia. }
    split; [lia |]. intros _.
    destruct (decide (i ÷ 10 = 0)) as [Hq|Hq].
    + rewrite (Hnil Hq). simpl. eexists _, _. split; [done |]. lia.
    + destruct Hhead as (d & ds' & -> & Hd); [lia |].
      exists d, (ds' ++ [48 + Z.rem i 10]). done.
  - exists []. split; [done |]. split; [unfold decimal_value; simpl; lia |].
    split; [done |]. split; [done |]. lia.
Qed.

End itoa_decimal_facts.

(** X3 ([itoa]): for a count [i] that is not negative, [itoa i] is the
    decimal numeral of [i]: a non-empty string of the digits '0'..'9'
    that denotes [i], with no leading zero unless [i] is 0; so different
    counts are written differently. *)
Theorem itoa_decimal (i : Z) :
  0 ≤ i →
  decimal_value (itoa i) = i ∧
  Forall (λ d, 48 ≤ d ≤ 57) (itoa i) ∧
  (∃ d ds, itoa i = d :: ds ∧ (d = 48 → i = 0 ∧ ds = [])) ∧
  (∀ j, 0 ≤ j → itoa j = itoa i → j = i).
Proof.
  assert (∀ i, 0 ≤ i →
            decimal_value (itoa i) = i ∧
            Forall (λ d, 48 ≤ d ≤ 57) (itoa i) ∧
            (∃ d ds, itoa i = d :: ds ∧ (d = 48 → i = 0 ∧ ds = [])))
    as Hitoa.
  { clear i. intros i Hi. unfold itoa.
    destruct (Z.eqb_spec i 0) as [->|Hne].
    { change (str "0") with [48]. split; [done |]. split.
      - apply Forall_singleton. lia.
      - by exists 48, []. }
    destruct (Z.ltb_spec i 0); [lia |].
    destruct (itoa_loop_digits i [] Hi)
      as (ds & -> & Hval & Hdigits & _ & Hhead).
    rewrite app_nil_r. split; [done |]. split; [done |].
    destruct Hhead as (d & ds' & -> & Hd); [lia |].
    exists d, ds'. split; [done |]. done. }
  intros Hi. destruct (Hitoa i Hi) as (Hval & Hdigits & Hshape).
  split; [done |]. split; [done |]. split; [done |].
  intros j Hj Heq. destruct (Hitoa j Hj) as (Hvalj & _).
  rewrite Heq in Hvalj. lia.
Qed.

Lemma itoa_decimal_witness :
  decimal_value (itoa 120) = 120 ∧
  Forall (λ d, 48 ≤ d ≤ 57) (itoa 120) ∧
  (∃ d ds, itoa 120 = d :: ds ∧ (d = 48 → 120 = 0 ∧ ds = [])) ∧
  (∀ j, 0 ≤ j → itoa j = itoa 120 → j = 120).
Proof. apply (itoa_decimal 120). lia. Defined.

(** ** More on the cursor *)

Section cursor_more.
Context {Item : Type} (isHeader : Item → bool) (items : list Item).

Local Abbreviation on_task := (Cursor.on_task isHeader items).
Local Abbreviation on_header := (Cursor.on_header isHeader items).
Local Abbreviation has_task := (Cursor.has_task isHeader items).
Local Abbreviation adjust := (Cursor.adjust isHeader items).
Local Abbreviation move_up := (Cursor.move_up isHeader items).
Local Abbreviation move_down := (Cursor.move_down isHeader items).

Lemma skip_forward_on_task c :
  on_task c → Cursor.skip_forward isHeader items c = Some c.
Proof.
  intros Hon. pose proof (on_task_in_range _ _ _ Hon) as Hr.
  destruct Hon as (it & Hit & Hh). rewrite skip_forward_eq.
  destruct (Z.ltb_spec c (len items)); [|lia].
  rewrite Hit. simpl. by rewrite Hh.
Qed.

Lemma has_task_dec : has_task ∨ ¬ has_task.
Proof.
  destruct (decide (Exists (λ it, isHeader it = false) items)) as [He|He].
  - left. by apply Exists_exists in He.
  - right. intros Hhas. apply He. by apply Exists_exists.
Qed.

(** A cursor that is on a task is left where it is. *)
Lemma adjust_on_task c : on_task c → adjust c = Some c.
Proof.
  intros Hon. pose proof (on_task_in_range _ _ _ Hon) as Hr.
  unfold Cursor.adjust.
  destruct (Z.eqb_spec (len items) 0); [lia |].
  destruct (Z.geb_spec c (len items)); [lia |].
  rewrite (skip_forward_on_task c Hon). simpl.
  destruct (Z.geb_spec c (len items)); [lia |]. simpl.
  destruct (Z.ltb_spec c 0); [lia | done].
Qed.

(** With no task among the items the cursor is put at 0. *)
Lemma adjust_no_task c : 0 ≤ c → ¬ has_task → adjust c = Some 0.
Proof.
  intros Hc Hno. destruct (adjust_spec isHeader items c Hc)
    as (c' & Hadj & Hc' & Hnil & _).
  rewrite Hadj. f_equal. revert Hadj. unfold Cursor.adjust.
  pose proof (len_nonneg items).
  destruct (Z.eqb_spec (len items) 0); [by intros [= <-] |].
  set (c0 := if c >=? len items then len items - 1 else c).
  assert (0 ≤ c0 < len items) as Hc0.
  { unfold c0. destruct (Z.geb_spec c (len items)); lia. }
  destruct (skip_forward_spec isHeader items c0)
    as (c1 & -> & Hle1 & _ & Htask1); [lia |]. simpl.
  destruct (Z.geb_spec c1 (len items)) as [Hge|Hlt].
  - destruct (last_task_spec isHeader items)
      as (c2 & -> & Hle2 & _ & Htask2). simpl.
    destruct (Z.ltb_spec c2 0); [by intros [= <-] |].
    exfalso. apply Hno. apply has_task_on_task. exists c2.
    apply Htask2. lia.
  - exfalso. apply Hno. apply has_task_on_task. exists c1.
    apply Htask1. lia.
Qed.

(** A negative cursor over items makes the header test fail. *)
Lemma adjust_negative c : c < 0 → items ≠ [] → adjust c = None.
Proof.
  intros Hc Hne. unfold Cursor.adjust. pose proof (len_nonneg items).
  destruct (Z.eqb_spec (len items) 0) as [H0|H0].
  { by apply len_zero_nil in H0. }
  destruct (Z.geb_spec c (len items)); [lia |].
  rewrite skip_forward_eq. destruct (Z.ltb_spec c (len items)); [|lia].
  unfold at_index. destruct (Z.ltb_spec c 0); [done | lia].
Qed.

Lemma adjust_idempotent c c' : adjust c = Some c' → adjust c' = Some c'.
Proof.
  intros Hadj. destruct (decide (items = [])) as [Hnil|Hne].
  { revert Hadj. unfold Cursor.adjust. rewrite Hnil. simpl.
    by intros [= <-]. }
  destruct (decide (c < 0)) as [Hneg|Hpos].
  { by rewrite adjust_negative in Hadj. }
  destruct (adjust_spec isHeader items c) as (c'' & Hadj' & Hc' & _ & Hon);
    [lia |].
  assert (c'' = c') as -> by congruence.
  destruct has_task_dec as [Hhas|Hno].
  - apply adjust_on_task. by apply Hon.
  - rewrite adjust_no_task in Hadj by (done || lia).
    injection Hadj as <-. by apply adjust_no_task.
Qed.

(** Starting from 0, the cursor stops on the first task. *)
Lemma adjust_zero_first c' :
  adjust 0 = Some c' →
  (on_task c' ∧ ∀ j, 0 ≤ j < c' → on_header j) ∨ (c' = 0 ∧ ¬ has_task).
Proof.
  destruct has_task_dec as [Hhas|Hno].
  2:{ rewrite adjust_no_task by done. intros [= <-]. by right. }
  intros Hadj. left. revert Hadj. unfold Cursor.adjust.
  pose proof (len_nonneg items).
  destruct (Z.eqb_spec (len items) 0) as [H0|H0].
  { apply has_task_on_task in Hhas as (c & Hon%on_task_in_range). lia. }
  destruct (Z.geb_spec 0 (len items)); [lia |].
  destruct (skip_forward_spec isHeader items 0)
    as (c1 & -> & Hle1 & Hhdr1 & Htask1); [lia |]. simpl.
  destruct (Z.geb_spec c1 (len items)) as [Hge|Hlt].
  - exfalso. apply has_task_on_task in Hhas as (c & Hon).
    pose proof (on_task_in_range _ _ _ Hon).
    eapply on_header_not_task; [|exact Hon]. apply Hhdr1. lia.
  - simpl. destruct (Z.ltb_spec c1 0); [lia |]. intros [= <-].
    split; [apply Htask1; lia | done].
Qed.

(** Down and back up, up and back down. *)
Lemma move_down_up c :
  on_task c →
  ∃ c', move_down c = Some c' ∧
        ((c < c' ∧ move_up c' = Some c) ∨
         (c' = c ∧ ∀ j, c < j → ¬ on_task j)).
Proof.
  intros Hon.
  destruct (move_down_spec isHeader items c Hon)
    as (c' & Hdown & Hon' & [[Hlt Hbetween]|[-> Hnone]]).
  2:{ exists c. split; [done |]. by right. }
  exists c'. split; [done |]. left. split; [done |].
  destruct (move_up_spec isHeader items c' Hon')
    as (c'' & Hup & Hon'' & [[Hlt' Hbetween']|[-> Hnone']]).
  - rewrite Hup. f_equal.
    destruct (decide (c'' < c)) as [Hlo|Hlo].
    { exfalso. apply (Hbetween' c); [lia | done]. }
    destruct (decide (c < c'')) as [Hhi|Hhi]; [|lia].
    exfalso. apply (Hbetween c''); [lia | done].
  - exfalso. by apply (Hnone' c).
Qed.

Lemma move_up_down c :
  on_task c →
  ∃ c', move_up c = Some c' ∧
        ((c' < c ∧ move_down c' = Some c) ∨
         (c' = c ∧ ∀ j, j < c → ¬ on_task j)).
Proof.
  intros Hon.
  destruct (move_up_spec isHeader items c Hon)
    as (c' & Hup & Hon' & [[Hlt Hbetween]|[-> Hnone]]).
  2:{ exists c. split; [done |]. by right. }
  exists c'. split; [done |]. left. split; [done |].
  destruct (move_down_spec isHeader items c' Hon')
    as (c'' & Hdown & Hon'' & [[Hlt' Hbetween']|[-> Hnone']]).
  - rewrite Hdown. f_equal.
    destruct (decide (c < c'')) as [Hhi|Hhi].
    { exfalso. apply (Hbetween' c); [lia | done]. }
    destruct (decide (c'' < c)) as [Hlo|Hlo]; [|lia].
    exfalso. apply (Hbetween c''); [lia | done].
  - exfalso. by apply (Hnone' c).
Qed.

End cursor_more.

Section cursor_views.

Lemma ListView_set_cursor_same l : ListView.set_cursor l (ListView.cursor l) = l.
Proof. by destruct l. Qed.

End cursor_views.

(** X4 ([ListView.adjustCursor], [KanbanView.adjustColumnCursor]):
    re-clamping the cursor changes nothing when the cursor is on a task,
    and in any case a second re-clamping changes nothing more. *)
Theorem adjustCursor_stable :
  (∀ l, ListView.on_task l → ListView.adjustCursor l = Some l) ∧
  (∀ l l', ListView.adjustCursor l = Some l' →
           ListView.adjustCursor l' = Some l') ∧
  (∀ k colIdx col,
     KanbanView.get_col (KanbanView.columns k) colIdx = Some col →
     KanbanView.col_on_task col →
     KanbanView.adjustColumnCursor k colIdx = Some k) ∧
  (∀ k colIdx k',
     KanbanView.adjustColumnCursor k colIdx = Some k' →
     KanbanView.adjustColumnCursor k' colIdx = Some k').
Proof.
  split; [|split; [|split]].
  - intros l Hon. unfold ListView.adjustCursor.
    rewrite adjust_on_task by done. simpl.
    by rewrite ListView_set_cursor_same.
  - intros l l'. unfold ListView.adjustCursor.
    destruct (Cursor.adjust ListView.isHeader (ListView.items l)
                (ListView.cursor l)) as [c|] eqn:Hadj; [|done].
    simpl. intros [= <-]. simpl.
    rewrite (adjust_idempotent _ _ _ _ Hadj). done.
  - intros k colIdx col Hcol Hon. unfold KanbanView.adjustColumnCursor.
    apply (on_column_id _ _ _ col); [done |].
    unfold KanbanView.adjust_column.
    rewrite adjust_on_task by done. simpl. by destruct col.
  - intros k colIdx k'.
    unfold KanbanView.adjustColumnCursor, KanbanView.on_column.
    destruct (KanbanView.get_col (KanbanView.columns k) colIdx)
      as [col|] eqn:Hcol; [|done]. simpl.
    unfold KanbanView.adjust_column at 1.
    destruct (Cursor.adjust KanbanView.isHeader (KanbanView.items col)
                (KanbanView.cursor col)) as [c|] eqn:Hadj; [|done].
    simpl.
    destruct (KanbanView.set_col (KanbanView.columns k) colIdx _)
      as [cols|] eqn:Hset; [|done]. simpl. intros [= <-]. simpl.
    rewrite (get_set_col _ _ _ colIdx _ Hset).
    rewrite decide_True by done. simpl.
    unfold KanbanView.adjust_column. simpl.
    rewrite (adjust_idempotent _ _ _ _ Hadj). simpl.
    assert (KanbanView.set_col cols colIdx
              (KanbanView.mkCol (KanbanView.status col)
                 (KanbanView.col_tasks col) (KanbanView.items col) c)
            = Some cols) as ->.
    { apply set_col_same. rewrite (get_set_col _ _ _ colIdx _ Hset).
      by rewrite decide_True. }
    done.
Qed.

(** X5 ([ListView.MoveDown], [ListView.MoveUp]): from a cursor on a
    task, [MoveDown] either moves to a later task, from which [MoveUp]
    leads back to where the cursor was, or leaves the view as it is, and
    then no task lies below; and the same with the two exchanged. *)
Theorem ListView_MoveDown_MoveUp (l : ListView.t) :
  ListView.on_task l →
  (∃ l', ListView.MoveDown l = Some l' ∧
     ((ListView.cursor l < ListView.cursor l' ∧
       ListView.MoveUp l' = Some l) ∨
      (l' = l ∧
       ∀ j, ListView.cursor l < j →
            ¬ Cursor.on_task ListView.isHeader (ListView.items l) j))) ∧
  (∃ l', ListView.MoveUp l = Some l' ∧
     ((ListView.cursor l' < ListView.cursor l ∧
       ListView.MoveDown l' = Some l) ∨
      (l' = l ∧
       ∀ j, j < ListView.cursor l →
            ¬ Cursor.on_task ListView.isHeader (ListView.items l) j))).
Proof.
  intros Hon. split.
  - destruct (move_down_up _ _ _ Hon) as (c' & Hdown & Hcase).
    exists (ListView.set_cursor l c'). unfold ListView.MoveDown.
    rewrite Hdown. split; [done |].
    destruct Hcase as [[Hlt Hup]|[-> Hnone]].
    + left. split; [done |]. unfold ListView.MoveUp.
      change (ListView.items (ListView.set_cursor l c'))
        with (ListView.items l).
      change (ListView.cursor (ListView.set_cursor l c')) with c'.
      rewrite Hup. by destruct l.
    + right. by rewrite ListView_set_cursor_same.
  - destruct (move_up_down _ _ _ Hon) as (c' & Hup & Hcase).
    exists (ListView.set_cursor l c'). unfold ListView.MoveUp.
    rewrite Hup. split; [done |].
    destruct Hcase as [[Hlt Hdown]|[-> Hnone]].
    + left. split; [done |]. unfold ListView.MoveDown.
      change (ListView.items (ListView.set_cursor l c'))
        with (ListView.items l).
      change (ListView.cursor (ListView.set_cursor l c')) with c'.
      rewrite Hdown. by destruct l.
    + right. by rewrite ListView_set_cursor_same.
Qed.

Lemma ListView_MoveDown_MoveUp_witness :
  (∃ l', ListView.MoveDown Sample.striped = Some l' ∧
     ((ListView.cursor Sample.striped < ListView.cursor l' ∧
       ListView.MoveUp l' = Some Sample.striped) ∨
      (l' = Sample.striped ∧
       ∀ j, ListView.cursor Sample.striped < j →
            ¬ Cursor.on_task ListView.isHeader
                (ListView.items Sample.striped) j))) ∧
  (∃ l', ListView.MoveUp Sample.striped = Some l' ∧
     ((ListView.cursor l' < ListView.cursor Sample.striped ∧
       ListView.MoveDown l' = Some Sample.striped) ∨
      (l' = Sample.striped ∧
       ∀ j, j < ListView.cursor Sample.striped →
            ¬ Cursor.on_task ListView.isHeader
                (ListView.items Sample.striped) j))).
Proof.
  apply (ListView_MoveDown_MoveUp Sample.striped).
  by exists (ListView.TaskRef 0).
Defined.

(** ** More on the list view *)

Section list_view_more.
Context (unicode_ToLower : rune → rune).
Import ListView.

Local Abbreviation valid l :=
  (Forall (λ idx, is_Some (at_index (tasks l) idx)) (filtered l)).

(** The items the organizer builds from [l.filtered]. *)
Local Abbreviation organized l :=
  (if decide (groupBy l = model.GroupByNone)
   then TaskRef <$> filtered l
   else group_order l ≫= group_block l).

Lemma organizeItems_organized l :
  valid l → organizeItems l = Some (set_items l (organized l)).
Proof.
  intros Hvalid. destruct (decide (groupBy l = model.GroupByNone)).
  - by apply organizeItems_none.
  - by apply organizeItems_grouped.
Qed.

Lemma group_order_keys l k : k ∈ group_order l → k ∈ group_keys l.
Proof.
  unfold group_order.
  destruct (groupBy l).
  - apply elem_of_first_occurrences.
  - by intros [? _]%list_elem_of_filter.
  - by intros [? _]%list_elem_of_filter.
  - apply elem_of_first_occurrences.
Qed.

Lemma group_order_members l k : k ∈ group_order l → group_members l k ≠ [].
Proof.
  intros Hk%group_order_keys Hnil.
  apply members_nil_iff in Hnil. by apply Hnil.
Qed.

(** What the organizer builds is empty or shows a task. *)
Lemma organized_has_task l :
  organized l = [] ∨ Cursor.has_task isHeader (organized l).
Proof.
  destruct (decide (groupBy l = model.GroupByNone)).
  - destruct (filtered l) as [|idx idxs]; [by left | right].
    exists (TaskRef idx). split; [|done]. simpl. left.
  - destruct (group_order l) as [|k order] eqn:Horder; [by left | right].
    pose proof (group_order_members l k) as Hne.
    destruct (group_members l k) as [|idx idxs] eqn:Hmem.
    { exfalso. apply Hne; [|done]. rewrite Horder. left. }
    exists (TaskRef idx). split; [|done].
    apply list_elem_of_bind. exists k. split; [|left].
    unfold group_block. rewrite Hmem. simpl. right. left.
Qed.

Lemma reachable_cursor l : reachable l → 0 ≤ cursor l.
Proof.
  intros (_ & _ & [Hon%on_task_in_range | [_ ->]]); lia.
Qed.

(** Organizing and then re-clamping the cursor leaves the view in a
    reachable state. *)
Lemma organize_adjust_reachable l c0 :
  valid l → 0 ≤ c0 →
  ∃ c, adjustCursor (set_cursor (set_items l (organized l)) c0)
       = Some (set_cursor (set_items l (organized l)) c) ∧
       reachable (set_cursor (set_items l (organized l)) c).
Proof.
  intros Hvalid Hc0.
  destruct (adjustCursor_total (set_cursor (set_items l (organized l)) c0))
    as (c & Hadj & Hon); [by right |].
  exists c. split; [done |]. split; [done |].
  split; [apply organized_refs_filtered |].
  destruct (organized_has_task l) as [Hnil|Hhas].
  - right. split; [done |]. revert Hadj. unfold adjustCursor. simpl.
    rewrite Hnil. simpl. by intros [= <-].
  - left. by apply Hon.
Qed.

Lemma SetTasks_reachable l ts :
  0 ≤ cursor l →
  ∃ l', SetTasks unicode_ToLower l ts = Some l' ∧ reachable l' ∧
        tasks l' = ts ∧ filter l' = filter l ∧ groupBy l' = groupBy l.
Proof.
  intros Hc. unfold SetTasks.
  set (l1 := applyFilter unicode_ToLower (set_tasks l ts)).
  assert (valid l1) as Hvalid
    by exact (applyFilter_valid unicode_ToLower (set_tasks l ts)).
  rewrite (organizeItems_organized l1 Hvalid).
  destruct (organize_adjust_reachable l1 (cursor l1) Hvalid Hc)
    as (c & Hadj & Hreach).
  eexists. split; [exact Hadj |]. by split.
Qed.

Lemma SetFilter_reachable l flt :
  ∃ l', SetFilter unicode_ToLower l flt = Some l' ∧ reachable l' ∧
        tasks l' = tasks l ∧ groupBy l' = groupBy l ∧
        filter l' = strings.ToLower unicode_ToLower flt.
Proof.
  unfold SetFilter.
  set (l1 := applyFilter unicode_ToLower
               (set_filter l (strings.ToLower unicode_ToLower flt))).
  assert (valid l1) as Hvalid
    by exact (applyFilter_valid unicode_ToLower
                (set_filter l (strings.ToLower unicode_ToLower flt))).
  rewrite (organizeItems_organized l1 Hvalid).
  destruct (organize_adjust_reachable l1 0 Hvalid ltac:(lia))
    as (c & Hadj & Hreach).
  eexists. split; [exact Hadj |]. by split.
Qed.

Lemma SetGroupBy_reachable l g :
  reachable l →
  ∃ l', SetGroupBy l g = Some l' ∧ reachable l' ∧
        tasks l' = tasks l ∧ filter l' = filter l ∧ groupBy l' = g.
Proof.
  intros Hreach. pose proof (reachable_cursor l Hreach) as Hc.
  destruct Hreach as (Hvalid & _). unfold SetGroupBy.
  set (l1 := set_groupBy l g).
  rewrite (organizeItems_organized l1 Hvalid).
  destruct (organize_adjust_reachable l1 (cursor l1) Hvalid Hc)
    as (c & Hadj & Hreach).
  eexists. split; [exact Hadj |]. by split.
Qed.

Lemma MoveUp_reachable l :
  reachable l →
  ∃ l', MoveUp l = Some l' ∧ reachable l' ∧
        tasks l' = tasks l ∧ filter l' = filter l ∧ groupBy l' = groupBy l.
Proof.
  intros (Hvalid & Hrefs & [Hon | [Hnil Hzero]]); unfold MoveUp.
  - destruct (move_up_spec isHeader (items l) (cursor l) Hon)
      as (c & -> & Hon' & _).
    eexists. split; [done |]. split; [|done]. split; [done |].
    split; [done |]. by left.
  - rewrite Hzero, Hnil. eexists. split; [done |]. split; [|done].
    split; [done |]. split; [done |]. right. by split.
Qed.

Lemma MoveDown_reachable l :
  reachable l →
  ∃ l', MoveDown l = Some l' ∧ reachable l' ∧
        tasks l' = tasks l ∧ filter l' = filter l ∧ groupBy l' = groupBy l.
Proof.
  intros (Hvalid & Hrefs & [Hon | [Hnil Hzero]]); unfold MoveDown.
  - destruct (move_down_spec isHeader (items l) (cursor l) Hon)
      as (c & -> & Hon' & _).
    eexists. split; [done |]. split; [|done]. split; [done |].
    split; [done |]. by left.
  - rewrite Hzero, Hnil. eexists. split; [done |]. split; [|done].
    split; [done |]. split; [done |]. right. by split.
Qed.

Lemma elem_of_task_refs its idx :
  idx ∈ task_refs its ↔
  ∃ item, item ∈ its ∧ isHeader item = false ∧ taskIndex item = idx.
Proof.
  unfold task_refs. rewrite list_elem_of_fmap. split.
  - intros (item & -> & [Hh Hin]%list_elem_of_filter). by exists item.
  - intros (item & Hin & Hh & <-). exists item. split; [done |].
    by apply list_elem_of_filter.
Qed.

(** In a reachable state the item under the cursor, if any, refers to a
    filtered task of the collection. *)
Lemma reachable_item l i item :
  reachable l → at_index (items l) i = Some item → isHeader item = false →
  taskIndex item ∈ filtered l ∧
  is_Some (at_index (tasks l) (taskIndex item)).
Proof.
  intros (Hvalid & Hrefs & _) Hitem Hh.
  assert (taskIndex item ∈ filtered l) as Hin.
  { apply Hrefs, elem_of_task_refs. exists item.
    split; [by eapply at_index_elem_of | done]. }
  split; [done |]. rewrite Forall_forall in Hvalid. by apply Hvalid.
Qed.

Lemma SelectedTask_reachable l :
  reachable l →
  ∃ sel, SelectedTask l = Some sel ∧
    (sel = None ↔ items l = []) ∧
    (SelectedIndex l = -1 ↔ items l = []) ∧
    ∀ i task, sel = Some (i, task) →
      SelectedIndex l = i ∧ i ∈ filtered l ∧
      at_index (tasks l) i = Some task.
Proof.
  intros Hreach. pose proof Hreach as (Hvalid & Hrefs & Hcur).
  unfold SelectedTask, SelectedIndex.
  destruct Hcur as [Hon | [Hnil Hzero]].
  - pose proof (on_task_in_range _ _ _ Hon) as Hr.
    destruct Hon as (item & Hitem & Hh).
    destruct (Z.eqb_spec (len (items l)) 0); [lia |].
    destruct (Z.leb_spec 0 (cursor l)); [|lia].
    destruct (Z.ltb_spec (cursor l) (len (items l))); [|lia]. simpl.
    rewrite Hitem, Hh.
    destruct (reachable_item l _ item Hreach Hitem Hh)
      as (Hin & task & Htask).
    rewrite Htask. simpl. eexists. split; [done |].
    assert (items l ≠ []) as Hne.
    { intros Hnil. rewrite Hnil in Hitem. unfold at_index in Hitem.
      by destruct (cursor l <? 0). }
    split; [by split |].
    split.
    { split; [|done]. intros Hneg. exfalso.
      apply at_index_in_range in Htask. lia. }
    by intros i t [= <- <-].
  - rewrite Hnil. simpl. exists None. split; [done |].
    split; [done |]. split; [done |]. done.
Qed.

Lemma rendered_rows_reachable l i :
  reachable l → i ∈ rendered_rows l →
  ∃ item, at_index (items l) i = Some item ∧
          (isHeader item = false →
           is_Some (at_index (tasks l) (taskIndex item))).
Proof.
  intros Hreach Hi.
  assert (0 ≤ i < len (items l)) as Hrange.
  { revert Hi. unfold rendered_rows.
    destruct (Z.eqb_spec (len (items l)) 0); [by intros ?%elem_of_nil |].
    intros (Hlo & Hhi & _)%elem_of_rows.
    pose proof (offset_nonneg (cursor l) (height l - 2)). lia. }
  destruct (at_index_is_Some (items l) i Hrange) as [item Hitem].
  exists item. split; [done |]. intros Hh.
  by destruct (reachable_item l _ item Hreach Hitem Hh).
Qed.

End list_view_more.

Section list_view_selection.
Context (unicode_ToLower : rune → rune).
Import ListView.

Lemma at_index_cons_succ {A} (x : A) (s : list A) i :
  0 ≤ i → at_index (x :: s) (i + 1) = at_index s i.
Proof.
  intros Hi. unfold at_index.
  destruct (Z.ltb_spec (i + 1) 0); [lia |].
  destruct (Z.ltb_spec i 0); [lia |].
  replace (Z.to_nat (i + 1)) with (S (Z.to_nat i)) by lia. done.
Qed.

(** The first task reference is that of the first item that is no
    header. *)
Lemma task_refs_first its c item :
  at_index its c = Some item → isHeader item = false →
  (∀ j, 0 ≤ j < c → Cursor.on_header isHeader its j) →
  head (task_refs its) = Some (taskIndex item).
Proof.
  intros Hitem Hh. pose proof (at_index_in_range _ _ _ Hitem) as [Hc _].
  revert Hitem. rewrite <- (Z2Nat.id c Hc). clear Hc.
  generalize (Z.to_nat c) as n. clear c. intros n. revert its.
  induction n as [|n IH]; intros its Hitem Hhdr.
  - destruct its as [|x its]; [done |].
    injection Hitem as ->. unfold task_refs.
    rewrite filter_cons_True by done. done.
  - destruct its as [|x its]; [done |].
    replace (Z.of_nat (S n)) with (Z.of_nat n + 1) in * by lia.
    rewrite at_index_cons_succ in Hitem by lia.
    destruct (Hhdr 0) as (x' & [= <-] & Hx); [lia |].
    unfold task_refs. rewrite filter_cons_False by (by rewrite Hx).
    apply IH; [done |]. intros j Hj.
    destruct (Hhdr (j + 1)) as (y & Hy & Hyh); [lia |].
    rewrite at_index_cons_succ in Hy by lia. by exists y.
Qed.

Lemma task_refs_no_task its :
  ¬ Cursor.has_task isHeader its → task_refs its = [].
Proof.
  intros Hno. unfold task_refs.
  destruct (base.filter (λ it, isHeader it = false) its) as [|x xs] eqn:Hf;
    [done |].
  exfalso. apply Hno. exists x.
  assert (x ∈ base.filter (λ it, isHeader it = false) its) as Hin
    by (rewrite Hf; left).
  apply list_elem_of_filter in Hin as [? ?]. done.
Qed.

(** The selection of a view whose cursor was re-clamped from 0. *)
Lemma SelectedIndex_first l c :
  Cursor.adjust isHeader (items l) 0 = Some c →
  SelectedIndex (set_cursor l c) = default (-1) (head (task_refs (items l)))
  ∧ ((∀ item, item ∈ items l → isHeader item = false) → c = 0).
Proof.
  intros [[Hon Hhdr] | [-> Hno]]%adjust_zero_first.
  - pose proof (on_task_in_range _ _ _ Hon) as Hr.
    destruct Hon as (item & Hitem & Hh).
    rewrite (task_refs_first _ _ _ Hitem Hh Hhdr). simpl.
    split.
    + unfold SelectedIndex. simpl.
      destruct (Z.eqb_spec (len (items l)) 0); [lia |].
      destruct (Z.leb_spec 0 c); [|lia].
      destruct (Z.ltb_spec c (len (items l))); [|lia]. simpl.
      by rewrite Hitem, Hh.
    + intros Hall. destruct (decide (c = 0)) as [|Hne]; [done |].
      destruct (Hhdr 0) as (x & Hx & Hxh); [lia |].
      apply at_index_elem_of in Hx. rewrite (Hall x Hx) in Hxh. done.
  - rewrite (task_refs_no_task _ Hno). simpl. split; [|done].
    unfold SelectedIndex. simpl.
    destruct (Z.eqb_spec (len (items l)) 0); [done |].
    pose proof (len_nonneg (items l)).
    destruct (Z.ltb_spec 0 (len (items l))); [|lia]. simpl.
    destruct (at_index (items l) 0) as [item|] eqn:Hitem; [|done].
    destruct (isHeader item) eqn:Hh; [done |].
    exfalso. apply Hno. exists item.
    split; [by eapply at_index_elem_of | done].
Qed.

Lemma sublist_of_fmap {A B} (f : A → B) (l1 l2 : list A) :
  l1 `sublist_of` l2 → f <$> l1 `sublist_of` f <$> l2.
Proof. induction 1; simpl; by constructor. Qed.

Lemma seqZ_indices n : seqZ 0 (Z.of_nat n) = Z.of_nat <$> seq 0 n.
Proof.
  unfold seqZ. rewrite Nat2Z.id. apply list_fmap_ext. intros _ i _. lia.
Qed.

Lemma filter_all {A} (P : A → Prop) `{!∀ x, Decision (P x)} (xs : list A) :
  Forall P xs → base.filter P xs = xs.
Proof.
  induction 1 as [|x xs Hx _ IH]; [done |].
  rewrite filter_cons_True by done. by rewrite IH.
Qed.

Lemma length_filter_all {A} (P : A → Prop) `{!∀ x, Decision (P x)}
    (xs : list A) :
  length (base.filter P xs) = length xs → Forall P xs.
Proof.
  induction xs as [|x xs IH]; [done |].
  destruct (decide (P x)) as [Hx|Hx].
  - rewrite filter_cons_True by done. simpl. intros [= Hlen].
    constructor; [done | by apply IH].
  - rewrite filter_cons_False by done. simpl. intros Hlen.
    pose proof (length_filter P xs). lia.
Qed.

Lemma Forall_indexed {A} (P : A → Prop) (s : list A) :
  Forall (λ it : Z * A, P it.2) (indexed s) ↔ Forall P s.
Proof.
  rewrite !Forall_forall. split.
  - intros Hall x [i Hi]%elem_of_at_index.
    apply (Hall (i, x)). by apply elem_of_indexed.
  - intros Hall [i x] Hin%elem_of_indexed. simpl.
    apply Hall. by eapply at_index_elem_of.
Qed.

Lemma length_indexed {A} (s : list A) : length (indexed s) = length s.
Proof. unfold indexed. by rewrite length_imap. Qed.

(** The empty filter keeps every task. *)
Lemma SetFilter_empty_count l l' :
  SetFilter unicode_ToLower l [] = Some l' → Count l' = TotalCount l'.
Proof.
  destruct (ListView_SetFilter_spec unicode_ToLower l [])
    as (l'' & Hset & Htasks & _ & Hfiltered & _).
  intros Hset'. assert (l'' = l') as -> by congruence.
  unfold Count, TotalCount. rewrite Htasks, Hfiltered.
  rewrite (applyFilter_filtered unicode_ToLower
             (set_filter l (strings.ToLower unicode_ToLower []))).
  rewrite filter_all.
  - unfold len. by rewrite length_fmap, length_indexed.
  - apply Forall_forall. by intros [i task] _.
Qed.

End list_view_selection.

(** X6 ([ListView.SetFilter]): after a filter is set the selection is
    the first task shown, or none when no task is shown; without
    grouping the cursor is at 0 and the selection is the first task that
    passed the filter. *)
Theorem ListView_SetFilter_selects_first (unicode_ToLower : rune → rune)
    (l : ListView.t) (flt : gostring) :
  ∃ l', ListView.SetFilter unicode_ToLower l flt = Some l' ∧
    ListView.SelectedIndex l'
      = default (-1) (head (ListView.task_refs (ListView.items l'))) ∧
    (ListView.groupBy l = model.GroupByNone →
     ListView.cursor l' = 0 ∧
     ListView.SelectedIndex l'
       = default (-1) (head (ListView.filtered l'))).
Proof.
  unfold ListView.SetFilter.
  rewrite (organizeItems_applyFilter unicode_ToLower
             (ListView.set_filter l (strings.ToLower unicode_ToLower flt))).
  set (l1 := ListView.applyFilter unicode_ToLower
               (ListView.set_filter l
                  (strings.ToLower unicode_ToLower flt))).
  change (ListView.groupBy
            (ListView.set_filter l (strings.ToLower unicode_ToLower flt)))
    with (ListView.groupBy l).
  set (its := if decide (ListView.groupBy l = model.GroupByNone)
              then ListView.TaskRef <$> ListView.filtered l1
              else ListView.group_order l1 ≫= ListView.group_block l1).
  simpl. unfold ListView.adjustCursor. simpl.
  destruct (Cursor.adjust ListView.isHeader its 0) as [c|] eqn:Hadj.
  2:{ exfalso.
      destruct (adjust_spec ListView.isHeader its 0) as (c & Hc & _);
        [lia | congruence]. }
  simpl. eexists. split; [done |].
  destruct (SelectedIndex_first
              (ListView.set_cursor (ListView.set_items l1 its) 0) c Hadj)
    as (Hsel & Hzero).
  split; [exact Hsel |]. intros Hnone. simpl.
  assert (its = ListView.TaskRef <$> ListView.filtered l1) as Hits.
  { unfold its. by rewrite decide_True. }
  split.
  - apply Hzero. simpl. rewrite Hits.
    by intros item (idx & -> & _)%list_elem_of_fmap.
  - change (ListView.SelectedIndex
              (ListView.set_cursor
                 (ListView.set_cursor (ListView.set_items l1 its) 0) c)
            = default (-1) (head (ListView.filtered l1))).
    rewrite Hsel. simpl. rewrite Hits. by rewrite task_refs_TaskRef.
Qed.

(** X7 (the list view's operations): the fresh list view is in a
    reachable state, and from a reachable state [SetTasks], [SetFilter],
    [SetGroupBy], [CycleGroupBy], [MoveUp], [MoveDown] and [SetSize] all
    return (no index is out of range) and leave a reachable state; there
    [SelectedTask] returns, it returns no task only when nothing is
    shown, the task it returns is the one [SelectedIndex] names and has
    passed the filter, and every row [Render] draws exists and refers to a
    task of the collection. *)
Theorem ListView_reachable_invariant (unicode_ToLower : rune → rune) :
  ListView.reachable ListView.NewListView ∧
  ∀ l, ListView.reachable l →
    (∀ ts, ∃ l', ListView.SetTasks unicode_ToLower l ts = Some l' ∧
                 ListView.reachable l') ∧
    (∀ flt, ∃ l', ListView.SetFilter unicode_ToLower l flt = Some l' ∧
                  ListView.reachable l') ∧
    (∀ g, ∃ l', ListView.SetGroupBy l g = Some l' ∧
                ListView.reachable l') ∧
    (∃ l', ListView.CycleGroupBy l = Some l' ∧ ListView.reachable l') ∧
    (∃ l', ListView.MoveUp l = Some l' ∧ ListView.reachable l') ∧
    (∃ l', ListView.MoveDown l = Some l' ∧ ListView.reachable l') ∧
    (∀ w h, ListView.reachable (ListView.SetSize l w h)) ∧
    (∃ sel, ListView.SelectedTask l = Some sel ∧
       (sel = None ↔ ListView.items l = []) ∧
       (ListView.SelectedIndex l = -1 ↔ ListView.items l = []) ∧
       ∀ i task, sel = Some (i, task) →
         ListView.SelectedIndex l = i ∧ i ∈ ListView.filtered l ∧
         at_index (ListView.tasks l) i = Some task) ∧
    (∀ i, i ∈ ListView.rendered_rows l →
       ∃ item, at_index (ListView.items l) i = Some item ∧
               (ListView.isHeader item = false →
                is_Some (at_index (ListView.tasks l)
                                  (ListView.taskIndex item)))).
Proof.
  split.
  { split; [by apply Forall_nil |]. split; [|by right].
    by intros idx ?%elem_of_nil. }
  intros l Hreach. pose proof (reachable_cursor l Hreach) as Hc.
  split.
  { intros ts.
    destruct (SetTasks_reachable unicode_ToLower l ts Hc)
      as (l' & ? & ? & _). by exists l'. }
  split.
  { intros flt.
    destruct (SetFilter_reachable unicode_ToLower l flt)
      as (l' & ? & ? & _). by exists l'. }
  split.
  { intros g.
    destruct (SetGroupBy_reachable l g Hreach) as (l' & ? & ? & _).
    by exists l'. }
  split.
  { destruct (SetGroupBy_reachable l
                (model.GroupBy_Next (ListView.groupBy l)) Hreach)
      as (l' & ? & ? & _). by exists l'. }
  split.
  { destruct (MoveUp_reachable l Hreach) as (l' & ? & ? & _).
    by exists l'. }
  split.
  { destruct (MoveDown_reachable l Hreach) as (l' & ? & ? & _).
    by exists l'. }
  split; [intros w h; exact Hreach |].
  split; [by apply SelectedTask_reachable |].
  intros i Hi. by apply rendered_rows_reachable.
Qed.

(** X8 ([ListView.applyFilter], [Count], [TotalCount]): the filtered
    indices are the indices of the collection with some left out, so the
    tasks shown keep their order and none is shown twice; [Count] is at
    most [TotalCount], the two are equal exactly when every task passes
    the filter, and the empty filter keeps every task. *)
Theorem ListView_SetFilter_count (unicode_ToLower : rune → rune)
    (l : ListView.t) (flt : gostring) :
  ∃ l', ListView.SetFilter unicode_ToLower l flt = Some l' ∧
    ListView.TotalCount l' = len (ListView.tasks l) ∧
    ListView.filtered l' `sublist_of` seqZ 0 (ListView.TotalCount l') ∧
    0 ≤ ListView.Count l' ≤ ListView.TotalCount l' ∧
    (ListView.Count l' = ListView.TotalCount l' ↔
     ∀ task, task ∈ ListView.tasks l →
             ListView.passes unicode_ToLower flt task) ∧
    (ListView.Count l' = ListView.TotalCount l' →
     ListView.filtered l' = seqZ 0 (ListView.TotalCount l')) ∧
    (flt = [] → ListView.Count l' = ListView.TotalCount l').
Proof.
  destruct (ListView_SetFilter_spec unicode_ToLower l flt)
    as (l' & Hset & Htasks & _ & Hfiltered & _).
  exists l'. split; [done |].
  set (l0 := ListView.set_filter l (strings.ToLower unicode_ToLower flt))
    in *.
  unfold ListView.TotalCount, ListView.Count. rewrite Htasks, Hfiltered.
  rewrite (applyFilter_filtered unicode_ToLower l0).
  change (ListView.tasks l0) with (ListView.tasks l).
  set (P := λ it : Z * model.Task,
              ListView.matchesFilter unicode_ToLower l0 it.2 = true).
  assert (seqZ 0 (len (ListView.tasks l)) = (indexed (ListView.tasks l)).*1)
    as Hall.
  { rewrite fst_indexed. unfold len. apply seqZ_indices. }
  assert (len (filter P (indexed (ListView.tasks l))).*1
          = len (ListView.tasks l) ↔
          Forall P (indexed (ListView.tasks l))) as Hiff.
  { unfold len. rewrite length_fmap. unfold P. split.
    - intros Hlen%Nat2Z.inj.
      rewrite <- (length_indexed (ListView.tasks l)) in Hlen.
      eapply length_filter_all. exact Hlen.
    - intros Hforall. rewrite filter_all by done.
      by rewrite length_indexed. }
  assert (Forall P (indexed (ListView.tasks l)) ↔
          ∀ task, task ∈ ListView.tasks l →
                  ListView.passes unicode_ToLower flt task) as Hpasses.
  { unfold P.
    rewrite (Forall_indexed
               (λ task, ListView.matchesFilter unicode_ToLower l0 task
                        = true)).
    rewrite Forall_forall. split; intros Hyp task Hin.
    - apply (matchesFilter_passes unicode_ToLower l). by apply Hyp.
    - apply (matchesFilter_passes unicode_ToLower l). by apply Hyp. }
  split; [done |].
  split.
  { rewrite Hall. apply sublist_of_fmap, sublist_filter. }
  split.
  { split; [apply len_nonneg |]. unfold len. rewrite length_fmap.
    pose proof (length_filter P (indexed (ListView.tasks l))).
    rewrite length_indexed in *. lia. }
  split; [by rewrite Hiff, Hpasses |].
  split.
  { intros Hlen%Hiff. unfold P in *. rewrite filter_all by done. done. }
  intros ->. apply Hiff, Hpasses. intros task _. by left.
Qed.

(** ** More on the kanban view *)

Section kanban_more.
Import KanbanView.

Local Abbreviation valid ts idxs :=
  (Forall (λ idx, is_Some (at_index ts idx)) idxs).

Lemma Kanban_elem_of_task_refs its idx :
  idx ∈ task_refs its ↔
  ∃ item, item ∈ its ∧ isHeader item = false ∧ taskIndex item = idx.
Proof.
  unfold task_refs. rewrite list_elem_of_fmap. split.
  - intros (item & -> & [Hh Hin]%list_elem_of_filter). by exists item.
  - intros (item & Hin & Hh & <-). exists item. split; [done |].
    by apply list_elem_of_filter.
Qed.

(** What [organizeColumnItems] builds refers to tasks of the column only,
    and is empty or shows a task. *)
Lemma organize_column_shape ts g col :
  valid ts (col_tasks col) →
  ∃ its, organize_column ts g col =
         Some (mkCol (status col) (col_tasks col) its (cursor col)) ∧
         (∀ idx, idx ∈ task_refs its → idx ∈ col_tasks col) ∧
         (its = [] ∨ Cursor.has_task isHeader its).
Proof.
  intros Hvalid. unfold organize_column. case_decide.
  - eexists. split; [done |]. rewrite foldl_snoc_fmap. simpl. split.
    + intros idx (item & (i & -> & Hi)%list_elem_of_fmap & _ & <-)
             %Kanban_elem_of_task_refs. done.
    + destruct (col_tasks col) as [|idx idxs]; [by left | right].
      exists (TaskRef idx). split; [left | done].
  - destruct (group_loop_spec ts (group_key g) _ Hvalid)
      as (groups & -> & Hgroups). cbn [mbind option_bind].
    eexists. split; [done |]. rewrite build_items_spec.
    set (order := if decide (g = model.GroupByPriority)
                  then Grouping.orderedKeys groups
                         (model.Priority_Label <$> model.AllPriorities)
                  else Grouping.first_occurrences
                         (Grouping.key_at ts (group_key g) <$> col_tasks col)).
    assert (∀ k, k ∈ order →
              groups !! k =
                Some (Grouping.members ts (group_key g) (col_tasks col) k) ∧
              Grouping.members ts (group_key g) (col_tasks col) k ≠ [])
      as Horder.
    { intros k Hk. specialize (Hgroups k).
      destruct (decide (Grouping.members ts (group_key g)
                          (col_tasks col) k = [])) as [Hnil|Hne];
        [|done].
      exfalso. unfold order in Hk. case_decide.
      - rewrite orderedKeys_spec in Hk.
        apply list_elem_of_filter in Hk as [[m Hm] _]. congruence.
      - rewrite elem_of_first_occurrences in Hk.
        by apply members_nil_iff in Hnil. }
    split.
    + intros idx (item & Hin & Hh & <-)%Kanban_elem_of_task_refs.
      apply list_elem_of_bind in Hin as (k & Hin & Hk).
      destruct (Horder k Hk) as (Hg & _). rewrite Hg in Hin. simpl in Hin.
      apply elem_of_cons in Hin as [-> | Hin]; [by unfold header in Hh |].
      apply list_elem_of_fmap in Hin as (i & -> & Hi).
      by apply elem_of_members in Hi as [? _].
    + destruct order as [|k rest] eqn:Ho; [by left | right].
      destruct (Horder k ltac:(left)) as (Hg & Hne).
      destruct (Grouping.members ts (group_key g) (col_tasks col) k)
        as [|idx idxs] eqn:Hmem; [done |].
      exists (TaskRef idx). split; [|done].
      apply list_elem_of_bind. exists k. split; [|left].
      rewrite Hg. simpl. right. left.
Qed.

(** One column, re-organized and its cursor re-clamped. *)
Lemma refresh_column ts g col :
  valid ts (col_tasks col) → 0 ≤ cursor col →
  ∃ organized col',
    organize_column ts g col = Some organized ∧
    adjust_column organized = Some col' ∧
    col_tasks col' = col_tasks col ∧ status col' = status col ∧
    column_reachable col'.
Proof.
  intros Hvalid Hc.
  destruct (organize_column_shape ts g col Hvalid)
    as (its & Horg & Hrefs & Hshape).
  destruct (adjust_spec isHeader its (cursor col) Hc)
    as (c & Hadj & Hc' & Hnil & Hon).
  eexists _, (mkCol (status col) (col_tasks col) its c).
  split; [exact Horg |].
  split; [unfold adjust_column; simpl; by rewrite Hadj |].
  split; [done |]. split; [done |].
  split; [|done]. destruct Hshape as [-> | Hhas].
  - right. split; [done |]. by apply Hnil.
  - left. by apply Hon.
Qed.

Lemma column_reachable_cursor col : column_reachable col → 0 ≤ cursor col.
Proof.
  intros ([Hon%on_task_in_range | [_ Hz]] & _); [lia |].
  unfold cursor in *. lia.
Qed.

(** [organizeItems] followed by [adjustCursors]. *)
Lemma organize_adjust_spec k :
  (∀ c col, get_col (columns k) c = Some col →
            valid (tasks k) (col_tasks col) ∧ 0 ≤ cursor col) →
  ∃ k', organizeItems k ≫= adjustCursors = Some k' ∧
    tasks k' = tasks k ∧ activeCol k' = activeCol k ∧
    groupBy k' = groupBy k ∧
    ∀ c col, get_col (columns k) c = Some col →
      ∃ col', get_col (columns k') c = Some col' ∧
              col_tasks col' = col_tasks col ∧ status col' = status col ∧
              column_reachable col'.
Proof.
  intros Hcols.
  destruct k as [ts [d0 d1 d2 d3] a w h cw g]. simpl in *.
  destruct (Hcols 0 d0 eq_refl) as [Hv0 Hc0].
  destruct (Hcols 1 d1 eq_refl) as [Hv1 Hc1].
  destruct (Hcols 2 d2 eq_refl) as [Hv2 Hc2].
  destruct (Hcols 3 d3 eq_refl) as [Hv3 Hc3].
  destruct (refresh_column ts g d0 Hv0 Hc0)
    as (o0 & e0 & Ho0 & He0 & Ht0 & Hs0 & Hr0).
  destruct (refresh_column ts g d1 Hv1 Hc1)
    as (o1 & e1 & Ho1 & He1 & Ht1 & Hs1 & Hr1).
  destruct (refresh_column ts g d2 Hv2 Hc2)
    as (o2 & e2 & Ho2 & He2 & Ht2 & Hs2 & Hr2).
  destruct (refresh_column ts g d3 Hv3 Hc3)
    as (o3 & e3 & Ho3 & He3 & Ht3 & Hs3 & Hr3).
  pose proof (each_column_spec organize_column
                (mk ts (mkCols d0 d1 d2 d3) a w h cw g)
                _ _ _ _ Ho0 Ho1 Ho2 Ho3) as Horg.
  pose proof (each_column_spec (λ _ _, adjust_column)
                (mk ts (mkCols o0 o1 o2 o3) a w h cw g)
                _ _ _ _ He0 He1 He2 He3) as Hadj.
  unfold organizeItems, organizeColumnItems.
  rewrite Horg. clear Horg. unfold set_columns. simpl.
  unfold adjustCursors, adjustColumnCursor.
  eexists. split; [exact Hadj |]. simpl.
  split; [done |]. split; [done |]. split; [done |].
  intros c col Hget.
  assert (c = 0 ∨ c = 1 ∨ c = 2 ∨ c = 3) as Hc.
  { apply get_col_in_range in Hget. lia. }
  destruct Hc as [-> | [-> | [-> | ->]]]; injection Hget as <-;
    eexists; (split; [reflexivity |]); done.
Qed.

Lemma reachable_columns k c col :
  reachable k → get_col (columns k) c = Some col →
  valid (tasks k) (col_tasks col) ∧ 0 ≤ cursor col.
Proof.
  intros (_ & Hcols) Hget. destruct (Hcols c col Hget) as (Hv & Hr).
  split; [done |]. by apply column_reachable_cursor.
Qed.

Lemma SetTasks_reachable_kanban k ts :
  cursors_nonneg k → 0 ≤ activeCol k < 4 →
  ∃ k', SetTasks k ts = Some k' ∧ reachable k' ∧ tasks k' = ts ∧
        activeCol k' = activeCol k ∧ groupBy k' = groupBy k ∧
        ∀ c col', get_col (columns k') c = Some col' →
                  col_tasks col' = column_indices ts c.
Proof.
  intros Hcur Hact. unfold SetTasks. rewrite organizeTasks_spec. simpl.
  set (k1 := set_columns (set_tasks k ts) _).
  destruct (organize_adjust_spec k1) as (k' & Heq & Hts & Ha & Hg & Hcols).
  { intros c col Hget.
    assert (c = 0 ∨ c = 1 ∨ c = 2 ∨ c = 3) as Hc.
    { apply get_col_in_range in Hget. lia. }
    destruct Hc as [-> | [-> | [-> | ->]]]; injection Hget as <-; simpl;
      (split; [apply column_indices_valid |]).
    - apply (Hcur 0). by destruct k as [? []].
    - apply (Hcur 1). by destruct k as [? []].
    - apply (Hcur 2). by destruct k as [? []].
    - apply (Hcur 3). by destruct k as [? []]. }
  exists k'. split; [exact Heq |].
  assert (∀ c col', get_col (columns k') c = Some col' →
            col_tasks col' = column_indices ts c ∧ column_reachable col')
    as Hcols'.
  { intros c col' Hget'.
    pose proof (get_col_in_range _ _ _ Hget') as Hr.
    destruct (get_col_is_Some (columns k1) c Hr) as [col Hget].
    destruct (Hcols c col Hget) as (col'' & Hget'' & Htasks & _ & Hreach).
    assert (col'' = col') as -> by congruence.
    split; [|done]. rewrite Htasks.
    assert (c = 0 ∨ c = 1 ∨ c = 2 ∨ c = 3) as Hc by lia.
    destruct Hc as [-> | [-> | [-> | ->]]]; by injection Hget as <-. }
  split.
  { split; [by rewrite Ha |]. intros c col' Hget'.
    destruct (Hcols' c col' Hget') as (-> & Hreach).
    split; [|done]. rewrite Hts. apply column_indices_valid. }
  split; [by rewrite Hts |]. split; [by rewrite Ha |].
  split; [by rewrite Hg |].
  intros c col' Hget'. by destruct (Hcols' c col' Hget').
Qed.

Lemma reachable_cursors_nonneg k : reachable k → cursors_nonneg k.
Proof.
  intros Hreach c col Hget. by destruct (reachable_columns k c col Hreach Hget).
Qed.

Lemma SetGroupBy_reachable_kanban k g :
  reachable k →
  ∃ k', SetGroupBy k g = Some k' ∧ reachable k' ∧ tasks k' = tasks k ∧
        activeCol k' = activeCol k ∧ groupBy k' = g.
Proof.
  intros Hreach. unfold SetGroupBy.
  destruct (organize_adjust_spec (set_groupBy k g))
    as (k' & Heq & Hts & Ha & Hg & Hcols).
  { intros c col Hget. by apply (reachable_columns k c col Hreach). }
  exists k'. split; [exact Heq |].
  split; [|done]. destruct Hreach as (Hact & Hold).
  split; [by rewrite Ha |]. intros c col' Hget'.
  pose proof (get_col_in_range _ _ _ Hget') as Hr.
  destruct (get_col_is_Some (columns k) c Hr) as [col Hget].
  destruct (Hcols c col Hget) as (col'' & Hget'' & Htasks & _ & Hreach).
  assert (col'' = col') as -> by congruence.
  split; [|done]. rewrite Htasks, Hts. by destruct (Hold c col Hget).
Qed.

(** A cursor move within the active column. *)
Lemma move_reachable (move : list KanbanItem → Z → option Z) k :
  (∀ its c, Cursor.on_task isHeader its c →
            ∃ c', move its c = Some c' ∧ Cursor.on_task isHeader its c') →
  move [] 0 = Some 0 →
  reachable k →
  ∃ k', on_column
          (λ col, c ← move (items col) (cursor col);
                  Some (mkCol (status col) (col_tasks col) (items col) c))
          k (activeCol k) = Some k' ∧
        reachable k' ∧ tasks k' = tasks k ∧ activeCol k' = activeCol k ∧
        groupBy k' = groupBy k.
Proof.
  intros Hmove Hnil Hreach. pose proof Hreach as (Hact & Hcols).
  destruct (get_col_is_Some (columns k) (activeCol k) Hact) as [col Hget].
  destruct (Hcols _ col Hget) as (Hv & [Hon | [Hits Hz]] & Hrefs).
  - destruct (Hmove _ _ Hon) as (c' & Hc' & Hon').
    destruct (on_column_spec
                (λ col, c ← move (items col) (cursor col);
                        Some (mkCol (status col) (col_tasks col)
                                (items col) c))
                k (activeCol k) col
                (mkCol (status col) (col_tasks col) (items col) c') Hget)
      as (k' & Heq & Hts & Ha & Hg & Hcols').
    { simpl. by rewrite Hc'. }
    exists k'. split; [done |]. split; [|done].
    split; [by rewrite Ha |]. intros c col' Hget'.
    rewrite Hcols' in Hget'. rewrite Hts. case_decide.
    + injection Hget' as <-. simpl. split; [done |]. split; [by left | done].
    + by apply (Hcols c).
  - exists k. split; [|done].
    apply (on_column_id _ _ _ col); [done |].
    rewrite Hits, Hz, Hnil. simpl. destruct col. simpl in *. congruence.
Qed.

Lemma set_index_valid {A} (ts ts' : list A) i x idxs :
  set_index ts i x = Some ts' → valid ts idxs → valid ts' idxs.
Proof.
  unfold set_index. case_match; [|done]. intros [= <-] Hv.
  eapply Forall_impl; [exact Hv |]. intros idx [y Hy%at_index_in_range].
  apply at_index_is_Some. unfold len in *. rewrite length_insert. done.
Qed.

End kanban_more.

Section kanban_selection.
Import KanbanView.

Lemma NewKanbanView_reachable : reachable NewKanbanView.
Proof.
  split; [simpl; lia |]. intros c col Hget.
  assert (c = 0 ∨ c = 1 ∨ c = 2 ∨ c = 3) as Hc.
  { apply get_col_in_range in Hget. lia. }
  destruct Hc as [-> | [-> | [-> | ->]]]; injection Hget as <-;
    (split; [by apply Forall_nil |]); (split; [by right |]);
    by intros idx ?%elem_of_nil.
Qed.

(** What [SelectedTask] and [SelectedIndex] return in a reachable
    state. *)
Lemma SelectedTask_reachable_kanban k :
  reachable k →
  ∃ col, get_col (columns k) (activeCol k) = Some col ∧
    ((items col = [] ∧ SelectedTask k = Some None ∧
      SelectedIndex k = Some (-1)) ∨
     (∃ item task,
        at_index (items col) (cursor col) = Some item ∧
        isHeader item = false ∧
        taskIndex item ∈ col_tasks col ∧
        at_index (tasks k) (taskIndex item) = Some task ∧
        SelectedTask k = Some (Some (taskIndex item, task)) ∧
        SelectedIndex k = Some (taskIndex item))).
Proof.
  intros (Hact & Hcols).
  destruct (get_col_is_Some (columns k) (activeCol k) Hact) as [col Hget].
  exists col. split; [done |].
  destruct (Hcols _ col Hget) as (Hv & [Hon | [Hits Hz]] & Hrefs).
  - right. pose proof (on_task_in_range _ _ _ Hon) as Hr.
    destruct Hon as (item & Hitem & Hh).
    assert (taskIndex item ∈ col_tasks col) as Hin.
    { apply Hrefs, Kanban_elem_of_task_refs. exists item.
      split; [by eapply at_index_elem_of | done]. }
    rewrite Forall_forall in Hv. destruct (Hv _ Hin) as [task Htask].
    exists item, task. split; [done |]. split; [done |].
    split; [done |]. split; [done |].
    unfold SelectedTask, SelectedIndex. rewrite Hget. simpl.
    destruct (Z.eqb_spec (len (items col)) 0); [lia |].
    destruct (Z.leb_spec 0 (cursor col)); [|lia].
    destruct (Z.ltb_spec (cursor col) (len (items col))); [|lia]. simpl.
    rewrite Hitem, Hh, Htask. done.
  - left. split; [done |].
    unfold SelectedTask, SelectedIndex. rewrite Hget. simpl.
    by rewrite Hits.
Qed.

Lemma set_tasks_reachable k ts :
  length ts = length (tasks k) → reachable k → reachable (set_tasks k ts).
Proof.
  intros Hlen (Hact & Hcols). split; [done |]. intros c col Hget.
  destruct (Hcols c col Hget) as (Hv & Hr). split; [|done].
  eapply Forall_impl; [exact Hv |]. intros idx [y Hy%at_index_in_range].
  apply at_index_is_Some. unfold len in *. simpl. lia.
Qed.

(** Writing a status through the selected task's pointer. *)
Lemma write_selected_status k i task s :
  reachable k → SelectedTask k = Some (Some (i, task)) →
  write_status k i task s =
    Some (set_tasks k (<[Z.to_nat i := model.with_Status task s]> (tasks k)),
          model.with_Status task s) ∧
  reachable
    (set_tasks k (<[Z.to_nat i := model.with_Status task s]> (tasks k))) ∧
  at_index (<[Z.to_nat i := model.with_Status task s]> (tasks k)) i
    = Some (model.with_Status task s).
Proof.
  intros Hreach Hsel. pose proof (SelectedTask_pointer _ _ _ Hsel) as Hat.
  split; [by apply write_status_spec |].
  split; [apply set_tasks_reachable; [by rewrite length_insert | done] |].
  apply at_index_Some in Hat as [Hi Hlook]. apply at_index_Some.
  split; [done |]. apply list_lookup_insert_eq.
  by apply lookup_lt_Some in Hlook.
Qed.

Lemma MoveTaskLeft_reachable k :
  reachable k →
  ∃ k' moved, MoveTaskLeft k = Some (k', moved) ∧ reachable k' ∧
              columns k' = columns k ∧ activeCol k' = activeCol k ∧
              length (tasks k') = length (tasks k) ∧
              (moved = None → k' = k).
Proof.
  intros Hreach. unfold MoveTaskLeft.
  destruct (activeCol k =? 0); [by exists k, None |].
  destruct (SelectedTask_reachable_kanban k Hreach)
    as (col & _ & [(_ & -> & _) | (item & task & _ & _ & _ & _ & Hsel & _)]).
  { by exists k, None. }
  rewrite Hsel. simpl.
  destruct (write_selected_status k _ task
              (model.StatusFromIndex (activeCol k - 1)) Hreach Hsel)
    as (-> & Hreach' & _).
  simpl. eexists _, _. split; [done |]. split; [done |].
  split; [done |]. split; [done |]. split; [|done].
  simpl. by rewrite length_insert.
Qed.

Lemma MoveTaskRight_reachable k :
  reachable k →
  ∃ k' moved, MoveTaskRight k = Some (k', moved) ∧ reachable k' ∧
              columns k' = columns k ∧ activeCol k' = activeCol k ∧
              length (tasks k') = length (tasks k) ∧
              (moved = None → k' = k).
Proof.
  intros Hreach. unfold MoveTaskRight.
  destruct (activeCol k >=? 3); [by exists k, None |].
  destruct (SelectedTask_reachable_kanban k Hreach)
    as (col & _ & [(_ & -> & _) | (item & task & _ & _ & _ & _ & Hsel & _)]).
  { by exists k, None. }
  rewrite Hsel. simpl.
  destruct (write_selected_status k _ task
              (model.StatusFromIndex (activeCol k + 1)) Hreach Hsel)
    as (-> & Hreach' & _).
  simpl. eexists _, _. split; [done |]. split; [done |].
  split; [done |]. split; [done |]. split; [|done].
  simpl. by rewrite length_insert.
Qed.

Lemma MoveUp_reachable_kanban k :
  reachable k →
  ∃ k', MoveUp k = Some k' ∧ reachable k' ∧ tasks k' = tasks k ∧
        activeCol k' = activeCol k ∧ groupBy k' = groupBy k.
Proof.
  intros Hreach.
  apply (move_reachable (Cursor.move_up isHeader) k); [|done..].
  intros its c Hon.
  destruct (move_up_spec isHeader its c Hon) as (c' & ? & ? & _).
  by exists c'.
Qed.

Lemma MoveDown_reachable_kanban k :
  reachable k →
  ∃ k', MoveDown k = Some k' ∧ reachable k' ∧ tasks k' = tasks k ∧
        activeCol k' = activeCol k ∧ groupBy k' = groupBy k.
Proof.
  intros Hreach.
  apply (move_reachable (Cursor.move_down isHeader) k); [|done..].
  intros its c Hon.
  destruct (move_down_spec isHeader its c Hon) as (c' & ? & ? & _).
  by exists c'.
Qed.

Lemma set_activeCol_reachable k c :
  0 ≤ c < 4 → reachable k → reachable (set_activeCol k c).
Proof. intros Hc (_ & Hcols). by split. Qed.

Lemma MoveLeft_reachable k : reachable k → reachable (MoveLeft k).
Proof.
  intros Hreach. pose proof Hreach as (Hact & _). unfold MoveLeft.
  destruct (Z.ltb_spec 0 (activeCol k)); [|done].
  apply set_activeCol_reachable; [lia | done].
Qed.

Lemma MoveRight_reachable k : reachable k → reachable (MoveRight k).
Proof.
  intros Hreach. pose proof Hreach as (Hact & _). unfold MoveRight.
  destruct (Z.ltb_spec (activeCol k) 3); [|done].
  apply set_activeCol_reachable; [lia | done].
Qed.

Lemma SetActiveColumn_reachable k c :
  reachable k → reachable (SetActiveColumn k c).
Proof.
  intros Hreach. unfold SetActiveColumn.
  destruct (Z.leb_spec 0 c); [|done].
  destruct (Z.ltb_spec c 4); [|done]. simpl.
  apply set_activeCol_reachable; [lia | done].
Qed.

Lemma rendered_rows_reachable_kanban k c col i :
  reachable k → get_col (columns k) c = Some col →
  i ∈ rendered_rows k col →
  ∃ item, at_index (items col) i = Some item ∧
          (isHeader item = false →
           is_Some (at_index (tasks k) (taskIndex item))).
Proof.
  intros (_ & Hcols) Hget Hi.
  destruct (Hcols c col Hget) as (Hv & _ & Hrefs).
  assert (0 ≤ i < len (items col)) as Hrange.
  { revert Hi. unfold rendered_rows.
    intros (Hlo & Hhi & _)%elem_of_rows.
    pose proof (offset_nonneg (cursor col) (visibleItems k)). lia. }
  destruct (at_index_is_Some (items col) i Hrange) as [item Hitem].
  exists item. split; [done |]. intros Hh.
  rewrite Forall_forall in Hv. apply Hv, Hrefs, Kanban_elem_of_task_refs.
  exists item. split; [by eapply at_index_elem_of | done].
Qed.

Lemma Status_Index_FromIndex j :
  0 ≤ j < 4 → model.Status_Index (model.StatusFromIndex j) = j.
Proof.
  intros Hj.
  assert (j = 0 ∨ j = 1 ∨ j = 2 ∨ j = 3) as [-> | [-> | [-> | ->]]] by lia;
    by vm_compute.
Qed.

End kanban_selection.

(** X9 (the kanban view's operations): the fresh board is in a
    reachable state, and from a reachable state [SetTasks], [SetGroupBy],
    [CycleGroupBy], [MoveUp], [MoveDown], [MoveLeft], [MoveRight],
    [SetActiveColumn], [SetSize], [MoveTaskLeft] and [MoveTaskRight] all
    return (no index is out of range) and leave a reachable state; there
    [SelectedTask] returns, the task it returns is the one
    [SelectedIndex] names and belongs to the active column, and every row
    [renderColumn] draws exists and refers to a task of the
    collection. *)
Theorem KanbanView_reachable_invariant :
  KanbanView.reachable KanbanView.NewKanbanView ∧
  ∀ k, KanbanView.reachable k →
    (∀ ts, ∃ k', KanbanView.SetTasks k ts = Some k' ∧
                 KanbanView.reachable k') ∧
    (∀ g, ∃ k', KanbanView.SetGroupBy k g = Some k' ∧
                KanbanView.reachable k') ∧
    (∃ k', KanbanView.CycleGroupBy k = Some k' ∧
           KanbanView.reachable k') ∧
    (∃ k', KanbanView.MoveUp k = Some k' ∧ KanbanView.reachable k') ∧
    (∃ k', KanbanView.MoveDown k = Some k' ∧ KanbanView.reachable k') ∧
    KanbanView.reachable (KanbanView.MoveLeft k) ∧
    KanbanView.reachable (KanbanView.MoveRight k) ∧
    (∀ c, KanbanView.reachable (KanbanView.SetActiveColumn k c)) ∧
    (∀ w h, KanbanView.reachable (KanbanView.SetSize k w h)) ∧
    (∃ k' moved, KanbanView.MoveTaskLeft k = Some (k', moved) ∧
                 KanbanView.reachable k') ∧
    (∃ k' moved, KanbanView.MoveTaskRight k = Some (k', moved) ∧
                 KanbanView.reachable k') ∧
    (∃ sel, KanbanView.SelectedTask k = Some sel ∧
       ∀ i task, sel = Some (i, task) →
         KanbanView.SelectedIndex k = Some i ∧
         at_index (KanbanView.tasks k) i = Some task ∧
         ∃ col, KanbanView.get_col (KanbanView.columns k)
                  (KanbanView.activeCol k) = Some col ∧
                i ∈ KanbanView.col_tasks col) ∧
    (∀ c col i,
       KanbanView.get_col (KanbanView.columns k) c = Some col →
       i ∈ KanbanView.rendered_rows k col →
       ∃ item, at_index (KanbanView.items col) i = Some item ∧
               (KanbanView.isHeader item = false →
                is_Some (at_index (KanbanView.tasks k)
                                  (KanbanView.taskIndex item)))).
Proof.
  split; [apply NewKanbanView_reachable |].
  intros k Hreach. pose proof Hreach as (Hact & _).
  split.
  { intros ts.
    destruct (SetTasks_reachable_kanban k ts
                (reachable_cursors_nonneg k Hreach) Hact)
      as (k' & ? & ? & _). by exists k'. }
  split.
  { intros g. destruct (SetGroupBy_reachable_kanban k g Hreach)
      as (k' & ? & ? & _). by exists k'. }
  split.
  { destruct (SetGroupBy_reachable_kanban k
                (model.GroupBy_Next (KanbanView.groupBy k)) Hreach)
      as (k' & ? & ? & _). by exists k'. }
  split.
  { destruct (MoveUp_reachable_kanban k Hreach) as (k' & ? & ? & _).
    by exists k'. }
  split.
  { destruct (MoveDown_reachable_kanban k Hreach) as (k' & ? & ? & _).
    by exists k'. }
  split; [by apply MoveLeft_reachable |].
  split; [by apply MoveRight_reachable |].
  split; [intros c; by apply SetActiveColumn_reachable |].
  split; [intros w h; exact Hreach |].
  split.
  { destruct (MoveTaskLeft_reachable k Hreach) as (k' & moved & ? & ? & _).
    by exists k', moved. }
  split.
  { destruct (MoveTaskRight_reachable k Hreach) as (k' & moved & ? & ? & _).
    by exists k', moved. }
  split.
  { destruct (SelectedTask_reachable_kanban k Hreach)
      as (col & Hget &
          [(_ & Hsel & _) | (item & task & _ & _ & Hin & Hat & Hsel & Hidx)]).
    - exists None. split; [done |]. done.
    - eexists. split; [exact Hsel |]. intros i t [= <- <-].
      split; [done |]. split; [done |]. by exists col. }
  intros c col i Hget Hi.
  by apply (rendered_rows_reachable_kanban k c col i).
Qed.

(** X10 ([KanbanView.SetTasks], [SelectedTask]): after the board is
    given the tasks, the task selected in the active column, if any, has
    a status whose column is the active one; the active column itself is
    kept. *)
Theorem KanbanView_selection_in_active_column (k : KanbanView.t)
    (ts : list model.Task) :
  KanbanView.reachable k →
  ∃ k' sel,
    KanbanView.SetTasks k ts = Some k' ∧
    KanbanView.activeCol k' = KanbanView.activeCol k ∧
    KanbanView.SelectedTask k' = Some sel ∧
    ∀ i task, sel = Some (i, task) →
      at_index ts i = Some task ∧
      model.Status_Index (model.Status_ task) = KanbanView.activeCol k.
Proof.
  intros Hreach. pose proof Hreach as (Hact & _).
  destruct (SetTasks_reachable_kanban k ts
              (reachable_cursors_nonneg k Hreach) Hact)
    as (k' & Hset & Hreach' & Hts & Ha & _ & Hcols).
  destruct (SelectedTask_reachable_kanban k' Hreach')
    as (col & Hget &
        [(_ & Hsel & _) | (item & task & _ & _ & Hin & Hat & Hsel & _)]).
  - exists k', None. split; [done |]. split; [done |]. by split.
  - eexists k', _. split; [done |]. split; [done |].
    split; [exact Hsel |]. intros i t [= <- <-].
    rewrite (Hcols _ col Hget) in Hin.
    apply elem_of_column_indices in Hin as (task' & Hat' & Hidx).
    rewrite Hts in Hat.
    assert (task' = task) as -> by congruence.
    split; [done |]. by rewrite <- Ha.
Qed.

Lemma KanbanView_selection_in_active_column_witness :
  ∃ k' sel,
    KanbanView.SetTasks KanbanView.NewKanbanView Sample.three_tasks
      = Some k' ∧
    KanbanView.activeCol k' = KanbanView.activeCol KanbanView.NewKanbanView ∧
    KanbanView.SelectedTask k' = Some sel ∧
    ∀ i task, sel = Some (i, task) →
      at_index Sample.three_tasks i = Some task ∧
      model.Status_Index (model.Status_ task)
        = KanbanView.activeCol KanbanView.NewKanbanView.
Proof.
  apply (KanbanView_selection_in_active_column KanbanView.NewKanbanView
           Sample.three_tasks).
  apply NewKanbanView_reachable.
Defined.

(** X11 ([KanbanView.MoveTaskRight], [MoveTaskLeft], [SetTasks]): when
    the selected task is moved to the neighbouring column and the board is
    then given its tasks again, the task is in the column next to the
    active one, in the direction of the move, and in no other column. *)
Theorem KanbanView_move_task_refresh (k : KanbanView.t) (i : Z)
    (task : model.Task) :
  KanbanView.reachable k →
  KanbanView.SelectedTask k = Some (Some (i, task)) →
  (KanbanView.activeCol k < 3 →
   ∃ k1 moved k2 col,
     KanbanView.MoveTaskRight k = Some (k1, Some moved) ∧
     KanbanView.SetTasks k1 (KanbanView.tasks k1) = Some k2 ∧
     at_index (KanbanView.tasks k2) i = Some moved ∧
     model.ID moved = model.ID task ∧
     KanbanView.get_col (KanbanView.columns k2)
       (KanbanView.activeCol k + 1) = Some col ∧
     i ∈ KanbanView.col_tasks col ∧
     ∀ c col', KanbanView.get_col (KanbanView.columns k2) c = Some col' →
               i ∈ KanbanView.col_tasks col' →
               c = KanbanView.activeCol k + 1) ∧
  (0 < KanbanView.activeCol k →
   ∃ k1 moved k2 col,
     KanbanView.MoveTaskLeft k = Some (k1, Some moved) ∧
     KanbanView.SetTasks k1 (KanbanView.tasks k1) = Some k2 ∧
     at_index (KanbanView.tasks k2) i = Some moved ∧
     model.ID moved = model.ID task ∧
     KanbanView.get_col (KanbanView.columns k2)
       (KanbanView.activeCol k - 1) = Some col ∧
     i ∈ KanbanView.col_tasks col ∧
     ∀ c col', KanbanView.get_col (KanbanView.columns k2) c = Some col' →
               i ∈ KanbanView.col_tasks col' →
               c = KanbanView.activeCol k - 1).
Proof.
  intros Hreach Hsel. pose proof Hreach as (Hact & _).
  assert (∀ j, 0 ≤ j < 4 →
    let moved := model.with_Status task (model.StatusFromIndex j) in
    let k1 := KanbanView.set_tasks k
                (<[Z.to_nat i := moved]> (KanbanView.tasks k)) in
    KanbanView.write_status k i task (model.StatusFromIndex j)
      = Some (k1, moved) ∧
    ∃ k2 col,
      KanbanView.SetTasks k1 (KanbanView.tasks k1) = Some k2 ∧
      at_index (KanbanView.tasks k2) i = Some moved ∧
      KanbanView.get_col (KanbanView.columns k2) j = Some col ∧
      i ∈ KanbanView.col_tasks col ∧
      ∀ c col', KanbanView.get_col (KanbanView.columns k2) c = Some col' →
                i ∈ KanbanView.col_tasks col' → c = j) as Hmove.
  { intros j Hj moved k1.
    destruct (write_selected_status k i task (model.StatusFromIndex j)
                Hreach Hsel) as (Hwrite & Hreach1 & Hat1).
    split; [done |].
    destruct (SetTasks_reachable_kanban k1 (KanbanView.tasks k1)
                (reachable_cursors_nonneg k1 Hreach1) Hact)
      as (k2 & Hset & Hreach2 & Hts & _ & _ & Hcols).
    destruct (get_col_is_Some (KanbanView.columns k2) j Hj) as [col Hget].
    exists k2, col. split; [done |].
    split; [by rewrite Hts |]. split; [done |].
    split.
    - rewrite (Hcols j col Hget). apply elem_of_column_indices.
      exists moved. split; [done |]. by apply Status_Index_FromIndex.
    - intros c col' Hget' Hin. rewrite (Hcols c col' Hget') in Hin.
      apply elem_of_column_indices in Hin as (task' & Hat' & Hidx).
      assert (Some task' = Some moved) as [= ->]
        by (rewrite <- Hat'; exact Hat1).
      rewrite <- Hidx. by apply Status_Index_FromIndex. }
  split.
  - intros Hlt. unfold KanbanView.MoveTaskRight.
    destruct (Z.geb_spec (KanbanView.activeCol k) 3); [lia |].
    rewrite Hsel. simpl.
    destruct (Hmove (KanbanView.activeCol k + 1) ltac:(lia))
      as (-> & k2 & col & ? & ? & ? & ? & ?).
    simpl. eexists _, _, k2, col. done.
  - intros Hgt. unfold KanbanView.MoveTaskLeft.
    destruct (Z.eqb_spec (KanbanView.activeCol k) 0); [lia |].
    rewrite Hsel. simpl.
    destruct (Hmove (KanbanView.activeCol k - 1) ltac:(lia))
      as (-> & k2 & col & ? & ? & ? & ? & ?).
    simpl. eexists _, _, k2, col. done.
Qed.

Section kanban_partition.
Import KanbanView.

Lemma Kanban_task_refs_app its1 its2 :
  task_refs (its1 ++ its2) = task_refs its1 ++ task_refs its2.
Proof. unfold task_refs. by rewrite filter_app, fmap_app. Qed.

Lemma Kanban_task_refs_TaskRef idxs : task_refs (TaskRef <$> idxs) = idxs.
Proof.
  induction idxs as [|idx idxs IH]; [done |].
  rewrite fmap_cons. unfold task_refs in *.
  rewrite filter_cons_True by done. rewrite fmap_cons. by rewrite IH.
Qed.

Lemma Kanban_task_refs_blocks (blocks : gostring → list Z) order :
  task_refs (order ≫= λ k, header k (blocks k) :: (TaskRef <$> blocks k))
  = order ≫= blocks.
Proof.
  induction order as [|k order IH]; [done |].
  rewrite !bind_cons, Kanban_task_refs_app, IH. f_equal.
  change (?x :: ?xs) with ([x] ++ xs).
  rewrite Kanban_task_refs_app, Kanban_task_refs_TaskRef. done.
Qed.

End kanban_partition.

(** X29 ([KanbanView.organizeColumnItems]): a column whose task indices
    are indices of the collection is organized without failure; without
    grouping and by status its items are its tasks in order; by tag, and
    by priority when the priority label of each of its tasks is one of the
    four, its items refer to each task of the column exactly once. *)
Theorem KanbanView_organize_column_partition (ts : list model.Task)
    (g : model.GroupBy) (col : KanbanView.KanbanColumn) :
  Forall (λ idx, is_Some (at_index ts idx)) (KanbanView.col_tasks col) →
  ∃ its,
    KanbanView.organize_column ts g col
      = Some (KanbanView.mkCol (KanbanView.status col)
                (KanbanView.col_tasks col) its (KanbanView.cursor col)) ∧
    (g = model.GroupByNone ∨ g = model.GroupByStatus →
     its = KanbanView.TaskRef <$> KanbanView.col_tasks col) ∧
    ((g = model.GroupByPriority →
      ∀ idx task, idx ∈ KanbanView.col_tasks col →
        at_index ts idx = Some task →
        model.Priority_Label (model.Priority_ task)
          ∈ model.Priority_Label <$> model.AllPriorities) →
     KanbanView.task_refs its ≡ₚ KanbanView.col_tasks col).
Proof.
  intros Hvalid. unfold KanbanView.organize_column. case_decide as Hg.
  { eexists. split; [done |]. rewrite foldl_snoc_fmap. simpl.
    split; [done |]. intros _. by rewrite Kanban_task_refs_TaskRef. }
  destruct (group_loop_spec ts (KanbanView.group_key g) _ Hvalid)
    as (groups & -> & Hgroups). cbn [mbind option_bind].
  eexists. split; [done |]. split; [tauto |].
  rewrite build_items_spec. intros Hshown.
  set (idxs := KanbanView.col_tasks col) in *.
  set (mem := Grouping.members ts (KanbanView.group_key g) idxs).
  assert (∀ k, default [] (groups !! k) = mem k) as Hdefault.
  { intros k. rewrite Hgroups. fold (mem k). by case_decide as Hnil. }
  rewrite (Forall_bind_ext _ (λ k, KanbanView.header k (mem k)
                                   :: (KanbanView.TaskRef <$> mem k)))
    by (apply Forall_forall; intros k _; by rewrite Hdefault).
  rewrite Kanban_task_refs_blocks.
  apply members_partition.
  - case_decide.
    + rewrite orderedKeys_spec. apply NoDup_filter, NoDup_priority_labels.
    + apply NoDup_first_occurrences.
  - intros idx Hin. case_decide as Hp.
    + rewrite orderedKeys_spec. apply list_elem_of_filter.
      rewrite Forall_forall in Hvalid.
      destruct (Hvalid idx Hin) as [task Htask].
      assert (Grouping.key_at ts (KanbanView.group_key g) idx
              = model.Priority_Label (model.Priority_ task)) as Hkey.
      { unfold Grouping.key_at. rewrite Htask. simpl. by rewrite Hp. }
      split.
      * rewrite Hgroups. rewrite decide_False; [done |].
        intros Hnil. fold (mem (Grouping.key_at ts (KanbanView.group_key g) idx))
          in Hnil.
        assert (idx ∈ mem (Grouping.key_at ts (KanbanView.group_key g) idx))
          as Hmem by (by apply elem_of_members).
        rewrite Hnil in Hmem. by apply elem_of_nil in Hmem.
      * rewrite Hkey. by apply (Hshown Hp idx task).
    + apply elem_of_first_occurrences, list_elem_of_fmap. by exists idx.
Qed.

Lemma KanbanView_organize_column_partition_witness :
  ∃ its,
    KanbanView.organize_column Sample.three_tasks model.GroupByTag
      (KanbanView.mkCol model.StatusTodo [0; 1] [] 0)
      = Some (KanbanView.mkCol
                (KanbanView.status
                   (KanbanView.mkCol model.StatusTodo [0; 1] [] 0))
                (KanbanView.col_tasks
                   (KanbanView.mkCol model.StatusTodo [0; 1] [] 0))
                its
                (KanbanView.cursor
                   (KanbanView.mkCol model.StatusTodo [0; 1] [] 0))) ∧
    (model.GroupByTag = model.GroupByNone ∨
     model.GroupByTag = model.GroupByStatus →
     its = KanbanView.TaskRef
             <$> KanbanView.col_tasks
                   (KanbanView.mkCol model.StatusTodo [0; 1] [] 0)) ∧
    ((model.GroupByTag = model.GroupByPriority →
      ∀ idx task,
        idx ∈ KanbanView.col_tasks
                (KanbanView.mkCol model.StatusTodo [0; 1] [] 0) →
        at_index Sample.three_tasks idx = Some task →
        model.Priority_Label (model.Priority_ task)
          ∈ model.Priority_Label <$> model.AllPriorities) →
     KanbanView.task_refs its
       ≡ₚ KanbanView.col_tasks
            (KanbanView.mkCol model.StatusTodo [0; 1] [] 0)).
Proof.
  apply (KanbanView_organize_column_partition Sample.three_tasks
           model.GroupByTag (KanbanView.mkCol model.StatusTodo [0; 1] [] 0)).
  repeat constructor; by eexists.
Defined.

(** ** The enumerations of package model *)

Section model_facts.

Lemma AllStatuses_cases s :
  s ∈ model.AllStatuses ↔
  s = model.StatusTodo ∨ s = model.StatusInProgress ∨
  s = model.StatusBlocked ∨ s = model.StatusDone.
Proof.
  unfold model.AllStatuses. rewrite !elem_of_cons, elem_of_nil. tauto.
Qed.

Lemma AllPriorities_cases p :
  p ∈ model.AllPriorities ↔
  p = model.PriorityLow ∨ p = model.PriorityMedium ∨
  p = model.PriorityHigh ∨ p = model.PriorityCritical.
Proof.
  unfold model.AllPriorities. rewrite !elem_of_cons, elem_of_nil. tauto.
Qed.

Lemma StatusFromIndex_known j : model.StatusFromIndex j ∈ model.AllStatuses.
Proof.
  unfold model.StatusFromIndex.
  destruct (Z.leb_spec 0 j); [|by left].
  destruct (Z.ltb_spec j (len model.AllStatuses)) as [Hlt|]; [|by left].
  change (len model.AllStatuses) with 4 in Hlt. simpl.
  assert (j = 0 ∨ j = 1 ∨ j = 2 ∨ j = 3) as [-> | [-> | [-> | ->]]] by lia;
    apply AllStatuses_cases; simpl; tauto.
Qed.

Lemma Priority_Next_known p : model.Priority_Next p ∈ model.AllPriorities.
Proof.
  unfold model.Priority_Next. apply AllPriorities_cases.
  repeat case_decide; tauto.
Qed.

End model_facts.

(** X12 ([Status.Index], [StatusFromIndex]): the column index of a
    status and the status of a column index are inverse to each other on
    the four known statuses and the indices 0..3; every other index gives
    "todo", and every status that is not one of the four has index 0, so
    the round trip returns a status exactly when it is a known one. *)
Theorem Status_Index_round_trip :
  (∀ j, 0 ≤ j < 4 → model.Status_Index (model.StatusFromIndex j) = j) ∧
  (∀ j, ¬ 0 ≤ j < 4 → model.StatusFromIndex j = model.StatusTodo) ∧
  (∀ s, 0 ≤ model.Status_Index s < 4) ∧
  (∀ s, model.StatusFromIndex (model.Status_Index s) = s ↔
        s ∈ model.AllStatuses) ∧
  (∀ s s', s ∈ model.AllStatuses → s' ∈ model.AllStatuses →
           model.Status_Index s = model.Status_Index s' → s = s').
Proof.
  split; [apply Status_Index_FromIndex |].
  split.
  { intros j Hj. unfold model.StatusFromIndex.
    destruct (Z.leb_spec 0 j); [|done].
    destruct (Z.ltb_spec j (len model.AllStatuses)) as [Hlt|]; [|done].
    change (len model.AllStatuses) with 4 in Hlt. lia. }
  split; [apply Status_Index_range |].
  assert (∀ s, s ∈ model.AllStatuses →
               model.StatusFromIndex (model.Status_Index s) = s) as Hback.
  { intros s [-> | [-> | [-> | ->]]]%AllStatuses_cases; by vm_compute. }
  split.
  { intros s. split; [|apply Hback].
    intros <-. apply StatusFromIndex_known. }
  intros s s' Hs Hs' Heq.
  rewrite <- (Hback s Hs), <- (Hback s' Hs'). by rewrite Heq.
Qed.

(** X13 ([Priority.Next], [Priority.Index]): [Next] always gives one of
    the four known priorities; on a known priority it advances the index
    by one, from critical back to low, so four steps lead back to the
    start; a priority that is not one of the four counts as medium for
    [Index], yet [Next] sends it to medium, not to high. *)
Theorem Priority_Next_cycle :
  (∀ p, model.Priority_Next p ∈ model.AllPriorities) ∧
  (∀ p, p ∈ model.AllPriorities →
        model.Priority_Index (model.Priority_Next p)
          = (model.Priority_Index p + 1) `mod` 4 ∧
        model.Priority_Next p ≠ p ∧
        model.Priority_Next
          (model.Priority_Next
             (model.Priority_Next (model.Priority_Next p))) = p) ∧
  (∀ p, 0 ≤ model.Priority_Index p < 4) ∧
  (∀ p, p ∉ model.AllPriorities →
        model.Priority_Index p = 1 ∧
        model.Priority_Next p = model.PriorityMedium ∧
        model.Priority_Index (model.Priority_Next p)
          = model.Priority_Index p).
Proof.
  split; [apply Priority_Next_known |].
  split.
  { intros p [-> | [-> | [-> | ->]]]%AllPriorities_cases; by vm_compute. }
  split.
  { intros p. unfold model.Priority_Index. repeat case_decide; lia. }
  intros p Hp. rewrite AllPriorities_cases in Hp.
  unfold model.Priority_Index, model.Priority_Next.
  repeat case_decide; try tauto. done.
Qed.

(** ** More on the repository *)

Section storage_more.
Import Storage.

Lemma delete_loop_filter id (tasks acc : list model.Task) :
  foldl (λ newTasks t,
           if decide (model.ID t ≠ id) then newTasks ++ [t] else newTasks)
        acc tasks
  = acc ++ filter (λ t, model.ID t ≠ id) tasks.
Proof.
  revert acc. induction tasks as [|t tasks IH]; intros acc; simpl.
  - by rewrite app_nil_r.
  - rewrite IH. destruct (decide (model.ID t ≠ id)).
    + rewrite filter_cons_True by done. by rewrite <- app_assoc.
    + by rewrite filter_cons_False by done.
Qed.

Lemma DeleteTask_filter id file tasks :
  Load file = Ok tasks →
  DeleteTask None id file =
  (Ok (filter (λ t, model.ID t ≠ id) tasks),
   Document (filter (λ t, model.ID t ≠ id) tasks)).
Proof.
  intros Hload. unfold DeleteTask. rewrite Hload. simpl.
  by rewrite (delete_loop_filter id tasks []).
Qed.

Lemma filter_id_absent id (tasks : list model.Task) :
  (∀ t, t ∈ tasks → model.ID t ≠ id) →
  filter (λ t, model.ID t ≠ id) tasks = tasks.
Proof. intros Hall. apply filter_all. by apply Forall_forall. Qed.

Lemma fmap_ID_replace_first tasks task :
  model.ID <$> replace_first tasks task = model.ID <$> tasks.
Proof.
  induction tasks as [|t tasks IH]; [done |]. cbn [replace_first].
  destruct (decide (model.ID t = model.ID task)) as [Heq|Hne];
    rewrite !fmap_cons.
  - by rewrite Heq.
  - by rewrite IH.
Qed.

Lemma elem_of_replace_first tasks task t :
  t ∈ replace_first tasks task → t = task ∨ t ∈ tasks.
Proof.
  induction tasks as [|x tasks IH]; [by intros ?%elem_of_nil |]. simpl.
  destruct (decide (model.ID x = model.ID task)).
  - intros [-> | Hin]%elem_of_cons; [by left |]. right. by right.
  - intros [-> | Hin]%elem_of_cons; [right; left |].
    destruct (IH Hin) as [-> | ?]; [by left |]. right. by right.
Qed.

Lemma replace_first_unique tasks task t :
  NoDup (model.ID <$> tasks) →
  t ∈ replace_first tasks task → model.ID t = model.ID task → t = task.
Proof.
  induction tasks as [|x tasks IH]; [by intros _ ?%elem_of_nil |]. simpl.
  intros [Hx Hnodup]%NoDup_cons.
  destruct (decide (model.ID x = model.ID task)) as [Heq|Hne].
  - intros [-> | Hin]%elem_of_cons Hid; [done |]. exfalso.
    apply Hx. apply list_elem_of_fmap. exists t. split; [congruence | done].
  - intros [-> | Hin]%elem_of_cons Hid; [done |]. by apply IH.
Qed.

End storage_more.

(** X14 ([Storage.DeleteTask]): when the file loads and the write
    succeeds, [DeleteTask] saves and returns the loaded tasks without
    those whose identifier is the given one, every one of them, the others
    in their order; a collection without that identifier is saved as it
    is, so deleting a second time changes nothing. *)
Theorem DeleteTask_spec (id : gostring) (file : Storage.File)
    (tasks : list model.Task) :
  Storage.Load file = Storage.Ok tasks →
  ∃ result,
    Storage.DeleteTask None id file
      = (Storage.Ok result, Storage.Document result) ∧
    result = filter (λ t, model.ID t ≠ id) tasks ∧
    (∀ t, t ∈ result ↔ t ∈ tasks ∧ model.ID t ≠ id) ∧
    result `sublist_of` tasks ∧
    ((∀ t, t ∈ tasks → model.ID t ≠ id) → result = tasks) ∧
    Storage.DeleteTask None id (Storage.Document result)
      = (Storage.Ok result, Storage.Document result).
Proof.
  intros Hload. exists (filter (λ t, model.ID t ≠ id) tasks).
  split; [by apply DeleteTask_filter |]. split; [done |].
  split.
  { intros t. rewrite list_elem_of_filter. tauto. }
  split; [apply sublist_filter |].
  split; [apply filter_id_absent |].
  rewrite (DeleteTask_filter id _ (filter (λ t, model.ID t ≠ id) tasks))
    by done.
  rewrite filter_id_absent; [done |].
  by intros t [? _]%list_elem_of_filter.
Qed.

Lemma DeleteTask_spec_witness :
  ∃ result,
    Storage.DeleteTask None (str "b") (Storage.Document Sample.three_tasks)
      = (Storage.Ok result, Storage.Document result) ∧
    result = filter (λ t, model.ID t ≠ str "b") Sample.three_tasks ∧
    (∀ t, t ∈ result ↔ t ∈ Sample.three_tasks ∧ model.ID t ≠ str "b") ∧
    result `sublist_of` Sample.three_tasks ∧
    ((∀ t, t ∈ Sample.three_tasks → model.ID t ≠ str "b") →
     result = Sample.three_tasks) ∧
    Storage.DeleteTask None (str "b") (Storage.Document result)
      = (Storage.Ok result, Storage.Document result).
Proof.
  apply (DeleteTask_spec (str "b") (Storage.Document Sample.three_tasks)
           Sample.three_tasks).
  reflexivity.
Defined.

(** X15 ([Storage.AddTask], [Storage.DeleteTask]): [AddTask] appends the
    task to the loaded collection and saves it; deleting the identifier of
    the task just added then removes it, together with any older task of
    the same identifier, and restores the collection exactly when the
    identifier was new. *)
Theorem AddTask_DeleteTask (task : model.Task) (file : Storage.File)
    (tasks : list model.Task) :
  Storage.Load file = Storage.Ok tasks →
  Storage.AddTask None task file
    = (Storage.Ok (tasks ++ [task]), Storage.Document (tasks ++ [task])) ∧
  Storage.DeleteTask None (model.ID task)
    (Storage.Document (tasks ++ [task]))
    = (Storage.Ok (filter (λ t, model.ID t ≠ model.ID task) tasks),
       Storage.Document (filter (λ t, model.ID t ≠ model.ID task) tasks)) ∧
  (filter (λ t, model.ID t ≠ model.ID task) tasks = tasks ↔
   ∀ t, t ∈ tasks → model.ID t ≠ model.ID task).
Proof.
  intros Hload. split.
  { unfold Storage.AddTask. by rewrite Hload. }
  split.
  { rewrite (DeleteTask_filter (model.ID task) _ (tasks ++ [task]))
      by done.
    rewrite filter_app, filter_cons_False, filter_nil, app_nil_r; [done |].
    by intros Hne. }
  split; [|apply filter_id_absent].
  intros Heq t Hin. rewrite <- Heq in Hin.
  by apply list_elem_of_filter in Hin as [? _].
Qed.

Lemma AddTask_DeleteTask_witness :
  Storage.AddTask None Sample.archived (Storage.Document Sample.three_tasks)
    = (Storage.Ok (Sample.three_tasks ++ [Sample.archived]),
       Storage.Document (Sample.three_tasks ++ [Sample.archived])) ∧
  Storage.DeleteTask None (model.ID Sample.archived)
    (Storage.Document (Sample.three_tasks ++ [Sample.archived]))
    = (Storage.Ok (filter (λ t, model.ID t ≠ model.ID Sample.archived)
                          Sample.three_tasks),
       Storage.Document (filter (λ t, model.ID t ≠ model.ID Sample.archived)
                                Sample.three_tasks)) ∧
  (filter (λ t, model.ID t ≠ model.ID Sample.archived) Sample.three_tasks
     = Sample.three_tasks ↔
   ∀ t, t ∈ Sample.three_tasks → model.ID t ≠ model.ID Sample.archived).
Proof.
  apply (AddTask_DeleteTask Sample.archived
           (Storage.Document Sample.three_tasks) Sample.three_tasks).
  reflexivity.
Defined.

(** X16 ([Storage.UpdateTask]): an update keeps the identifiers of the
    collection, in number and in order; when the identifiers are
    distinct, they stay distinct and the only task that carries the
    identifier of the update afterwards is the update itself, with its new
    time stamp. *)
Theorem UpdateTask_keeps_identifiers (now : model.Time) (task : model.Task)
    (file : Storage.File) (tasks : list model.Task) :
  Storage.Load file = Storage.Ok tasks →
  ∃ result,
    Storage.UpdateTask now None task file
      = (Storage.Ok result, Storage.Document result) ∧
    model.ID <$> result = model.ID <$> tasks ∧
    (NoDup (model.ID <$> tasks) →
     NoDup (model.ID <$> result) ∧
     ∀ t, t ∈ result → model.ID t = model.ID task →
          t = model.with_UpdatedAt task now) ∧
    (model.ID task ∈ model.ID <$> tasks →
     model.with_UpdatedAt task now ∈ result).
Proof.
  intros Hload. unfold Storage.UpdateTask. rewrite Hload. simpl.
  eexists. split; [done |].
  split; [apply fmap_ID_replace_first |].
  split.
  { intros Hnodup. split; [by rewrite fmap_ID_replace_first |].
    intros t Hin Hid.
    by apply (replace_first_unique tasks (model.with_UpdatedAt task now)). }
  intros (t & Hid & Hin)%list_elem_of_fmap.
  apply list_elem_of_split in Hin as (before & after & ->).
  clear Hload. induction before as [|x before IH]; simpl.
  - rewrite decide_True by done. left.
  - destruct (decide (model.ID x = model.ID task)); [left |].
    right. apply IH.
Qed.

Lemma UpdateTask_keeps_identifiers_witness :
  ∃ result,
    Storage.UpdateTask 7 None Sample.edited
      (Storage.Document Sample.three_tasks)
      = (Storage.Ok result, Storage.Document result) ∧
    model.ID <$> result = model.ID <$> Sample.three_tasks ∧
    (NoDup (model.ID <$> Sample.three_tasks) →
     NoDup (model.ID <$> result) ∧
     ∀ t, t ∈ result → model.ID t = model.ID Sample.edited →
          t = model.with_UpdatedAt Sample.edited 7) ∧
    (model.ID Sample.edited ∈ model.ID <$> Sample.three_tasks →
     model.with_UpdatedAt Sample.edited 7 ∈ result).
Proof.
  apply (UpdateTask_keeps_identifiers 7 Sample.edited
           (Storage.Document Sample.three_tasks) Sample.three_tasks).
  reflexivity.
Defined.

(** ** More on white space, [Split] and [Join] *)

Section trim_more.

Local Abbreviation spaces := (Forall (λ r, strings.IsSpace r = true)).

Lemma TrimLeftSpace_head_nonspace s : head_nonspace (strings.TrimLeftSpace s).
Proof.
  destruct (strings.TrimLeftSpace s) as [|c rest] eqn:Hs; [done |].
  by apply TrimLeftSpace_head in Hs.
Qed.

Lemma TrimLeftSpace_fixed s : head_nonspace s → strings.TrimLeftSpace s = s.
Proof. destruct s as [|c s]; [done |]. simpl. by intros ->. Qed.

Lemma TrimLeftSpace_suffix s :
  ∃ pre, s = pre ++ strings.TrimLeftSpace s ∧ spaces pre.
Proof.
  induction s as [|c s (pre & IH & Hpre)]; [by exists [] |]. simpl.
  destruct (strings.IsSpace c) eqn:Hc.
  - exists (c :: pre). split; [by rewrite IH at 1 |]. by constructor.
  - by exists [].
Qed.

Lemma TrimSpace_fixed s :
  head_nonspace s → head_nonspace (reverse s) → strings.TrimSpace s = s.
Proof.
  intros Hhead Hlast. unfold strings.TrimSpace.
  rewrite (TrimLeftSpace_fixed s Hhead).
  rewrite (TrimLeftSpace_fixed _ Hlast). apply reverse_involutive.
Qed.

Lemma TrimSpace_head_nonspace s :
  head_nonspace (strings.TrimSpace s) ∧
  head_nonspace (reverse (strings.TrimSpace s)).
Proof.
  unfold strings.TrimSpace. rewrite reverse_involutive.
  split; [|apply TrimLeftSpace_head_nonspace].
  pose proof (TrimLeftSpace_head_nonspace s) as Hu.
  destruct (TrimLeftSpace_suffix (reverse (strings.TrimLeftSpace s)))
    as (pre & Heq & _).
  set (v := strings.TrimLeftSpace (reverse (strings.TrimLeftSpace s))) in *.
  apply (f_equal reverse) in Heq.
  rewrite reverse_involutive, reverse_app in Heq.
  destruct (reverse v) as [|c r]; [done |].
  rewrite Heq in Hu. done.
Qed.

(** Trimming twice is trimming once. *)
Lemma TrimSpace_idempotent s :
  strings.TrimSpace (strings.TrimSpace s) = strings.TrimSpace s.
Proof. apply TrimSpace_fixed; apply TrimSpace_head_nonspace. Qed.

Lemma elem_of_TrimLeftSpace s c : c ∈ strings.TrimLeftSpace s → c ∈ s.
Proof.
  destruct (TrimLeftSpace_suffix s) as (pre & Heq & _).
  intros Hin. rewrite Heq. apply elem_of_app. by right.
Qed.

Lemma elem_of_TrimSpace s c : c ∈ strings.TrimSpace s → c ∈ s.
Proof.
  unfold strings.TrimSpace. rewrite elem_of_reverse.
  intros Hin%elem_of_TrimLeftSpace. rewrite elem_of_reverse in Hin.
  by apply elem_of_TrimLeftSpace.
Qed.

Lemma TrimSpace_cons_space s : strings.TrimSpace (32 :: s) = strings.TrimSpace s.
Proof. done. Qed.

Lemma Split_nonempty s sep : strings.Split s sep ≠ [].
Proof.
  destruct s as [|c s]; [done |]. simpl.
  destruct (c =? sep); [done |]. by destruct (strings.Split s sep).
Qed.

(** No piece contains the separator. *)
Lemma Split_pieces s sep piece :
  piece ∈ strings.Split s sep → sep ∉ piece.
Proof.
  revert piece. induction s as [|c s IH]; intros piece; simpl.
  - intros ->%list_elem_of_singleton. by intros ?%elem_of_nil.
  - destruct (Z.eqb_spec c sep) as [->|Hne].
    + intros [-> | Hin]%elem_of_cons; [by intros ?%elem_of_nil |].
      by apply IH.
    + destruct (strings.Split s sep) as [|p ps] eqn:Hs.
      * intros ->%list_elem_of_singleton.
        intros [? | ?%elem_of_nil]%elem_of_cons; [congruence | done].
      * intros [-> | Hin]%elem_of_cons.
        -- intros [? | Hin]%elem_of_cons; [congruence |].
           apply (IH p); [left | done].
        -- apply IH. by right.
Qed.

Lemma Split_no_sep s sep : sep ∉ s → strings.Split s sep = [s].
Proof.
  induction s as [|c s IH]; [done |]. intros Hnot. simpl.
  destruct (Z.eqb_spec c sep) as [->|Hne]; [exfalso; apply Hnot; left |].
  rewrite IH; [done |]. intros Hin. apply Hnot. by right.
Qed.

Lemma Split_app_sep p rest sep :
  sep ∉ p →
  strings.Split (p ++ sep :: rest) sep = p :: strings.Split rest sep.
Proof.
  induction p as [|c p IH]; intros Hnot; simpl.
  - by rewrite Z.eqb_refl.
  - destruct (Z.eqb_spec c sep) as [->|Hne]; [exfalso; apply Hnot; left |].
    rewrite IH; [done |]. intros Hin. apply Hnot. by right.
Qed.

Lemma Join_cons_cons e e' rest sep :
  strings.Join (e :: e' :: rest) sep = e ++ sep ++ strings.Join (e' :: rest) sep.
Proof. done. Qed.

(** Splitting at the commas what was joined with ", ". *)
Lemma Split_Join p t rest :
  44 ∉ p → Forall (λ t, 44 ∉ t) (t :: rest) →
  strings.Split (p ++ strings.Join (t :: rest) (str ", ")) 44 =
  (p ++ t) :: ((λ t', 32 :: t') <$> rest).
Proof.
  revert p t. induction rest as [|t' rest IH]; intros p t Hp Hall.
  - simpl. apply Split_no_sep. apply Forall_cons in Hall as [Ht _].
    rewrite elem_of_app. tauto.
  - apply Forall_cons in Hall as [Ht Hall].
    rewrite Join_cons_cons. change (str ", ") with [44; 32].
    rewrite !app_assoc. rewrite <- (app_assoc (p ++ t)).
    change ([44; 32] ++ strings.Join (t' :: rest) [44; 32])
      with (44 :: ([32] ++ strings.Join (t' :: rest) [44; 32])).
    rewrite Split_app_sep by (rewrite elem_of_app; tauto).
    change [44; 32] with (str ", ").
    rewrite (IH [32] t'); [done | | done].
    by intros [? | ?%elem_of_nil]%elem_of_cons.
Qed.

End trim_more.

Section form_more.

Lemma parse_tags_form_tag tagStr tag :
  tag ∈ TaskForm.parse_tags tagStr → form_tag tag.
Proof.
  intros (Hne & piece & Hpiece & ->)%elem_of_parse_tags.
  split; [done |]. split; [apply TrimSpace_idempotent |].
  intros Hin%elem_of_TrimSpace. by apply (Split_pieces _ _ _ Hpiece).
Qed.

Lemma parse_tags_Join tags :
  Forall form_tag tags →
  TaskForm.parse_tags (strings.Join tags (str ", ")) = tags.
Proof.
  intros Hall. rewrite parse_tags_spec.
  destruct tags as [|t rest]; [done |].
  pose proof Hall as [(Hne & Htrim & Hcomma) Hrest]%Forall_cons.
  rewrite decide_False.
  2:{ destruct rest; simpl; [done |]. by destruct t. }
  rewrite <- (app_nil_l (strings.Join _ _)).
  rewrite Split_Join; [| by intros ?%elem_of_nil |].
  2:{ eapply Forall_impl; [exact Hall |]. by intros ? (_ & _ & ?). }
  rewrite app_nil_l, fmap_cons, Htrim, filter_cons_True by done.
  f_equal. clear Hall Hne Htrim Hcomma.
  induction Hrest as [|t' rest (Hne & Htrim & _) _ IH]; [done |].
  rewrite !fmap_cons, TrimSpace_cons_space, Htrim.
  rewrite filter_cons_True by done. by rewrite IH.
Qed.

Lemma index_of_priority p idx :
  p ∈ model.AllPriorities →
  at_index model.AllPriorities
    (TaskForm.index_of model.AllPriorities p 0 idx) = Some p.
Proof.
  intros [-> | [-> | [-> | ->]]]%AllPriorities_cases; by vm_compute.
Qed.

Lemma index_of_status s idx :
  s ∈ model.AllStatuses →
  at_index model.AllStatuses
    (TaskForm.index_of model.AllStatuses s 0 idx) = Some s.
Proof.
  intros [-> | [-> | [-> | ->]]]%AllStatuses_cases; by vm_compute.
Qed.

(** The selector loop returns a position of the list or leaves the
    index as it was. *)
Lemma index_of_range xs y i idx :
  i ≤ TaskForm.index_of xs y i idx < i + len xs ∨
  TaskForm.index_of xs y i idx = idx.
Proof.
  revert i. induction xs as [|x xs IH]; intros i; simpl; [by right |].
  destruct (decide (x = y)).
  - left. unfold len. simpl. lia.
  - destruct (IH (i + 1)) as [Hr | ->]; [left | by right].
    unfold len in *. simpl. lia.
Qed.

Lemma selectors_at_index f :
  TaskForm.selectors_in_range f →
  ∃ p s, at_index model.AllPriorities (TaskForm.priorityIdx f) = Some p ∧
         at_index model.AllStatuses (TaskForm.statusIdx f) = Some s ∧
         p ∈ model.AllPriorities ∧ s ∈ model.AllStatuses.
Proof.
  intros [Hp Hs].
  destruct (at_index_is_Some model.AllPriorities (TaskForm.priorityIdx f))
    as [p Hpi]; [done |].
  destruct (at_index_is_Some model.AllStatuses (TaskForm.statusIdx f))
    as [s Hsi]; [done |].
  exists p, s. split; [done |]. split; [done |].
  split; by eapply at_index_elem_of.
Qed.

Lemma SetTask_selectors_in_range
    (textinput_SetValue : gostring → textinput.Model → textinput.Model)
    f e :
  TaskForm.selectors_in_range f →
  TaskForm.selectors_in_range (TaskForm.SetTask textinput_SetValue f e).
Proof.
  intros [Hp Hs]. destruct e as [e|]; [|by vm_compute].
  unfold TaskForm.selectors_in_range, TaskForm.SetTask.
  cbn [TaskForm.priorityIdx TaskForm.statusIdx].
  split.
  - destruct (index_of_range model.AllPriorities (model.Priority_ e) 0
                (TaskForm.priorityIdx f)) as [Hr | ->]; [|done].
    change (len model.AllPriorities) with 4 in Hr. lia.
  - destruct (index_of_range model.AllStatuses (model.Status_ e) 0
                (TaskForm.statusIdx f)) as [Hr | ->]; [|done].
    change (len model.AllStatuses) with 4 in Hr. lia.
Qed.

Lemma Update_selectors_in_range
    (textinput_Update :
       tea.Msg → textinput.Model → textinput.Model * option nat)
    f msg :
  TaskForm.selectors_in_range f →
  TaskForm.selectors_in_range (TaskForm.Update textinput_Update f msg).1.
Proof.
  intros [Hp Hs].
  unfold TaskForm.Update, TaskForm.selectors_in_range.
  change (len model.AllPriorities) with 4.
  change (len model.AllStatuses) with 4.
  destruct msg; repeat case_match; simpl;
    repeat match goal with
           | H : (_ <? _) = true |- _ => apply Z.ltb_lt in H
           end; lia.
Qed.

Lemma GetTask_selectors_in_range uuid now f :
  TaskForm.selectors_in_range f →
  ∃ task, TaskForm.GetTask uuid now f = Some task ∧
          model.Priority_ task ∈ model.AllPriorities ∧
          model.Status_ task ∈ model.AllStatuses ∧
          model.Title task = textinput.Value (TaskForm.titleInput f).
Proof.
  intros Hsel.
  destruct (selectors_at_index f Hsel) as (p & s & Hpi & Hsi & Hp & Hs).
  unfold TaskForm.GetTask. rewrite Hpi, Hsi. simpl.
  eexists. split; [done |]. done.
Qed.

End form_more.

(** X17 ([TaskForm.nextField], [TaskForm.prevField]): after either
    move exactly the text input of the focused field has the focus; the
    two moves undo each other on the focused field, and on the whole form
    when its focus flags were consistent; seven moves forward lead back to
    the field they started from, and neither move changes a value or a
    selector. *)
Theorem TaskForm_focus_cycle (f : TaskForm.t) :
  TaskForm.focus_consistent (TaskForm.nextField f) ∧
  TaskForm.focus_consistent (TaskForm.prevField f) ∧
  TaskForm.focusedField (TaskForm.prevField (TaskForm.nextField f))
    = TaskForm.focusedField f ∧
  TaskForm.focusedField (TaskForm.nextField (TaskForm.prevField f))
    = TaskForm.focusedField f ∧
  (TaskForm.focus_consistent f →
   TaskForm.prevField (TaskForm.nextField f) = f ∧
   TaskForm.nextField (TaskForm.prevField f) = f) ∧
  TaskForm.focusedField (Nat.iter 7 TaskForm.nextField f)
    = TaskForm.focusedField f ∧
  (∀ g, g = TaskForm.nextField f ∨ g = TaskForm.prevField f →
     textinput.Value (TaskForm.titleInput g)
       = textinput.Value (TaskForm.titleInput f) ∧
     textinput.Value (TaskForm.descInput g)
       = textinput.Value (TaskForm.descInput f) ∧
     textinput.Value (TaskForm.tagsInput g)
       = textinput.Value (TaskForm.tagsInput f) ∧
     TaskForm.priorityIdx g = TaskForm.priorityIdx f ∧
     TaskForm.statusIdx g = TaskForm.statusIdx f ∧
     TaskForm.task g = TaskForm.task f ∧
     TaskForm.isNew g = TaskForm.isNew f).
Proof.
  destruct f as [task isNew field [tv tf] [dv df] [gv gf] pi si w h].
  split; [by destruct field |].
  split; [by destruct field |].
  split; [by destruct field |].
  split; [by destruct field |].
  split.
  { unfold TaskForm.focus_consistent. simpl.
    intros (-> & -> & ->). by destruct field. }
  split; [by destruct field |].
  intros g [-> | ->]; by destruct field.
Qed.

(** X18 (the selectors of the form): the priority and status selectors of
    the fresh form point into their lists, and [SetTask], [SetSize] and
    [Update] keep them there, whatever the message; with the selectors in
    range [GetTask] returns (its two index expressions do not fail) a task
    whose priority and status are known ones and whose title is the text of
    the title field. *)
Theorem TaskForm_selectors_in_range
    (textinput_SetValue : gostring → textinput.Model → textinput.Model)
    (textinput_Update :
       tea.Msg → textinput.Model → textinput.Model * option nat)
    (uuid : gostring) (now : model.Time) :
  TaskForm.selectors_in_range TaskForm.NewTaskForm ∧
  ∀ f, TaskForm.selectors_in_range f →
    (∀ e, TaskForm.selectors_in_range
            (TaskForm.SetTask textinput_SetValue f e)) ∧
    (∀ w h, TaskForm.selectors_in_range (TaskForm.SetSize f w h)) ∧
    (∀ msg, TaskForm.selectors_in_range
              (TaskForm.Update textinput_Update f msg).1) ∧
    ∃ task, TaskForm.GetTask uuid now f = Some task ∧
            model.Priority_ task ∈ model.AllPriorities ∧
            model.Status_ task ∈ model.AllStatuses ∧
            model.Title task = textinput.Value (TaskForm.titleInput f).
Proof.
  split; [by vm_compute |].
  intros f Hsel.
  split; [intros e; by apply SetTask_selectors_in_range |].
  split; [done |].
  split; [intros msg; by apply Update_selectors_in_range |].
  by apply GetTask_selectors_in_range.
Qed.

(** X19 (the tag loop of [TaskForm.GetTask]): every tag the form stores
    is not empty, has no white space at either end and holds no comma;
    a list of such tags, joined with ", " as [SetTask] does and parsed
    again, comes back unchanged, so showing the stored tags in the form
    and submitting them again stores the same tags. *)
Theorem parse_tags_normal_form (tagStr : gostring) :
  Forall form_tag (TaskForm.parse_tags tagStr) ∧
  TaskForm.parse_tags
    (strings.Join (TaskForm.parse_tags tagStr) (str ", "))
    = TaskForm.parse_tags tagStr ∧
  (∀ tags, Forall form_tag tags →
           TaskForm.parse_tags (strings.Join tags (str ", ")) = tags).
Proof.
  assert (Forall form_tag (TaskForm.parse_tags tagStr)) as Hall.
  { apply Forall_forall. intros tag. apply parse_tags_form_tag. }
  split; [done |]. split; [by apply parse_tags_Join |].
  apply parse_tags_Join.
Qed.

(** X20 ([TaskForm.SetTask], [TaskForm.GetTask]): opening a task in the
    form and reading the form back without a change returns the task
    itself, when the text inputs hold the values they are given, the
    priority and the status are known ones and the tags are as the form
    stores them. *)
Theorem TaskForm_edit_round_trip
    (textinput_SetValue : gostring → textinput.Model → textinput.Model)
    (uuid : gostring) (now : model.Time) (f : TaskForm.t)
    (task : model.Task) :
  (∀ v m, textinput.Value (textinput_SetValue v m) = v) →
  model.Priority_ task ∈ model.AllPriorities →
  model.Status_ task ∈ model.AllStatuses →
  Forall form_tag (model.Tags task) →
  TaskForm.GetTask uuid now
    (TaskForm.SetTask textinput_SetValue f (Some task)) = Some task.
Proof.
  intros Hvalue Hp Hs Htags. unfold TaskForm.GetTask, TaskForm.SetTask.
  cbn [TaskForm.task TaskForm.priorityIdx TaskForm.statusIdx
       TaskForm.titleInput TaskForm.descInput TaskForm.tagsInput].
  rewrite (index_of_priority _ _ Hp), (index_of_status _ _ Hs).
  cbn [mbind option_bind].
  change (textinput.Value (textinput.Focus ?m)) with (textinput.Value m).
  change (textinput.Value (textinput.Blur ?m)) with (textinput.Value m).
  rewrite !Hvalue. rewrite (parse_tags_Join _ Htags). by destruct task.
Qed.

Lemma TaskForm_edit_round_trip_witness :
  TaskForm.GetTask (str "id") 0
    (TaskForm.SetTask Sample.SetValue TaskForm.NewTaskForm
       (Some (Sample.task "a" "write" model.StatusTodo model.PriorityLow
                [str "doc"])))
  = Some (Sample.task "a" "write" model.StatusTodo model.PriorityLow
            [str "doc"]).
Proof.
  apply (TaskForm_edit_round_trip Sample.SetValue (str "id") 0
           TaskForm.NewTaskForm
           (Sample.task "a" "write" model.StatusTodo model.PriorityLow
              [str "doc"])).
  - reflexivity.
  - apply (bool_decide_unpack _). by vm_compute.
  - apply (bool_decide_unpack _). by vm_compute.
  - apply Forall_singleton. split; [done |]. split; [reflexivity |].
    apply (bool_decide_unpack _). by vm_compute.
Defined.

(** ** The application: every message is handled *)

Section app_more.
Context (unicode_ToLower : rune → rune).
Context (textinput_SetValue : gostring → textinput.Model → textinput.Model).
Context (textinput_Update :
           tea.Msg → textinput.Model → textinput.Model * option nat).
Context (uuid : gostring) (now : model.Time).
Import App.

Local Abbreviation handled r :=
  (∃ a' cmd, r = Some (a', cmd) ∧ reachable a').

Lemma ListView_set_tasks_reachable l ts :
  length ts = length (ListView.tasks l) →
  ListView.reachable l → ListView.reachable (ListView.set_tasks l ts).
Proof.
  intros Hlen (Hv & Hrefs & Hcur). split; [|done].
  eapply Forall_impl; [exact Hv |]. intros idx [y Hy%at_index_in_range].
  apply at_index_is_Some. unfold len in *. simpl. lia.
Qed.

Lemma KanbanView_set_tasks_same k :
  KanbanView.set_tasks k (KanbanView.tasks k) = k.
Proof. by destruct k. Qed.

Lemma NewApp_reachable : reachable NewApp.
Proof.
  split; [done |]. split.
  { split; [by apply Forall_nil |]. split; [|by right].
    by intros idx ?%elem_of_nil. }
  split; [apply NewKanbanView_reachable | by vm_compute].
Qed.

Lemma share_tasks_reachable a ts :
  length ts = length (tasks a) → reachable a → reachable (share_tasks a ts).
Proof.
  intros Hlen ((Hsl & Hsk) & Hl & Hk & Hf).
  split; [done |]. split.
  { apply ListView_set_tasks_reachable; [by rewrite Hsl | done]. }
  split; [|done].
  apply set_tasks_reachable; [by rewrite Hsk | done].
Qed.

Lemma selectedTask_reachable a :
  reachable a →
  ∃ sel, selectedTask a = Some sel ∧
         ∀ i task, sel = Some (i, task) → at_index (tasks a) i = Some task.
Proof.
  intros ((Hsl & Hsk) & Hl & Hk & _). unfold selectedTask. case_decide.
  - destruct (SelectedTask_reachable _ Hl) as (sel & Hsel & _ & _ & Hat).
    exists sel. split; [done |]. intros i task Heq.
    destruct (Hat i task Heq) as (_ & _ & ?). by rewrite <- Hsl.
  - destruct (SelectedTask_reachable_kanban _ Hk)
      as (col & _ & [(_ & Hsel & _) | (item & task & _ & _ & _ & Hat & Hsel & _)]).
    + exists None. by split.
    + eexists. split; [exact Hsel |]. intros i t [= <- <-]. by rewrite <- Hsk.
Qed.

(** A write through the pointer [selectedTask] returned. *)
Lemma write_task_reachable a i task task' :
  reachable a → selectedTask a = Some (Some (i, task)) →
  write_task a i task'
    = Some (share_tasks a (<[Z.to_nat i := task']> (tasks a))) ∧
  reachable (share_tasks a (<[Z.to_nat i := task']> (tasks a))) ∧
  at_index (<[Z.to_nat i := task']> (tasks a)) i = Some task'.
Proof.
  intros Hreach Hsel. pose proof Hreach as ((Hsl & Hsk) & _).
  destruct (selectedTask_reachable a Hreach) as (sel & Hsel' & Hat).
  assert (at_index (tasks a) i = Some task) as Hi.
  { apply Hat. congruence. }
  pose proof (at_index_in_range _ _ _ Hi) as Hr.
  split.
  { unfold write_task.
    assert ((if decide (viewMode a = ViewList)
             then ListView.tasks (listView a)
             else KanbanView.tasks (kanbanView a)) = tasks a) as ->
      by (by case_decide).
    unfold set_index.
    destruct (Z.leb_spec 0 i); [|lia].
    destruct (Z.ltb_spec i (len (tasks a))); [|lia]. done. }
  split.
  { apply share_tasks_reachable; [by rewrite length_insert | done]. }
  apply at_index_Some. split; [lia |]. apply list_lookup_insert_eq.
  unfold len in Hr. lia.
Qed.

Lemma set_kanbanView_reachable a k :
  reachable a → KanbanView.reachable k →
  KanbanView.tasks k = KanbanView.tasks (kanbanView a) →
  reachable (set_kanbanView a k).
Proof.
  intros ((Hsl & Hsk) & Hl & Hk & Hf) Hk' Hts.
  split; [|done]. split; [done |]. simpl. by rewrite Hts.
Qed.

Lemma set_listView_reachable a l :
  reachable a → ListView.reachable l →
  ListView.tasks l = ListView.tasks (listView a) →
  reachable (set_listView a l).
Proof.
  intros ((Hsl & Hsk) & Hl & Hk & Hf) Hl' Hts.
  split; [|done]. split; [|done]. simpl. by rewrite Hts.
Qed.

Lemma moveUp_reachable a :
  reachable a → ∃ a', moveUp a = Some a' ∧ reachable a' ∧ state a' = state a.
Proof.
  intros Hreach. pose proof Hreach as (_ & Hl & Hk & _).
  unfold moveUp. case_decide.
  - destruct (MoveUp_reachable _ Hl) as (l' & -> & Hl' & Hts & _).
    eexists. split; [done |]. split; [|done].
    by apply set_listView_reachable.
  - destruct (MoveUp_reachable_kanban _ Hk) as (k' & -> & Hk' & Hts & _).
    eexists. split; [done |]. split; [|done].
    by apply set_kanbanView_reachable.
Qed.

Lemma moveDown_reachable a :
  reachable a →
  ∃ a', moveDown a = Some a' ∧ reachable a' ∧ state a' = state a.
Proof.
  intros Hreach. pose proof Hreach as (_ & Hl & Hk & _).
  unfold moveDown. case_decide.
  - destruct (MoveDown_reachable _ Hl) as (l' & -> & Hl' & Hts & _).
    eexists. split; [done |]. split; [|done].
    by apply set_listView_reachable.
  - destruct (MoveDown_reachable_kanban _ Hk) as (k' & -> & Hk' & Hts & _).
    eexists. split; [done |]. split; [|done].
    by apply set_kanbanView_reachable.
Qed.

Lemma set_taskForm_reachable a f :
  reachable a → TaskForm.selectors_in_range f →
  reachable (set_taskForm a f).
Proof. intros (Hs & Hl & Hk & Hf) Hf'. done. Qed.

Lemma setTaskStatus_reachable a status :
  reachable a → handled (setTaskStatus a status).
Proof.
  intros Hreach. unfold setTaskStatus.
  destruct (selectedTask_reachable a Hreach) as (sel & Hsel & _).
  rewrite Hsel. simpl. destruct sel as [[i task]|]; [|by eexists _, _].
  destruct (write_task_reachable a i task (model.with_Status task status)
              Hreach Hsel) as (-> & Hreach' & _).
  simpl. by eexists _, _.
Qed.

Lemma move_task_reachable a k' :
  reachable a → KanbanView.reachable k' →
  length (KanbanView.tasks k') = length (KanbanView.tasks (kanbanView a)) →
  reachable (share_tasks (set_kanbanView a k') (KanbanView.tasks k')).
Proof.
  intros ((Hsl & Hsk) & Hl & Hk & Hf) Hk' Hlen.
  split; [done |]. split.
  { apply ListView_set_tasks_reachable; [|done].
    simpl. rewrite Hsl, <- Hsk. done. }
  split; [|done]. simpl. by rewrite KanbanView_set_tasks_same.
Qed.

Lemma handleNormalKeys_reachable a key :
  reachable a → handled (handleNormalKeys textinput_SetValue a key).
Proof.
  intros Hreach. pose proof Hreach as ((Hsl & Hsk) & Hl & Hk & Hf).
  destruct (selectedTask_reachable a Hreach) as (sel & Hsel & _).
  unfold handleNormalKeys.
  destruct (keys.Matches key keys.Up).
  { destruct (moveUp_reachable a Hreach) as (a' & -> & ? & _).
    by eexists _, _. }
  destruct (keys.Matches key keys.Down).
  { destruct (moveDown_reachable a Hreach) as (a' & -> & ? & _).
    by eexists _, _. }
  destruct (keys.Matches key keys.Left).
  { eexists _, _. split; [done |]. case_decide; [|done].
    apply set_kanbanView_reachable; [done | by apply MoveLeft_reachable |].
    unfold KanbanView.MoveLeft. by case_match. }
  destruct (keys.Matches key keys.Right).
  { eexists _, _. split; [done |]. case_decide; [|done].
    apply set_kanbanView_reachable; [done | by apply MoveRight_reachable |].
    unfold KanbanView.MoveRight. by case_match. }
  destruct (keys.Matches key keys.MoveLeft).
  { case_decide; [|by eexists _, _].
    destruct (MoveTaskLeft_reachable _ Hk)
      as (k' & moved & -> & Hk' & _ & _ & Hlen & _).
    simpl. destruct moved; [|by eexists _, _].
    eexists _, _. split; [done |]. by apply move_task_reachable. }
  destruct (keys.Matches key keys.MoveRight).
  { case_decide; [|by eexists _, _].
    destruct (MoveTaskRight_reachable _ Hk)
      as (k' & moved & -> & Hk' & _ & _ & Hlen & _).
    simpl. destruct moved; [|by eexists _, _].
    eexists _, _. split; [done |]. by apply move_task_reachable. }
  destruct (keys.Matches key keys.Add).
  { eexists _, _. split; [done |].
    apply (set_taskForm_reachable a); [done |].
    by apply SetTask_selectors_in_range. }
  destruct (keys.Matches key keys.Edit || keys.Matches key keys.Enter).
  { rewrite Hsel. simpl. destruct sel as [[i task]|]; [|by eexists _, _].
    eexists _, _. split; [done |].
    apply (set_taskForm_reachable a); [done |].
    by apply SetTask_selectors_in_range. }
  destruct (keys.Matches key keys.Delete).
  { rewrite Hsel. simpl. destruct sel as [[i task]|]; by eexists _, _. }
  destruct (keys.Matches key keys.Priority).
  { rewrite Hsel. simpl. destruct sel as [[i task]|]; [|by eexists _, _].
    destruct (write_task_reachable a i task
                (model.with_Priority task
                   (model.Priority_Next (model.Priority_ task)))
                Hreach Hsel) as (-> & Hreach' & _).
    simpl. by eexists _, _. }
  destruct (keys.Matches key keys.Tag).
  { rewrite Hsel. simpl. destruct sel as [[i task]|]; by eexists _, _. }
  destruct (keys.Matches key keys.StatusTodo);
    [by apply setTaskStatus_reachable |].
  destruct (keys.Matches key keys.StatusInProgress);
    [by apply setTaskStatus_reachable |].
  destruct (keys.Matches key keys.StatusBlocked);
    [by apply setTaskStatus_reachable |].
  destruct (keys.Matches key keys.StatusDone);
    [by apply setTaskStatus_reachable |].
  destruct (keys.Matches key keys.ToggleView).
  { case_decide; [|by eexists _, _].
    destruct (SelectedTask_reachable _ Hl) as (lsel & Hlsel & _).
    change (listView (set_viewMode a ViewKanban)) with (listView a).
    rewrite Hlsel. simpl. destruct lsel as [[i task]|]; [|by eexists _, _].
    eexists _, _. split; [done |].
    apply (set_kanbanView_reachable (set_viewMode a ViewKanban));
      [done | by apply SetActiveColumn_reachable |].
    unfold KanbanView.SetActiveColumn. by case_match. }
  destruct (keys.Matches key keys.Search); [by eexists _, _ |].
  destruct (keys.Matches key keys.Help); [by eexists _, _ |].
  destruct (keys.Matches key keys.Refresh); [by eexists _, _ |].
  destruct (keys.Matches key keys.OpenEditor); by eexists _, _.
Qed.

Lemma to_form_reachable a msg :
  reachable a →
  handled (let '(f, cmd) :=
             TaskForm.Update textinput_Update (taskForm a) msg in
           Some (set_taskForm a f, cmd)).
Proof.
  intros Hreach. pose proof Hreach as (_ & _ & _ & Hf).
  pose proof (Update_selectors_in_range textinput_Update _ msg Hf) as Hf'.
  destruct (TaskForm.Update textinput_Update (taskForm a) msg) as [f cmd].
  eexists _, _. split; [done |]. by apply set_taskForm_reachable.
Qed.

Lemma handleFormKeys_reachable a key :
  reachable a → handled (handleFormKeys textinput_Update uuid now a key).
Proof.
  intros Hreach. pose proof Hreach as (_ & _ & _ & Hf).
  unfold handleFormKeys.
  destruct (String.eqb key "esc"); [by eexists _, _ |].
  destruct (String.eqb key "enter"); [|by apply to_form_reachable].
  destruct (TaskForm.IsFocusedOnSubmit (taskForm a)).
  - destruct (TaskForm.IsValid (taskForm a)); [|by apply to_form_reachable].
    destruct (GetTask_selectors_in_range uuid now _ Hf) as (task & -> & _).
    simpl. destruct (TaskForm.isNew (taskForm a)); by eexists _, _.
  - destruct (TaskForm.IsFocusedOnCancel (taskForm a));
      [by eexists _, _ | by apply to_form_reachable].
Qed.

Lemma handleHelpKeys_reachable a key :
  reachable a → handled (handleHelpKeys a key).
Proof.
  intros Hreach. unfold handleHelpKeys. case_match; by eexists _, _.
Qed.

Lemma set_filter_reachable a flt (m : textinput.Model) :
  reachable a →
  ∃ l, ListView.SetFilter unicode_ToLower
         (listView (set_searchInput a m)) flt = Some l ∧
       reachable (set_listView (set_searchInput a m) l) ∧
       ListView.filter l = strings.ToLower unicode_ToLower flt.
Proof.
  intros Hreach.
  destruct (SetFilter_reachable unicode_ToLower (listView a) flt)
    as (l & Hset & Hl & Hts & _ & Hflt).
  exists l. split; [done |]. split; [|done].
  by apply (set_listView_reachable (set_searchInput a m)).
Qed.

Lemma handleSearchKeys_reachable a key :
  reachable a →
  handled (handleSearchKeys unicode_ToLower textinput_SetValue
             textinput_Update a key).
Proof.
  intros Hreach. unfold handleSearchKeys.
  destruct (String.eqb key "esc").
  { destruct (set_filter_reachable a []
                (textinput_SetValue [] (searchInput a)) Hreach)
      as (l & -> & Hreach' & _).
    simpl. by eexists _, _. }
  destruct (String.eqb key "enter"); [by eexists _, _ |].
  destruct (textinput_Update (tea.KeyMsg key) (searchInput a)) as [m cmd].
  destruct (set_filter_reachable a (textinput.Value m) m Hreach)
    as (l & Hset & Hreach' & _).
  change (textinput.Value (searchInput (set_searchInput a m)))
    with (textinput.Value m).
  rewrite Hset. simpl. by eexists _, _.
Qed.

Lemma handleDeleteConfirmKeys_reachable a key :
  reachable a → handled (handleDeleteConfirmKeys a key).
Proof.
  intros Hreach. unfold handleDeleteConfirmKeys, deleteSelectedTask.
  destruct (String.eqb key "y" || String.eqb key "Y").
  { destruct (selectedTask_reachable a Hreach) as (sel & Hsel & _).
    change (selectedTask (set_state a StateNormal)) with (selectedTask a).
    rewrite Hsel. simpl. destruct sel as [[i task]|]; by eexists _, _. }
  case_match; by eexists _, _.
Qed.

Lemma handleTagInputKeys_reachable a key :
  reachable a → handled (handleTagInputKeys textinput_Update a key).
Proof.
  intros Hreach. unfold handleTagInputKeys.
  destruct (String.eqb key "esc"); [by eexists _, _ |].
  destruct (String.eqb key "enter").
  { case_decide; [|by eexists _, _].
    destruct (selectedTask_reachable a Hreach) as (sel & Hsel & _).
    rewrite Hsel. simpl. destruct sel as [[i task]|]; [|by eexists _, _].
    destruct (write_task_reachable a i task
                (model.with_Tags task
                   (toggle_tag (model.Tags task)
                      (strings.TrimSpace (textinput.Value (tagInput a)))))
                Hreach Hsel) as (-> & Hreach' & _).
    simpl. by eexists _, _. }
  destruct (textinput_Update (tea.KeyMsg key) (tagInput a)) as [m cmd].
  by eexists _, _.
Qed.

Lemma handleKeyPress_reachable a key :
  reachable a →
  handled (handleKeyPress unicode_ToLower textinput_SetValue textinput_Update
             uuid now a key).
Proof.
  intros Hreach. unfold handleKeyPress.
  case_match; [by eexists _, _ |].
  destruct (state a).
  - by apply handleNormalKeys_reachable.
  - by apply handleFormKeys_reachable.
  - by apply handleHelpKeys_reachable.
  - by apply handleSearchKeys_reachable.
  - by apply handleDeleteConfirmKeys_reachable.
  - by apply handleTagInputKeys_reachable.
Qed.

(** [refreshViews] after the tasks were replaced. *)
Lemma refreshViews_reachable a ts :
  reachable a →
  ∃ a', refreshViews unicode_ToLower (set_tasks a ts) = Some a' ∧
        reachable a' ∧ tasks a' = ts ∧ state a' = state a ∧
        viewMode a' = viewMode a ∧
        ListView.filter (listView a') = ListView.filter (listView a) ∧
        KanbanView.activeCol (kanbanView a')
          = KanbanView.activeCol (kanbanView a).
Proof.
  intros (_ & Hl & Hk & Hf). unfold refreshViews.
  destruct (SetTasks_reachable unicode_ToLower (listView a) ts
              (reachable_cursor _ Hl))
    as (l' & Hset & Hl' & Hlts & Hflt & _).
  change (listView (set_tasks a ts)) with (listView a).
  change (tasks (set_tasks a ts)) with ts.
  rewrite Hset. simpl.
  destruct (SetTasks_reachable_kanban (kanbanView a) ts
              (reachable_cursors_nonneg _ Hk) (proj1 Hk))
    as (k' & Hkset & Hk' & Hkts & Hact & _).
  rewrite Hkset. simpl. eexists. split; [done |].
  split; [by split |]. done.
Qed.

Lemma Update_reachable a msg :
  reachable a →
  handled (Update unicode_ToLower textinput_SetValue textinput_Update
             uuid now a msg).
Proof.
  intros Hreach. destruct msg as [w h|e|ts| |e|key|n];
    unfold Update; cbv beta iota.
  - eexists _, _. split; [done |]. exact Hreach.
  - by eexists _, _.
  - destruct (refreshViews_reachable a ts Hreach) as (a' & -> & ? & _).
    simpl. by eexists _, _.
  - by eexists _, _.
  - eexists _, _. split; [done |]. by destruct e.
  - by apply handleKeyPress_reachable.
  - destruct (state a); try by eexists _, _.
    + by apply to_form_reachable.
    + destruct (textinput_Update (tea.otherMsg n) (searchInput a))
        as [m cmd].
      destruct (set_filter_reachable a (textinput.Value m) m Hreach)
        as (l & Hset & Hreach' & _).
      change (textinput.Value (searchInput (set_searchInput a m)))
        with (textinput.Value m).
      rewrite Hset. simpl. by eexists _, _.
    + destruct (textinput_Update (tea.otherMsg n) (tagInput a)) as [m cmd].
      by eexists _, _.
Qed.

End app_more.

(** ** The application: where each command comes from *)

Section app_commands.
Context (unicode_ToLower : rune → rune).
Context (textinput_SetValue : gostring → textinput.Model → textinput.Model).
Context (textinput_Update :
           tea.Msg → textinput.Model → textinput.Model * option nat).
Context (uuid : gostring) (now : model.Time).
Import App.

(** A branch that issues no command. *)
Local Ltac no_cmd :=
  let H := fresh "Hhandled" in
  intros H; simplify_option_eq; repeat (case_match; simplify_option_eq).

Lemma MoveTaskLeft_moved k k' t :
  KanbanView.MoveTaskLeft k = Some (k', Some t) →
  ∃ i old, KanbanView.SelectedTask k = Some (Some (i, old)) ∧
    t = model.with_Status old
          (model.StatusFromIndex (KanbanView.activeCol k - 1)) ∧
    k' = KanbanView.set_tasks k (<[Z.to_nat i := t]> (KanbanView.tasks k)).
Proof.
  unfold KanbanView.MoveTaskLeft, KanbanView.write_status, set_index.
  no_cmd. by eexists _, _.
Qed.

Lemma MoveTaskRight_moved k k' t :
  KanbanView.MoveTaskRight k = Some (k', Some t) →
  ∃ i old, KanbanView.SelectedTask k = Some (Some (i, old)) ∧
    t = model.with_Status old
          (model.StatusFromIndex (KanbanView.activeCol k + 1)) ∧
    k' = KanbanView.set_tasks k (<[Z.to_nat i := t]> (KanbanView.tasks k)).
Proof.
  unfold KanbanView.MoveTaskRight, KanbanView.write_status, set_index.
  no_cmd. by eexists _, _.
Qed.

Lemma write_task_shown a i task' a' :
  write_task a i task' = Some a' →
  a' = share_tasks a (<[Z.to_nat i := task']> (shown_tasks a)).
Proof.
  unfold write_task. fold (shown_tasks a).
  unfold set_index. case_match; [|done]. simpl. by intros [= <-].
Qed.

Lemma setTaskStatus_cmd a status a' cmd :
  state a = StateNormal →
  setTaskStatus a status = Some (a', Some cmd) →
  ∃ task, cmd = tea.updateTask task ∧ amended a a' task.
Proof.
  intros Hstate. unfold setTaskStatus.
  destruct (selectedTask a) as [[[i old]|]|] eqn:Hsel; simpl; [|done..].
  destruct (write_task a i (model.with_Status old status)) as [a1|] eqn:Hw;
    simpl; [|done].
  intros [= <- <-]. apply write_task_shown in Hw as ->.
  eexists. split; [done |]. exists i, old.
  repeat (split; [done |]). rewrite <- Hstate. by destruct a.
Qed.

Lemma handleNormalKeys_cmd a key a' cmd :
  state a = StateNormal →
  handleNormalKeys textinput_SetValue a key = Some (a', Some cmd) →
  (∃ task, cmd = tea.updateTask task ∧ amended a a' task) ∨
  (cmd = tea.loadTasks ∧ keys.Matches key keys.Refresh = true ∧ a' = a) ∨
  (cmd = tea.openEditor ∧ keys.Matches key keys.OpenEditor = true ∧ a' = a).
Proof.
  intros Hstate. unfold handleNormalKeys.
  destruct (keys.Matches key keys.Up);
    [by no_cmd |].
  destruct (keys.Matches key keys.Down);
    [by no_cmd |].
  destruct (keys.Matches key keys.Left); [done |].
  destruct (keys.Matches key keys.Right); [done |].
  destruct (keys.Matches key keys.MoveLeft).
  { case_decide as Hmode; [|done].
    destruct (KanbanView.MoveTaskLeft (kanbanView a))
      as [[k' [t|]]|] eqn:Hmove; simpl; [|done..].
    intros [= <- <-]. left. eexists. split; [done |].
    apply MoveTaskLeft_moved in Hmove as (i & old & Hsel & -> & ->).
    exists i, old. unfold selectedTask. rewrite decide_False by congruence.
    repeat (split; [done |]). unfold shown_tasks.
    rewrite decide_False by congruence. rewrite <- Hstate. by destruct a. }
  destruct (keys.Matches key keys.MoveRight).
  { case_decide as Hmode; [|done].
    destruct (KanbanView.MoveTaskRight (kanbanView a))
      as [[k' [t|]]|] eqn:Hmove; simpl; [|done..].
    intros [= <- <-]. left. eexists. split; [done |].
    apply MoveTaskRight_moved in Hmove as (i & old & Hsel & -> & ->).
    exists i, old. unfold selectedTask. rewrite decide_False by congruence.
    repeat (split; [done |]). unfold shown_tasks.
    rewrite decide_False by congruence. rewrite <- Hstate. by destruct a. }
  destruct (keys.Matches key keys.Add); [done |].
  destruct (keys.Matches key keys.Edit || keys.Matches key keys.Enter);
    [by no_cmd |].
  destruct (keys.Matches key keys.Delete);
    [by no_cmd |].
  destruct (keys.Matches key keys.Priority).
  { destruct (selectedTask a) as [[[i old]|]|] eqn:Hsel; simpl; [|done..].
    destruct (write_task a i _) as [a1|] eqn:Hw; simpl; [|done].
    intros [= <- <-]. apply write_task_shown in Hw as ->.
    left. eexists. split; [done |]. exists i, old.
    repeat (split; [done |]). rewrite <- Hstate. by destruct a. }
  destruct (keys.Matches key keys.Tag);
    [by no_cmd |].
  destruct (keys.Matches key keys.StatusTodo);
    [intros Hhandled; left; by eapply setTaskStatus_cmd |].
  destruct (keys.Matches key keys.StatusInProgress);
    [intros Hhandled; left; by eapply setTaskStatus_cmd |].
  destruct (keys.Matches key keys.StatusBlocked);
    [intros Hhandled; left; by eapply setTaskStatus_cmd |].
  destruct (keys.Matches key keys.StatusDone);
    [intros Hhandled; left; by eapply setTaskStatus_cmd |].
  destruct (keys.Matches key keys.ToggleView);
    [by no_cmd |].
  destruct (keys.Matches key keys.Search); [done |].
  destruct (keys.Matches key keys.Help); [done |].
  destruct (keys.Matches key keys.Refresh) eqn:Hrefresh.
  { intros [= <- <-]. right. left. done. }
  destruct (keys.Matches key keys.OpenEditor) eqn:Heditor; [|done].
  intros [= <- <-]. right. right. done.
Qed.

Lemma handleFormKeys_cmd a key a' cmd :
  handleFormKeys textinput_Update uuid now a key = Some (a', Some cmd) →
  (∃ n, cmd = tea.inputCmd n) ∨
  (∃ task, submitted uuid now a a' key task ∧
           cmd = if TaskForm.isNew (taskForm a)
                 then tea.addTask task else tea.updateTask task).
Proof.
  unfold handleFormKeys.
  assert (∀ r : option (t * option tea.Cmd),
            r = (let '(f, c) :=
                   TaskForm.Update textinput_Update (taskForm a)
                     (tea.KeyMsg key) in
                 Some (set_taskForm a f, c)) →
            r = Some (a', Some cmd) → ∃ n, cmd = tea.inputCmd n) as Hform.
  { intros r ->.
    destruct (TaskForm.Update textinput_Update (taskForm a) (tea.KeyMsg key))
      as [f c] eqn:Hupd.
    intros [= <- ->]. by eapply TaskForm_Update_cmd. }
  destruct (String.eqb_spec key "esc"); [done |].
  destruct (String.eqb_spec key "enter") as [->|];
    [|intros Hhandled; left; by eapply Hform].
  destruct (TaskForm.IsFocusedOnSubmit (taskForm a)) eqn:Hsubmit.
  - destruct (TaskForm.IsValid (taskForm a)) eqn:Hvalid;
      [|intros Hhandled; left; by eapply Hform].
    destruct (TaskForm.GetTask uuid now (taskForm a)) as [task|] eqn:Hget;
      simpl; [|done].
    intros Hhandled. right. exists task. split.
    + split; [done |]. split; [done |]. split; [done |]. split; [done |].
      by destruct (TaskForm.isNew (taskForm a)); injection Hhandled as <- _.
    + by destruct (TaskForm.isNew (taskForm a)); injection Hhandled as _ <-.
  - destruct (TaskForm.IsFocusedOnCancel (taskForm a)); [done |].
    intros Hhandled; left; by eapply Hform.
Qed.

Lemma handleSearchKeys_cmd a key a' cmd :
  handleSearchKeys unicode_ToLower textinput_SetValue textinput_Update a key
    = Some (a', Some cmd) →
  ∃ n, cmd = tea.inputCmd n.
Proof.
  unfold handleSearchKeys. no_cmd; by eexists.
Qed.

Lemma handleDeleteConfirmKeys_cmd a key a' cmd :
  handleDeleteConfirmKeys a key = Some (a', Some cmd) →
  (key = "y" ∨ key = "Y")%string ∧ a' = set_state a StateNormal ∧
  ∃ i task, selectedTask a = Some (Some (i, task)) ∧
            cmd = tea.deleteTask (model.ID task).
Proof.
  unfold handleDeleteConfirmKeys, deleteSelectedTask.
  change (selectedTask (set_state a StateNormal)) with (selectedTask a).
  destruct (String.eqb_spec key "y") as [->|Hy]; simpl.
  { no_cmd. split; [by left |]. split; [done |]. by eexists _, _. }
  destruct (String.eqb_spec key "Y") as [->|HY]; simpl.
  { no_cmd. split; [by right |]. split; [done |]. by eexists _, _. }
  by no_cmd.
Qed.

Lemma handleTagInputKeys_cmd a key a' cmd :
  handleTagInputKeys textinput_Update a key = Some (a', Some cmd) →
  (∃ n, cmd = tea.inputCmd n) ∨
  (∃ task, cmd = tea.updateTask task ∧ amended a a' task).
Proof.
  unfold handleTagInputKeys.
  destruct (String.eqb key "esc"); [done |].
  destruct (String.eqb key "enter").
  - case_decide; [|done].
    destruct (selectedTask a) as [[[i old]|]|] eqn:Hsel; simpl; [|done..].
    destruct (write_task a i _) as [a1|] eqn:Hw; simpl; [|done].
    intros [= <- <-]. apply write_task_shown in Hw as ->.
    right. eexists. split; [done |]. exists i, old.
    repeat (split; [done |]). done.
  - destruct (textinput_Update (tea.KeyMsg key) (tagInput a)) as [m [n|]];
      simpl; [|done].
    intros [= <- <-]. left. by eexists.
Qed.

End app_commands.

Section app_provenance.
Context (unicode_ToLower : rune → rune).
Context (textinput_SetValue : gostring → textinput.Model → textinput.Model).
Context (textinput_Update :
           tea.Msg → textinput.Model → textinput.Model * option nat).
Context (uuid : gostring) (now : model.Time).
Import App.

Local Abbreviation Update :=
  (App.Update unicode_ToLower textinput_SetValue textinput_Update uuid now).

Lemma handleKeyPress_cmd a key a' cmd :
  handleKeyPress unicode_ToLower textinput_SetValue textinput_Update uuid now
    a key = Some (a', Some cmd) →
  match cmd with
  | tea.Quit =>
      keys.Matches key keys.Quit = true ∧ state a = StateNormal ∧ a' = a
  | tea.deleteTask id =>
      state a = StateConfirmDelete ∧ (key = "y" ∨ key = "Y")%string ∧
      a' = set_state a StateNormal ∧
      ∃ i task, selectedTask a = Some (Some (i, task)) ∧ id = model.ID task
  | tea.addTask task =>
      state a = StateForm ∧ TaskForm.isNew (taskForm a) = true ∧
      submitted uuid now a a' key task
  | tea.updateTask task =>
      (state a = StateForm ∧ TaskForm.isNew (taskForm a) = false ∧
       submitted uuid now a a' key task) ∨
      ((state a = StateNormal ∨ state a = StateTagInput) ∧
       amended a a' task)
  | tea.loadTasks =>
      state a = StateNormal ∧ keys.Matches key keys.Refresh = true ∧ a' = a
  | tea.openEditor =>
      state a = StateNormal ∧ keys.Matches key keys.OpenEditor = true ∧
      a' = a
  | tea.inputCmd _ =>
      state a = StateForm ∨ state a = StateSearch ∨ state a = StateTagInput
  end.
Proof.
  unfold handleKeyPress.
  destruct (state a) eqn:Hstate.
  - destruct (keys.Matches key keys.Quit) eqn:Hq; simpl.
    { by intros [= <- <-]. }
    intros [(task & -> & Ham) | [(-> & ? & ->) | (-> & ? & ->)]]
           %handleNormalKeys_cmd; [|done..].
    right. split; [by left | done].
  - rewrite andb_false_r.
    intros [(n & ->) | (task & Hsub & ->)]%handleFormKeys_cmd; [by left |].
    destruct (TaskForm.isNew (taskForm a)) eqn:Hnew; [done |].
    left. done.
  - rewrite andb_false_r. unfold handleHelpKeys.
    intros Hh. by repeat (case_match; simplify_option_eq).
  - rewrite andb_false_r.
    intros (n & ->)%handleSearchKeys_cmd. right. by left.
  - rewrite andb_false_r.
    intros (Hkey & -> & i & task & Hsel & ->)%handleDeleteConfirmKeys_cmd.
    split; [done |]. split; [done |]. split; [done |]. by exists i, task.
  - rewrite andb_false_r.
    intros [(n & ->) | (task & -> & Ham)]%handleTagInputKeys_cmd.
    + right. by right.
    + right. split; [by right | done].
Qed.

Lemma Update_no_key_cmd a msg a' cmd :
  (∀ key, msg ≠ tea.KeyMsg key) →
  Update a msg = Some (a', Some cmd) →
  (cmd = tea.loadTasks ∧ ∃ e, msg = tea.editorClosedMsg e) ∨
  (∃ n, cmd = tea.inputCmd n) ∧
  (state a = StateForm ∨ state a = StateSearch ∨ state a = StateTagInput).
Proof.
  intros Hkey. destruct msg as [w h|e|ts| |e|key|n];
    unfold App.Update; cbv beta iota.
  - done.
  - done.
  - intros Hh. by simplify_option_eq.
  - done.
  - intros [= <- <-]. left. split; [done |]. by exists e.
  - by destruct (Hkey key).
  - destruct (state a) eqn:Hstate; try done.
    + destruct (TaskForm.Update textinput_Update (taskForm a)
                  (tea.otherMsg n)) as [f c] eqn:Hupd.
      intros [= <- ->]. right.
      split; [by eapply TaskForm_Update_cmd | by left].
    + intros Hh. right.
      repeat (case_match; simplify_option_eq).
      split; [by eexists | right; by left].
    + intros Hh. right.
      repeat (case_match; simplify_option_eq).
      split; [by eexists | right; by right].
Qed.

End app_provenance.

Section app_round_trip.
Context (unicode_ToLower : rune → rune).
Context (textinput_SetValue : gostring → textinput.Model → textinput.Model).
Context (textinput_Update :
           tea.Msg → textinput.Model → textinput.Model * option nat).
Context (uuid : gostring) (now : model.Time).
Import App.

Lemma ListView_SelectedTask_pointer l i task :
  ListView.SelectedTask l = Some (Some (i, task)) →
  at_index (ListView.tasks l) i = Some task.
Proof.
  unfold ListView.SelectedTask. intros Hsel.
  repeat (case_match; simplify_option_eq). done.
Qed.

Lemma selectedTask_pointer a i task :
  selectedTask a = Some (Some (i, task)) →
  at_index (shown_tasks a) i = Some task.
Proof.
  unfold selectedTask, shown_tasks. case_decide.
  - apply ListView_SelectedTask_pointer.
  - apply SelectedTask_pointer.
Qed.

Lemma shown_tasks_synced a : synced a → shown_tasks a = tasks a.
Proof. intros [Hsl Hsk]. unfold shown_tasks. by case_decide. Qed.

Lemma at_index_insert {A} (s : list A) i x y :
  at_index s i = Some y → at_index (<[Z.to_nat i := x]> s) i = Some x.
Proof.
  intros [Hi Hlook]%at_index_Some. apply at_index_Some. split; [done |].
  apply list_lookup_insert_eq. by apply lookup_lt_Some in Hlook.
Qed.

(** With distinct identifiers the update loop replaces the task at the
    position of the task that carries the identifier. *)
Lemma replace_first_insert tasks task (i : nat) old :
  NoDup (model.ID <$> tasks) → tasks !! i = Some old →
  model.ID old = model.ID task →
  Storage.replace_first tasks task = <[i := task]> tasks.
Proof.
  revert i. induction tasks as [|t tasks IH]; intros i Hnodup Hi Hid;
    [done |].
  rewrite fmap_cons in Hnodup. apply NoDup_cons in Hnodup as [Ht Hnodup].
  cbn [Storage.replace_first]. destruct i as [|i]; simpl in Hi.
  - injection Hi as ->. by rewrite decide_True.
  - rewrite decide_False.
    + simpl. f_equal. by apply (IH i).
    + intros Heq. apply Ht. apply list_elem_of_fmap. exists old.
      split; [congruence |]. by eapply list_elem_of_lookup_2.
Qed.

End app_round_trip.

(** X21 ([App.Update] and the handlers it calls): the fresh application
    is in a reachable state, and in a reachable state every message is
    handled: [Update] returns, with no index out of range in any handler
    or view operation it calls, and leaves a reachable state. *)
Theorem App_Update_total (unicode_ToLower : rune → rune)
    (textinput_SetValue : gostring → textinput.Model → textinput.Model)
    (textinput_Update :
       tea.Msg → textinput.Model → textinput.Model * option nat)
    (uuid : gostring) (now : model.Time) :
  App.reachable App.NewApp ∧
  ∀ a msg, App.reachable a →
    ∃ a' cmd,
      App.Update unicode_ToLower textinput_SetValue textinput_Update
                 uuid now a msg = Some (a', cmd) ∧
      App.reachable a'.
Proof.
  split; [apply NewApp_reachable |]. intros a msg Hreach.
  by apply Update_reachable.
Qed.

(** X22 ([App.handleKeyPress]): the application asks to quit exactly on
    a quit key ("q" or "ctrl+c") pressed in the normal state, and it
    leaves its state as it is; in the form, the search, the help, the tag
    input and the delete confirmation those keys do not quit. *)
Theorem App_Quit_iff (unicode_ToLower : rune → rune)
    (textinput_SetValue : gostring → textinput.Model → textinput.Model)
    (textinput_Update :
       tea.Msg → textinput.Model → textinput.Model * option nat)
    (uuid : gostring) (now : model.Time) (a a' : App.t) (msg : tea.Msg) :
  App.Update unicode_ToLower textinput_SetValue textinput_Update uuid now
             a msg = Some (a', Some tea.Quit)
  ↔ ∃ key, msg = tea.KeyMsg key ∧ keys.Matches key keys.Quit = true ∧
           App.state a = App.StateNormal ∧ a' = a.
Proof.
  split.
  - destruct msg as [w h|e|ts| |e|key|n].
    6:{ intros (Hq & Hstate & ->)%handleKeyPress_cmd. by exists key. }
    all: intros [[[=] _] | [[n' [=]] _]]%Update_no_key_cmd; done.
  - intros (key & -> & Hq & Hstate & ->).
    unfold App.Update, App.handleKeyPress. rewrite Hq, Hstate. done.
Qed.

(** X23 ([App.handleDeleteConfirmKeys], [App.deleteSelectedTask]): a
    delete command is issued exactly when "y" or "Y" is pressed in the
    delete confirmation while a task is selected; it names the identifier
    of that task, and the application returns to the normal state. *)
Theorem App_delete_iff (unicode_ToLower : rune → rune)
    (textinput_SetValue : gostring → textinput.Model → textinput.Model)
    (textinput_Update :
       tea.Msg → textinput.Model → textinput.Model * option nat)
    (uuid : gostring) (now : model.Time) (a a' : App.t) (msg : tea.Msg)
    (id : gostring) :
  App.Update unicode_ToLower textinput_SetValue textinput_Update uuid now
             a msg = Some (a', Some (tea.deleteTask id))
  ↔ App.state a = App.StateConfirmDelete ∧
    (msg = tea.KeyMsg "y" ∨ msg = tea.KeyMsg "Y") ∧
    a' = App.set_state a App.StateNormal ∧
    ∃ i task, App.selectedTask a = Some (Some (i, task)) ∧
              id = model.ID task.
Proof.
  split.
  - destruct msg as [w h|e|ts| |e|key|n].
    6:{ intros (Hstate & Hkey & -> & Hsel)%handleKeyPress_cmd.
        split; [done |]. split; [|done].
        destruct Hkey as [-> | ->]; [by left | by right]. }
    all: intros [[[=] _] | [[n' [=]] _]]%Update_no_key_cmd; done.
  - intros (Hstate & Hmsg & -> & i & task & Hsel & ->).
    destruct Hmsg as [-> | ->];
      unfold App.Update, App.handleKeyPress, App.handleDeleteConfirmKeys,
        App.deleteSelectedTask;
      change (App.selectedTask (App.set_state a App.StateNormal))
        with (App.selectedTask a);
      rewrite Hstate, Hsel; done.
Qed.

(** X24 (the status, priority, move and tag keys): outside the form, the
    task of an update command is the selected task with the same
    identifier, title, description and creation time, and the application
    holds exactly that task, at the selected position of its otherwise
    unchanged task slice, when the command is issued; the task slice is
    still the one both views hold, and the state is the normal one. *)
Theorem App_update_in_memory (unicode_ToLower : rune → rune)
    (textinput_SetValue : gostring → textinput.Model → textinput.Model)
    (textinput_Update :
       tea.Msg → textinput.Model → textinput.Model * option nat)
    (uuid : gostring) (now : model.Time) (a a' : App.t) (msg : tea.Msg)
    (task : model.Task) :
  App.synced a →
  App.state a ≠ App.StateForm →
  App.Update unicode_ToLower textinput_SetValue textinput_Update uuid now
             a msg = Some (a', Some (tea.updateTask task)) →
  ∃ i old,
    App.selectedTask a = Some (Some (i, old)) ∧
    at_index (App.tasks a) i = Some old ∧
    model.ID task = model.ID old ∧
    model.Title task = model.Title old ∧
    model.Description task = model.Description old ∧
    model.CreatedAt task = model.CreatedAt old ∧
    App.tasks a' = <[Z.to_nat i := task]> (App.tasks a) ∧
    at_index (App.tasks a') i = Some task ∧
    App.synced a' ∧
    App.state a' = App.StateNormal.
Proof.
  intros Hsync Hstate Hupd.
  assert (App.amended a a' task) as (i & old & Hsel & ? & ? & ? & ? & ? & ->).
  { destruct msg as [w h|e|ts| |e|key|n].
    6:{ apply handleKeyPress_cmd in Hupd as [(? & _) | (_ & ?)]; done. }
    all: apply Update_no_key_cmd in Hupd as [[[=] _] | [[n' [=]] _]]; done. }
  pose proof (selectedTask_pointer a i old Hsel) as Hat.
  rewrite (shown_tasks_synced a Hsync) in *.
  exists i, old. split; [done |]. split; [done |].
  repeat (split; [done |]).
  split; [by eapply at_index_insert |]. done.
Qed.

(** X25 (the closures of [loadTasks], [addTask], [updateTask],
    [deleteSelectedTask]; [App.Update] on the tasks-loaded message): when
    the file loads and the write is not refused, running a repository
    command gives a tasks-loaded message, and once the application in a
    reachable state has handled it the application and both views hold
    exactly the tasks the file holds; its state and view mode are
    unchanged and no further command is issued. *)
Theorem App_storage_round_trip (unicode_ToLower : rune → rune)
    (textinput_SetValue : gostring → textinput.Model → textinput.Model)
    (textinput_Update :
       tea.Msg → textinput.Model → textinput.Model * option nat)
    (uuid : gostring) (now : model.Time)
    (editor : Storage.File → option gostring * Storage.File)
    (a : App.t) (cmd : tea.Cmd) (file : Storage.File)
    (ts : list model.Task) :
  App.reachable a →
  Storage.Load file = Storage.Ok ts →
  cmd = tea.loadTasks ∨ (∃ task, cmd = tea.addTask task) ∨
  (∃ task, cmd = tea.updateTask task) ∨ (∃ id, cmd = tea.deleteTask id) →
  ∃ ts' file' a',
    App.run_cmd now None editor cmd file
      = Some (tea.tasksLoadedMsg ts', file') ∧
    Storage.Load file' = Storage.Ok ts' ∧
    App.Update unicode_ToLower textinput_SetValue textinput_Update uuid now
               a (tea.tasksLoadedMsg ts') = Some (a', None) ∧
    App.tasks a' = ts' ∧
    ListView.tasks (App.listView a') = ts' ∧
    KanbanView.tasks (App.kanbanView a') = ts' ∧
    App.reachable a' ∧
    App.state a' = App.state a ∧ App.viewMode a' = App.viewMode a.
Proof.
  intros Hreach Hload Hcmd.
  assert (∃ ts' file',
            App.run_cmd now None editor cmd file
              = Some (tea.tasksLoadedMsg ts', file') ∧
            Storage.Load file' = Storage.Ok ts') as (ts' & file' & Hrun & Hload').
  { destruct Hcmd as [-> | [[task ->] | [[task ->] | [id ->]]]];
      unfold App.run_cmd, Storage.AddTask, Storage.UpdateTask,
        Storage.DeleteTask; rewrite Hload; simpl; by eexists _, _. }
  destruct (refreshViews_reachable unicode_ToLower a ts' Hreach)
    as (a' & Hrefresh & Hreach' & Hts & Hstate & Hmode & _).
  exists ts', file', a'. split; [done |]. split; [done |].
  split; [unfold App.Update; by rewrite Hrefresh |].
  split; [done |]. pose proof Hreach' as ([Hsl Hsk] & _).
  split; [by rewrite Hsl |]. split; [by rewrite Hsk |]. done.
Qed.

Lemma App_storage_round_trip_witness :
  ∃ ts' file' a',
    App.run_cmd 7 None (λ file, (None, file))
      (tea.deleteTask (str "b")) (Storage.Document Sample.three_tasks)
      = Some (tea.tasksLoadedMsg ts', file') ∧
    Storage.Load file' = Storage.Ok ts' ∧
    App.Update ascii_ToLower Sample.SetValue Sample.Update (str "id") 7
               App.NewApp (tea.tasksLoadedMsg ts') = Some (a', None) ∧
    App.tasks a' = ts' ∧
    ListView.tasks (App.listView a') = ts' ∧
    KanbanView.tasks (App.kanbanView a') = ts' ∧
    App.reachable a' ∧
    App.state a' = App.state App.NewApp ∧
    App.viewMode a' = App.viewMode App.NewApp.
Proof.
  apply (App_storage_round_trip ascii_ToLower Sample.SetValue Sample.Update
           (str "id") 7 (λ file, (None, file)) App.NewApp
           (tea.deleteTask (str "b")) (Storage.Document Sample.three_tasks)
           Sample.three_tasks).
  - apply NewApp_reachable.
  - reflexivity.
  - right. right. right. by exists (str "b").
Defined.

(** X26 (a status, priority, move or tag key, then [updateTask] and the
    tasks-loaded message): with distinct identifiers and the application
    holding the tasks of the file, such a key followed by its repository
    command changes the selected task and nothing else: the file and the
    application then both hold the former tasks with the one at the
    selected position replaced by the amended task, stamped with the time
    of the save. *)
Theorem App_update_persisted (unicode_ToLower : rune → rune)
    (textinput_SetValue : gostring → textinput.Model → textinput.Model)
    (textinput_Update :
       tea.Msg → textinput.Model → textinput.Model * option nat)
    (uuid : gostring) (now : model.Time)
    (editor : Storage.File → option gostring * Storage.File)
    (a a1 : App.t) (msg : tea.Msg) (task : model.Task)
    (file : Storage.File) :
  App.reachable a →
  NoDup (model.ID <$> App.tasks a) →
  Storage.Load file = Storage.Ok (App.tasks a) →
  App.state a ≠ App.StateForm →
  App.Update unicode_ToLower textinput_SetValue textinput_Update uuid now
             a msg = Some (a1, Some (tea.updateTask task)) →
  ∃ i old file' a2,
    App.selectedTask a = Some (Some (i, old)) ∧
    model.ID task = model.ID old ∧
    App.run_cmd now None editor (tea.updateTask task) file
      = Some (tea.tasksLoadedMsg
                (<[Z.to_nat i := model.with_UpdatedAt task now]>
                   (App.tasks a)), file') ∧
    Storage.Load file'
      = Storage.Ok (<[Z.to_nat i := model.with_UpdatedAt task now]>
                      (App.tasks a)) ∧
    App.Update unicode_ToLower textinput_SetValue textinput_Update uuid now
               a1 (tea.tasksLoadedMsg
                     (<[Z.to_nat i := model.with_UpdatedAt task now]>
                        (App.tasks a))) = Some (a2, None) ∧
    App.tasks a2
      = <[Z.to_nat i := model.with_UpdatedAt task now]> (App.tasks a) ∧
    App.reachable a2.
Proof.
  intros Hreach Hnodup Hload Hstate Hupd.
  pose proof Hreach as (Hsync & _).
  assert (App.amended a a1 task) as (i & old & Hsel & Hid & _).
  { destruct msg as [w h|e|ts| |e|key|n].
    6:{ pose proof Hupd as Hupd'.
        apply handleKeyPress_cmd in Hupd' as [(? & _) | (_ & ?)]; done. }
    all: pose proof Hupd as Hupd';
      apply Update_no_key_cmd in Hupd' as [[[=] _] | [[n' [=]] _]]; done. }
  pose proof (selectedTask_pointer a i old Hsel) as Hat.
  rewrite (shown_tasks_synced a Hsync) in Hat.
  apply at_index_Some in Hat as [Hi Hlook].
  destruct (Update_reachable unicode_ToLower textinput_SetValue
              textinput_Update uuid now a msg Hreach)
    as (a1' & cmd' & Hupd' & Hreach1).
  assert (a1' = a1) as -> by congruence.
  set (ts' := <[Z.to_nat i := model.with_UpdatedAt task now]> (App.tasks a)).
  destruct (refreshViews_reachable unicode_ToLower a1 ts' Hreach1)
    as (a2 & Hrefresh & Hreach2 & Hts & _).
  exists i, old, (Storage.Document ts'), a2. subst ts'.
  split; [done |]. split; [done |].
  split.
  { unfold App.run_cmd, Storage.UpdateTask. rewrite Hload. simpl.
    rewrite (replace_first_insert (App.tasks a)
               (model.with_UpdatedAt task now) (Z.to_nat i) old); done. }
  split; [done |].
  split; [unfold App.Update; by rewrite Hrefresh |]. done.
Qed.

(** X27 ([App.handleSearchKeys]): in the search state every key is
    handled and the task slice is kept; Escape clears the search text and
    the filter, so that every task is listed again, and returns to the
    normal state; Enter returns to the normal state and changes nothing
    else, so the filter stays; any other key goes to the search input, and
    afterwards the filter of the list is the lower-cased text of the
    input. *)
Theorem App_search_keys (unicode_ToLower : rune → rune)
    (textinput_SetValue : gostring → textinput.Model → textinput.Model)
    (textinput_Update :
       tea.Msg → textinput.Model → textinput.Model * option nat)
    (uuid : gostring) (now : model.Time) (a : App.t) (key : string) :
  App.state a = App.StateSearch →
  ∃ a' cmd,
    App.Update unicode_ToLower textinput_SetValue textinput_Update uuid now
               a (tea.KeyMsg key) = Some (a', cmd) ∧
    App.tasks a' = App.tasks a ∧
    ListView.tasks (App.listView a') = ListView.tasks (App.listView a) ∧
    App.kanbanView a' = App.kanbanView a ∧
    (key = "esc"%string →
     App.state a' = App.StateNormal ∧ cmd = None ∧
     App.searchInput a' = textinput_SetValue [] (App.searchInput a) ∧
     ListView.filter (App.listView a') = [] ∧
     ListView.Count (App.listView a')
       = ListView.TotalCount (App.listView a')) ∧
    (key = "enter"%string →
     a' = App.set_state a App.StateNormal ∧ cmd = None) ∧
    (key ≠ "esc"%string → key ≠ "enter"%string →
     App.state a' = App.StateSearch ∧
     App.searchInput a'
       = (textinput_Update (tea.KeyMsg key) (App.searchInput a)).1 ∧
     ListView.filter (App.listView a')
       = strings.ToLower unicode_ToLower
           (textinput.Value (App.searchInput a'))).
Proof.
  intros Hstate. unfold App.Update, App.handleKeyPress.
  rewrite Hstate, andb_false_r. unfold App.handleSearchKeys.
  destruct (String.eqb_spec key "esc") as [->|Hesc].
  { destruct (SetFilter_reachable unicode_ToLower (App.listView a) [])
      as (l & Hset & _ & Hts & _ & Hflt).
    pose proof (SetFilter_empty_count unicode_ToLower _ _ Hset) as Hcount.
    change (App.listView (App.set_searchInput a _)) with (App.listView a).
    rewrite Hset. simpl. eexists _, _. split; [done |].
    split; [done |]. split; [done |]. split; [done |].
    split; [|done]. intros _. split; [done |]. split; [done |].
    split; [done |]. split; [done |]. exact Hcount. }
  destruct (String.eqb_spec key "enter") as [->|Henter].
  { eexists _, _. split; [done |]. split; [done |]. split; [done |].
    split; [done |]. split; [done |]. split; [done | done]. }
  destruct (textinput_Update (tea.KeyMsg key) (App.searchInput a))
    as [m c] eqn:Hupd.
  destruct (SetFilter_reachable unicode_ToLower (App.listView a)
              (textinput.Value m)) as (l & Hset & _ & Hts & _ & Hflt).
  change (App.listView (App.set_searchInput a m)) with (App.listView a).
  change (textinput.Value (App.searchInput (App.set_searchInput a m)))
    with (textinput.Value m).
  rewrite Hset. simpl. eexists _, _. split; [done |].
  split; [done |]. split; [done |]. split; [done |].
  split; [done |]. split; [done |]. intros _ _. done.
Qed.

Lemma App_search_keys_witness :
  ∃ a' cmd,
    App.Update ascii_ToLower Sample.SetValue Sample.Update (str "id") 0
               (App.set_state Sample.loaded App.StateSearch)
               (tea.KeyMsg "esc") = Some (a', cmd) ∧
    App.tasks a' = App.tasks (App.set_state Sample.loaded App.StateSearch) ∧
    ListView.tasks (App.listView a')
      = ListView.tasks
          (App.listView (App.set_state Sample.loaded App.StateSearch)) ∧
    App.kanbanView a'
      = App.kanbanView (App.set_state Sample.loaded App.StateSearch) ∧
    ("esc" = "esc" →
     App.state a' = App.StateNormal ∧ cmd = None ∧
     App.searchInput a'
       = Sample.SetValue []
           (App.searchInput (App.set_state Sample.loaded App.StateSearch)) ∧
     ListView.filter (App.listView a') = [] ∧
     ListView.Count (App.listView a')
       = ListView.TotalCount (App.listView a'))%string ∧
    ("esc" = "enter" →
     a' = App.set_state (App.set_state Sample.loaded App.StateSearch)
            App.StateNormal ∧ cmd = None)%string ∧
    ("esc" ≠ "esc" → "esc" ≠ "enter" →
     App.state a' = App.StateSearch ∧
     App.searchInput a'
       = (Sample.Update (tea.KeyMsg "esc")
            (App.searchInput
               (App.set_state Sample.loaded App.StateSearch))).1 ∧
     ListView.filter (App.listView a')
       = strings.ToLower ascii_ToLower
           (textinput.Value (App.searchInput a')))%string.
Proof.
  apply (App_search_keys ascii_ToLower Sample.SetValue Sample.Update
           (str "id") 0 (App.set_state Sample.loaded App.StateSearch)
           "esc").
  reflexivity.
Defined.

(** ** The theorems on the sample data *)

Section sample_facts.

Lemma Sample_board_reachable : KanbanView.reachable Sample.board.
Proof.
  split; [by vm_compute |]. intros c col Hget.
  assert (c = 0 ∨ c = 1 ∨ c = 2 ∨ c = 3) as Hc.
  { apply get_col_in_range in Hget. lia. }
  destruct Hc as [-> | [-> | [-> | ->]]]; injection Hget as <-.
  - split; [by apply Forall_nil |]. split; [by right |].
    by intros idx ?%elem_of_nil.
  - split; [repeat constructor; by eexists |].
    split; [left; by exists (KanbanView.TaskRef 0) |].
    intros idx Hin. exact Hin.
  - split; [by apply Forall_nil |]. split; [by right |].
    by intros idx ?%elem_of_nil.
  - split; [repeat constructor; by eexists |].
    split; [left; by exists (KanbanView.TaskRef 2) |].
    intros idx Hin. exact Hin.
Qed.

Lemma Sample_loaded_reachable : App.reachable Sample.loaded.
Proof.
  destruct (refreshViews_reachable ascii_ToLower App.NewApp
              Sample.three_tasks NewApp_reachable)
    as (a' & Heq & Hreach & _).
  unfold Sample.loaded. by rewrite Heq.
Qed.

End sample_facts.

Lemma KanbanView_move_task_refresh_witness :
  (KanbanView.activeCol Sample.board < 3 →
   ∃ k1 moved k2 col,
     KanbanView.MoveTaskRight Sample.board = Some (k1, Some moved) ∧
     KanbanView.SetTasks k1 (KanbanView.tasks k1) = Some k2 ∧
     at_index (KanbanView.tasks k2) 0 = Some moved ∧
     model.ID moved
       = model.ID (Sample.task "a" "write" model.StatusTodo
                     model.PriorityLow [str "doc"]) ∧
     KanbanView.get_col (KanbanView.columns k2)
       (KanbanView.activeCol Sample.board + 1) = Some col ∧
     0 ∈ KanbanView.col_tasks col ∧
     ∀ c col', KanbanView.get_col (KanbanView.columns k2) c = Some col' →
               0 ∈ KanbanView.col_tasks col' →
               c = KanbanView.activeCol Sample.board + 1) ∧
  (0 < KanbanView.activeCol Sample.board →
   ∃ k1 moved k2 col,
     KanbanView.MoveTaskLeft Sample.board = Some (k1, Some moved) ∧
     KanbanView.SetTasks k1 (KanbanView.tasks k1) = Some k2 ∧
     at_index (KanbanView.tasks k2) 0 = Some moved ∧
     model.ID moved
       = model.ID (Sample.task "a" "write" model.StatusTodo
                     model.PriorityLow [str "doc"]) ∧
     KanbanView.get_col (KanbanView.columns k2)
       (KanbanView.activeCol Sample.board - 1) = Some col ∧
     0 ∈ KanbanView.col_tasks col ∧
     ∀ c col', KanbanView.get_col (KanbanView.columns k2) c = Some col' →
               0 ∈ KanbanView.col_tasks col' →
               c = KanbanView.activeCol Sample.board - 1).
Proof.
  apply (KanbanView_move_task_refresh Sample.board 0
           (Sample.task "a" "write" model.StatusTodo model.PriorityLow
              [str "doc"])).
  - apply Sample_board_reachable.
  - reflexivity.
Defined.

Lemma App_update_in_memory_witness :
  ∃ i old,
    App.selectedTask Sample.loaded = Some (Some (i, old)) ∧
    at_index (App.tasks Sample.loaded) i = Some old ∧
    model.ID (Sample.task "a" "write" model.StatusInProgress
                model.PriorityLow [str "doc"]) = model.ID old ∧
    model.Title (Sample.task "a" "write" model.StatusInProgress
                   model.PriorityLow [str "doc"]) = model.Title old ∧
    model.Description (Sample.task "a" "write" model.StatusInProgress
                         model.PriorityLow [str "doc"])
      = model.Description old ∧
    model.CreatedAt (Sample.task "a" "write" model.StatusInProgress
                       model.PriorityLow [str "doc"])
      = model.CreatedAt old ∧
    App.tasks
      (App.share_tasks Sample.loaded
         (<[0%nat := Sample.task "a" "write" model.StatusInProgress
                       model.PriorityLow [str "doc"]]>
            Sample.three_tasks))
      = <[Z.to_nat i := Sample.task "a" "write" model.StatusInProgress
                          model.PriorityLow [str "doc"]]>
          (App.tasks Sample.loaded) ∧
    at_index
      (App.tasks
         (App.share_tasks Sample.loaded
            (<[0%nat := Sample.task "a" "write" model.StatusInProgress
                          model.PriorityLow [str "doc"]]>
               Sample.three_tasks))) i
      = Some (Sample.task "a" "write" model.StatusInProgress
                model.PriorityLow [str "doc"]) ∧
    App.synced
      (App.share_tasks Sample.loaded
         (<[0%nat := Sample.task "a" "write" model.StatusInProgress
                       model.PriorityLow [str "doc"]]>
            Sample.three_tasks)) ∧
    App.state
      (App.share_tasks Sample.loaded
         (<[0%nat := Sample.task "a" "write" model.StatusInProgress
                       model.PriorityLow [str "doc"]]>
            Sample.three_tasks)) = App.StateNormal.
Proof.
  apply (App_update_in_memory ascii_ToLower Sample.SetValue Sample.Update
           (str "id") 0 Sample.loaded _ (tea.KeyMsg "2")).
  - split; reflexivity.
  - intros Hstate. vm_compute in Hstate. discriminate.
  - vm_compute. reflexivity.
Defined.

Lemma App_update_persisted_witness :
  ∃ i old file' a2,
    App.selectedTask Sample.loaded = Some (Some (i, old)) ∧
    model.ID (Sample.task "a" "write" model.StatusInProgress
                model.PriorityLow [str "doc"]) = model.ID old ∧
    App.run_cmd 7 None (λ file, (None, file))
      (tea.updateTask (Sample.task "a" "write" model.StatusInProgress
                         model.PriorityLow [str "doc"]))
      (Storage.Document Sample.three_tasks)
      = Some (tea.tasksLoadedMsg
                (<[Z.to_nat i :=
                     model.with_UpdatedAt
                       (Sample.task "a" "write" model.StatusInProgress
                          model.PriorityLow [str "doc"]) 7]>
                   (App.tasks Sample.loaded)), file') ∧
    Storage.Load file'
      = Storage.Ok
          (<[Z.to_nat i :=
               model.with_UpdatedAt
                 (Sample.task "a" "write" model.StatusInProgress
                    model.PriorityLow [str "doc"]) 7]>
             (App.tasks Sample.loaded)) ∧
    App.Update ascii_ToLower Sample.SetValue Sample.Update (str "id") 7
      (App.share_tasks Sample.loaded
         (<[0%nat := Sample.task "a" "write" model.StatusInProgress
                       model.PriorityLow [str "doc"]]>
            Sample.three_tasks))
      (tea.tasksLoadedMsg
         (<[Z.to_nat i :=
              model.with_UpdatedAt
                (Sample.task "a" "write" model.StatusInProgress
                   model.PriorityLow [str "doc"]) 7]>
            (App.tasks Sample.loaded))) = Some (a2, None) ∧
    App.tasks a2
      = <[Z.to_nat i :=
            model.with_UpdatedAt
              (Sample.task "a" "write" model.StatusInProgress
                 model.PriorityLow [str "doc"]) 7]>
          (App.tasks Sample.loaded) ∧
    App.reachable a2.
Proof.
  apply (App_update_persisted ascii_ToLower Sample.SetValue Sample.Update
           (str "id") 7 (λ file, (None, file)) Sample.loaded _
           (tea.KeyMsg "2")).
  - apply Sample_loaded_reachable.
  - apply (bool_decide_unpack _). by vm_compute.
  - reflexivity.
  - intros Hstate. vm_compute in Hstate. discriminate.
  - vm_compute. reflexivity.
Defined.

Lemma organizeItems_partition_witness :
  ∃ l2,
    ListView.organizeItems
      (ListView.applyFilter ascii_ToLower
         (ListView.set_groupBy
            (ListView.set_tasks ListView.NewListView Sample.three_tasks)
            model.GroupByTag))
      = Some l2 ∧
    ListView.filtered l2
      = ListView.filtered
          (ListView.applyFilter ascii_ToLower
             (ListView.set_groupBy
                (ListView.set_tasks ListView.NewListView Sample.three_tasks)
                model.GroupByTag)) ∧
    ListView.items l2
      = ListView.group_order
          (ListView.applyFilter ascii_ToLower
             (ListView.set_groupBy
                (ListView.set_tasks ListView.NewListView Sample.three_tasks)
                model.GroupByTag))
          ≫= ListView.group_block
               (ListView.applyFilter ascii_ToLower
                  (ListView.set_groupBy
                     (ListView.set_tasks ListView.NewListView
                        Sample.three_tasks)
                     model.GroupByTag)) ∧
    NoDup (ListView.group_order
             (ListView.applyFilter ascii_ToLower
                (ListView.set_groupBy
                   (ListView.set_tasks ListView.NewListView
                      Sample.three_tasks)
                   model.GroupByTag))) ∧
    ((∀ idx task,
        idx ∈ ListView.filtered
                (ListView.applyFilter ascii_ToLower
                   (ListView.set_groupBy
                      (ListView.set_tasks ListView.NewListView
                         Sample.three_tasks)
                      model.GroupByTag)) →
        at_index
          (ListView.tasks
             (ListView.set_groupBy
                (ListView.set_tasks ListView.NewListView Sample.three_tasks)
                model.GroupByTag)) idx = Some task →
        ListView.group_shown
          (ListView.groupBy
             (ListView.set_groupBy
                (ListView.set_tasks ListView.NewListView Sample.three_tasks)
                model.GroupByTag)) task) →
     ListView.task_refs (ListView.items l2) ≡ₚ ListView.filtered l2 ∧
     NoDup (ListView.task_refs (ListView.items l2))).
Proof.
  apply (organizeItems_partition ascii_ToLower
           (ListView.set_groupBy
              (ListView.set_tasks ListView.NewListView Sample.three_tasks)
              model.GroupByTag)).
  discriminate.
Defined.
